(** * Host-side control layer of the USRP driver

    A shallow embedding of two translation units:

    - [host/lib/usrp/dboard/manager.cpp]: the daughterboard registry
      ([register_subdevs], [register_internal_dboards], [get_dboard_ctor]),
      the daughterboard manager and its forwarding [subdev_proxy];
    - [host/lib/usrp/multi_usrp.cpp]: the multi-board facade: access to the
      property tree, the channel resolver, the setters that fan out over
      boards or channels, the rate and frequency warnings, the time
      synchronisation and [get_pp_string].  The frequency, gain, antenna,
      bandwidth and sensor accessors, which only forward to the tree or to
      the tuning and gain-group helpers, are left out.

    Stateful code is written with explicit state passing; a C++ exception is
    the [Throw] outcome, and the state reached when it was raised is kept.
    What the two files take from elsewhere is a parameter: the driver
    classes ([dboard::base], the [make] functions and identity codes of
    "dboards.hpp") and the device behind the property tree (a class of
    motherboards that answer reads and writes).  Reads through the tree
    leave the device as it is; the device changes by writes and by the
    passing of time, which the model lets pass between the rounds of the
    busy wait and during the sleep of [set_time_unknown_pps].

    The definitions come first, the lemmas and theorems after them. *)

From Stdlib Require Import ZArith NArith List String Ascii QArith Lia Lqa.
From Stdlib Require Import PrimFloat FloatOps SpecFloat.
From stdpp Require Import base decidable option list strings.

Local Open Scope string_scope.
Local Open Scope list_scope.

Set Warnings "-inexact-float".

(** ** Outcomes *)

(** What a call produces: a value, an exception, or [OutOfFuel] when the
    bounded unrolling of a loop of the model was used up (the theorems show
    where this cannot happen). *)
Inductive outcome (E A : Type) : Type :=
| Ok (a : A)
| Throw (e : E)
| OutOfFuel.
Arguments Ok {E A} a.
Arguments Throw {E A} e.
Arguments OutOfFuel {E A}.

(** ** [uhd::dict] *)

(** Modelled from the spec: [uhd::dict] (include/uhd/types/dict.hpp is not
    among the sources).  An insertion-ordered list of key/value pairs:
    assignment through [operator[]] overwrites the value of an existing key
    in place and appends a new pair otherwise; reading a missing key through
    the non-const [operator[]] appends a default-constructed value. *)
Module dict.
Section defs.
Context {K V : Type} `{EqDecision K}.

Fixpoint get (d : list (K * V)) (k : K) : option V :=
  match d with
  | [] => None
  | (k', v) :: d' => if decide (k' = k) then Some v else get d' k
  end.

Definition has_key (d : list (K * V)) (k : K) : bool :=
  match get d k with Some _ => true | None => false end.

(** [d[k] = v] *)
Fixpoint set (k : K) (v : V) (d : list (K * V)) : list (K * V) :=
  match d with
  | [] => [(k, v)]
  | (k', v') :: d' =>
      if decide (k' = k) then (k', v) :: d' else (k', v') :: set k v d'
  end.

(** [d[k]] read on a non-const dict. *)
Definition index (dflt : V) (k : K) (d : list (K * V)) : V * list (K * V) :=
  match get d k with
  | Some v => (v, d)
  | None => (dflt, d ++ [(k, dflt)])
  end.

Definition get_keys (d : list (K * V)) : list K := map fst d.
End defs.
End dict.

(** ** The daughterboard registry and manager (manager.cpp) *)

Module dboard.

(** A daughterboard identity code (printed with [0x%04x] by the source). *)
Definition dboard_id_t := N.
Definition prop_names_t := list string.

(** The driver interface [dboard::base]: the four handlers a
    [subdev_proxy] forwards to.  [Inst] is the state of a driver object,
    [Key] and [Val] stand for [wax::obj] keys and values. *)
Class Base (Inst Key Val : Type) := {
  rx_get : Key → Inst → Val;
  rx_set : Key → Val → Inst → Inst;
  tx_get : Key → Inst → Val;
  tx_set : Key → Val → Inst → Inst
}.

(** [interface::sptr]: the hardware interface object that is meant. *)
Definition interface_sptr := N.

(** [base::ctor_args_t]: the subdevice name and the interface. *)
Definition ctor_args_t := (string * interface_sptr)%type.

(** What "dboards.hpp" declares and manager.cpp uses: the identity codes of
    the built-in boards, and their [make] functions.  [ctor_t] is
    [dboard_ctor_t], a function pointer: two constructors are equal when
    they are the same function ([EqDecision]), and [construct] calls one. *)
Class Dboards (ctor_t Inst : Type) := {
  ctor_eq_dec :: EqDecision ctor_t;
  construct : ctor_t → ctor_args_t → Inst;
  ID_NONE : dboard_id_t;
  ID_BASIC_TX : dboard_id_t;
  ID_BASIC_RX : dboard_id_t;
  basic_tx_make : ctor_t;
  basic_rx_make : ctor_t
}.

Inductive exn :=
| unknown_dboard_id (xx_type : string) (dboard_id : dboard_id_t)
    (* std::runtime_error "Unknown %s dboard id: 0x%04x" *)
| unknown_subdev_name (xx : string) (subdev_name : string).
    (* std::invalid_argument "Unknown rx subdev name %s" *)

(** The file-level statics: the latch of [register_internal_dboards] and the
    two maps. *)
Record registry (ctor_t : Type) := mk_registry {
  called : bool;
  id_to_ctor_map : list (dboard_id_t * ctor_t);
  ctor_to_names_map : list (ctor_t * prop_names_t)
}.
Arguments mk_registry {ctor_t}.
Arguments called {ctor_t}.
Arguments id_to_ctor_map {ctor_t}.
Arguments ctor_to_names_map {ctor_t}.

(** The state of a process that has not touched the registry yet. *)
Definition fresh {ctor_t : Type} : registry ctor_t := mk_registry false [] [].

Inductive type_t := RX_TYPE | TX_TYPE.

(** A [subdev_proxy]: a shared pointer to a driver object (its position in
    the manager's store of driver objects) and a direction tag. *)
Record subdev_proxy := mk_proxy {
  _subdev : nat;
  _type : type_t
}.

Inductive gpio_bank_t := GPIO_RX_BANK | GPIO_TX_BANK.

(** The calls made on the [interface::sptr]. *)
Inductive iface_call :=
| set_gpio_ddr (bank : gpio_bank_t) (value mask : N)
| write_gpio (bank : gpio_bank_t) (value mask : N)
| set_atr_reg (bank : gpio_bank_t) (tx_value rx_value mask : N).

(** A manager: the driver objects it constructed (the targets of the shared
    pointers), the two proxy maps, and the calls it made on the interface. *)
Record manager (Inst : Type) := mk_manager {
  iface_calls : list iface_call;
  subdevs : list Inst;
  _rx_dboards : list (string * subdev_proxy);
  _tx_dboards : list (string * subdev_proxy)
}.
Arguments mk_manager {Inst}.
Arguments iface_calls {Inst}.
Arguments subdevs {Inst}.
Arguments _rx_dboards {Inst}.
Arguments _tx_dboards {Inst}.

(** What a process does with the registry: it registers, or it constructs a
    manager. *)
Inductive op (ctor_t : Type) :=
| op_register (dboard_id : dboard_id_t) (dboard_ctor : ctor_t)
    (subdev_names : prop_names_t)
| op_manager (rx_dboard_id tx_dboard_id : dboard_id_t)
    (dboard_interface : interface_sptr).
Arguments op_register {ctor_t}.
Arguments op_manager {ctor_t}.

Section defs.
Context {ctor_t Inst Key Val : Type} `{!Dboards ctor_t Inst} `{!Base Inst Key Val}.

(** The two assignments of [register_subdevs] (lines 66-67). *)
Definition store_subdevs (dboard_id : dboard_id_t) (dboard_ctor : ctor_t)
    (subdev_names : prop_names_t) (r : registry ctor_t) : registry ctor_t :=
  mk_registry (called r)
    (dict.set dboard_id dboard_ctor (id_to_ctor_map r))
    (dict.set dboard_ctor subdev_names (ctor_to_names_map r)).

(** [register_internal_dboards]: the latch, then the four registrations.
    Each of them is a call of [register_subdevs], which re-enters this
    function; the latch is set by then, so the inner call returns at once
    and the registration reduces to [store_subdevs]
    (see [register_internal_dboards_unfold]). *)
Definition register_internal_dboards (r : registry ctor_t) : registry ctor_t :=
  if called r then r
  else
    let r := mk_registry true (id_to_ctor_map r) (ctor_to_names_map r) in
    let r := store_subdevs ID_NONE basic_tx_make [""] r in
    let r := store_subdevs ID_NONE basic_rx_make ["ab"] r in
    let r := store_subdevs ID_BASIC_TX basic_tx_make [""] r in
    store_subdevs ID_BASIC_RX basic_rx_make ["a"; "b"; "ab"] r.

(** [manager::register_subdevs] *)
Definition register_subdevs (dboard_id : dboard_id_t) (dboard_ctor : ctor_t)
    (subdev_names : prop_names_t) (r : registry ctor_t) : registry ctor_t :=
  store_subdevs dboard_id dboard_ctor subdev_names (register_internal_dboards r).

(** [get_dboard_ctor] *)
Definition get_dboard_ctor (dboard_id : dboard_id_t) (xx_type : string)
    (r : registry ctor_t) : outcome exn ctor_t :=
  match dict.get (id_to_ctor_map r) dboard_id with
  | None => Throw (unknown_dboard_id xx_type dboard_id)
  | Some c => Ok c
  end.

(** The entry an identity code resolves to: its constructor and the
    subdevice names filed for that constructor. *)
Definition resolve (dboard_id : dboard_id_t) (r : registry ctor_t)
  : option (ctor_t * prop_names_t) :=
  match dict.get (id_to_ctor_map r) dboard_id with
  | None => None
  | Some c =>
      match dict.get (ctor_to_names_map r) c with
      | None => None
      | Some names => Some (c, names)
      end
  end.

(** [subdev_proxy::get] and [subdev_proxy::set], on the store of driver
    objects. *)
Definition proxy_get (p : subdev_proxy) (key : Key) (store : list Inst)
  : option Val :=
  match store !! _subdev p with
  | None => None
  | Some inst =>
      Some match _type p with
           | RX_TYPE => rx_get key inst
           | TX_TYPE => tx_get key inst
           end
  end.

Definition proxy_set (p : subdev_proxy) (key : Key) (val : Val)
    (store : list Inst) : list Inst :=
  match store !! _subdev p with
  | None => store
  | Some inst =>
      <[_subdev p :=
          match _type p with
          | RX_TYPE => rx_set key val inst
          | TX_TYPE => tx_set key val inst
          end]> store
  end.

(** The digital I/O set-up of the constructor (lines 140-147). *)
Definition gpio_init : list iface_call :=
  [ set_gpio_ddr GPIO_RX_BANK 0x0000 0xffff;
    set_gpio_ddr GPIO_TX_BANK 0x0000 0xffff;
    write_gpio GPIO_RX_BANK 0x0000 0xffff;
    write_gpio GPIO_TX_BANK 0x0000 0xffff;
    set_atr_reg GPIO_RX_BANK 0x0000 0x0000 0x0000;
    set_atr_reg GPIO_TX_BANK 0x0000 0x0000 0x0000 ].

(** One round of the transceiver loop (lines 152-162): one driver object,
    two proxies on it. *)
Definition make_xcvr_subdev (rx_dboard_ctor : ctor_t)
    (dboard_interface : interface_sptr) (m : manager Inst)
    (name : string) : manager Inst :=
  let xcvr_dboard := length (subdevs m) in
  mk_manager (iface_calls m)
    (subdevs m ++ [construct rx_dboard_ctor (name, dboard_interface)])
    (dict.set name (mk_proxy xcvr_dboard RX_TYPE) (_rx_dboards m))
    (dict.set name (mk_proxy xcvr_dboard TX_TYPE) (_tx_dboards m)).

(** One round of the rx loop (lines 170-176). *)
Definition make_rx_subdev (rx_dboard_ctor : ctor_t)
    (dboard_interface : interface_sptr) (m : manager Inst)
    (name : string) : manager Inst :=
  let rx_dboard := length (subdevs m) in
  mk_manager (iface_calls m)
    (subdevs m ++ [construct rx_dboard_ctor (name, dboard_interface)])
    (dict.set name (mk_proxy rx_dboard RX_TYPE) (_rx_dboards m))
    (_tx_dboards m).

(** One round of the tx loop (lines 180-186). *)
Definition make_tx_subdev (tx_dboard_ctor : ctor_t)
    (dboard_interface : interface_sptr) (m : manager Inst)
    (name : string) : manager Inst :=
  let tx_dboard := length (subdevs m) in
  mk_manager (iface_calls m)
    (subdevs m ++ [construct tx_dboard_ctor (name, dboard_interface)])
    (_rx_dboards m)
    (dict.set name (mk_proxy tx_dboard TX_TYPE) (_tx_dboards m)).

(** [manager::manager].  It runs on the registry, which it may seed, and
    in which reading [ctor_to_names_map[ctor]] files an empty name list for
    a constructor that has none. *)
Definition manager_new (rx_dboard_id tx_dboard_id : dboard_id_t)
    (dboard_interface : interface_sptr) (r : registry ctor_t) : outcome exn (manager Inst) * registry ctor_t :=
  let r := register_internal_dboards r in
  match get_dboard_ctor rx_dboard_id "rx" r with
  | OutOfFuel => (OutOfFuel, r)
  | Throw e => (Throw e, r)
  | Ok rx_dboard_ctor =>
      match get_dboard_ctor tx_dboard_id "tx" r with
      | OutOfFuel => (OutOfFuel, r)
      | Throw e => (Throw e, r)
      | Ok tx_dboard_ctor =>
          let m := mk_manager gpio_init [] [] [] in
          if decide (rx_dboard_ctor = tx_dboard_ctor) then
            let '(names, c2n) :=
              dict.index [] rx_dboard_ctor (ctor_to_names_map r) in
            (Ok (foldl (make_xcvr_subdev rx_dboard_ctor dboard_interface) m names),
             mk_registry (called r) (id_to_ctor_map r) c2n)
          else
            let '(rx_names, c2n) :=
              dict.index [] rx_dboard_ctor (ctor_to_names_map r) in
            let m :=
              foldl (make_rx_subdev rx_dboard_ctor dboard_interface) m rx_names in
            let '(tx_names, c2n) := dict.index [] tx_dboard_ctor c2n in
            let m :=
              foldl (make_tx_subdev tx_dboard_ctor dboard_interface) m tx_names in
            (Ok m, mk_registry (called r) (id_to_ctor_map r) c2n)
      end
  end.

(** [manager::get_rx_subdev_names], [manager::get_tx_subdev_names] *)
Definition get_rx_subdev_names (m : manager Inst) : prop_names_t :=
  dict.get_keys (_rx_dboards m).

Definition get_tx_subdev_names (m : manager Inst) : prop_names_t :=
  dict.get_keys (_tx_dboards m).

(** [manager::get_rx_subdev], [manager::get_tx_subdev]: the proxy filed
    under a name. *)
Definition get_rx_subdev (subdev_name : string) (m : manager Inst)
  : outcome exn subdev_proxy :=
  match dict.get (_rx_dboards m) subdev_name with
  | None => Throw (unknown_subdev_name "rx" subdev_name)
  | Some p => Ok p
  end.

Definition get_tx_subdev (subdev_name : string) (m : manager Inst)
  : outcome exn subdev_proxy :=
  match dict.get (_tx_dboards m) subdev_name with
  | None => Throw (unknown_subdev_name "tx" subdev_name)
  | Some p => Ok p
  end.

(** *** What the statements below speak of *)

(** The registries a process can be in: nothing else writes the statics. *)
Inductive reachable : registry ctor_t → Prop :=
| reachable_fresh : reachable fresh
| reachable_seed (r : registry ctor_t) :
    reachable r → reachable (register_internal_dboards r)
| reachable_register (r : registry ctor_t) id c names :
    reachable r → reachable (register_subdevs id c names r)
| reachable_index (r : registry ctor_t) c :
    reachable r →
    reachable (mk_registry (called r) (id_to_ctor_map r)
                 (dict.index [] c (ctor_to_names_map r)).2).

(** No identity code and no constructor is filed twice. *)
Definition no_duplicates (r : registry ctor_t) : Prop :=
  NoDup (dict.get_keys (id_to_ctor_map r))
  ∧ NoDup (dict.get_keys (ctor_to_names_map r)).

(** The registry after one operation, and after a sequence of them. *)
Definition step (r : registry ctor_t) (o : op ctor_t) : registry ctor_t :=
  match o with
  | op_register id c names => register_subdevs id c names r
  | op_manager rx_id tx_id iface => (manager_new rx_id tx_id iface r).2
  end.

Definition run (ops : list (op ctor_t)) (r : registry ctor_t)
  : registry ctor_t :=
  foldl step r ops.
End defs.
End dboard.

(** ** The multi-board facade (multi_usrp.cpp) *)

Module multi_usrp.

(** *** Values, keys and nodes of the property tree *)

(** Modelled from the spec: [time_spec_t] (lib/types/time_spec.cpp is not
    among the sources), "an arbitrary-precision instant (whole seconds +
    fractional seconds)": an exact number of seconds, compared and
    subtracted exactly. *)
Definition time_spec_t := Q.

Definition time_lt (a b : time_spec_t) : bool := negb (Qle_bool b a).
Definition time_gt (a b : time_spec_t) : bool := time_lt b a.
Definition time_ne (a b : time_spec_t) : bool := negb (Qeq_bool a b).
Definition time_sub (a b : time_spec_t) : time_spec_t := (a - b)%Q.

(** Modelled from the spec: [time_spec_t(double secs)], the instant of
    [secs] seconds.  A double is a dyadic rational, and the instant is that
    number exactly: the source's [time_spec_t(1.1)] is the double nearest to
    1.1, which is 4953959590107546 / 2^52 seconds and a little more than
    11/10, and its [time_spec_t(0.01)] is 5764607523034235 / 2^59 seconds, a
    little more than 1/100.  (An infinity or a NaN is given 0; the source
    builds instants from these two literals only.) *)
Definition time_spec_t_of_double (secs : float) : time_spec_t :=
  match Prim2SF secs with
  | S754_finite s m e =>
      let q := (inject_Z (Zpos m) * Qpower 2 e)%Q in
      if s then (- q)%Q else q
  | _ => 0%Q
  end.

(** [subdev_spec_pair_t] *)
Record subdev_spec_pair_t := mk_pair { db_name : string; sd_name : string }.
Definition subdev_spec_t := list subdev_spec_pair_t.

(** [stream_cmd_t] and [clock_config_t] are carried by the facade without
    being inspected. *)
Definition stream_cmd_t := N.
Definition clock_config_t := N.

(** What a [wax::obj] holds, as far as the facade casts it. *)
Inductive value :=
| VDouble (x : float)
| VTime (t : time_spec_t)
| VString (s : string)
| VNames (names : list string)
| VSubdevSpec (spec : subdev_spec_t)
| VStreamCmd (cmd : stream_cmd_t)
| VClockConfig (cfg : clock_config_t).

Inductive key :=
| MBOARD_PROP_NAME
| MBOARD_PROP_CLOCK_RATE
| MBOARD_PROP_TIME_NOW
| MBOARD_PROP_TIME_PPS
| MBOARD_PROP_CLOCK_CONFIG
| MBOARD_PROP_RX_SUBDEV_SPEC
| MBOARD_PROP_TX_SUBDEV_SPEC
| MBOARD_PROP_RX_DSP_NAMES
| MBOARD_PROP_TX_DSP_NAMES
| DSP_PROP_NAME
| DSP_PROP_HOST_RATE
| DSP_PROP_STREAM_CMD
| DBOARD_PROP_NAME
| SUBDEV_PROP_NAME.

(** The keys of [named_prop_t(key, name)] that lead to a node below. *)
Inductive named_key :=
| MBOARD_PROP_RX_DSP
| MBOARD_PROP_TX_DSP
| MBOARD_PROP_RX_DBOARD
| MBOARD_PROP_TX_DBOARD
| DBOARD_PROP_SUBDEV.

(** A node of a motherboard: the motherboard itself, or the node reached
    from another one with a named property. *)
Inductive node :=
| mboard_node
| named (parent : node) (k : named_key) (name : string).

(** A [wax::obj] link into the tree of the device: a motherboard and a node
    of it. *)
Record wax_obj := mk_obj { on_mboard : nat; at_node : node }.

Inductive exn :=
| out_of_range              (* std::out_of_range, from [vector::at] *)
| bad_cast                  (* a failed [as<T>()] *)
| runtime_error (what : string)  (* uhd::runtime_error *)
| device_error (code : N).  (* anything the device itself raises *)

Abbreviation result := (outcome exn).

#[export] Instance outcome_ret : MRet result := fun _ a => Ok a.
#[export] Instance outcome_bind : MBind result := fun _ _ f c =>
  match c with
  | Ok a => f a
  | Throw e => Throw e
  | OutOfFuel => OutOfFuel
  end.

(** The motherboards of a device, the excluded collaborator behind the tree.
    A read answers from the state of the board and leaves it as it is; a
    write answers with the state it leaves, also when it raises;
    [board_tick] is what happens to the board between two polls of a busy
    wait, [board_sleep] what happens during [sleep(seconds(1))]. *)
Class Board (B : Type) := {
  board_get : B → node → key → result value;
  board_set : node → key → value → B → result unit * B;
  board_tick : B → B;
  board_sleep : B → B
}.

(** The messages sent through [UHD_MSG], with the arguments of their format
    strings. *)
Inductive message :=
| status (text : string)
| samp_rate_warning (xx : string) (target_MSps actual_MSps : float)
| tune_freq_warning (xx : string) (target_MHz actual_MHz : float)
| time_deviation_warning (m : N) (time_0 time_i : time_spec_t).

(** The world a facade call runs in: the device ([_dev]), with one board per
    name of [DEVICE_PROP_MBOARD_NAMES], in that order; the messages sent so
    far; and every write made through the tree so far. *)
Record world (B : Type) := mk_world {
  dev_name : string;
  mboards : list B;
  msgs : list message;
  writes : list (wax_obj * key * value)
}.
Arguments mk_world {B}.
Arguments dev_name {B}.
Arguments mboards {B}.
Arguments msgs {B}.
Arguments writes {B}.

(** A [size_t] has 64 bits.  A sum or a product of sizes wraps around; an
    index that was found below a bound is below the largest [size_t], so that
    stepping it does not, and a subtraction that is guarded by a comparison
    is exact. *)
Definition wrap (x : N) : N := (x mod 2 ^ 64)%N.

(** Modelled from the spec: the sentinels "all boards" and "all channels"
    (include/uhd/usrp/multi_usrp.hpp is not among the sources): the largest
    [size_t]. *)
Definition ALL_MBOARDS : N := N.ones 64.
Definition ALL_CHANS : N := N.ones 64.

Inductive dir := RX | TX.

Definition xx (d : dir) : string :=
  match d with RX => "RX" | TX => "TX" end.

(** The pieces [get_pp_string] appends to its buffer, with the arguments of
    their format strings. *)
Inductive pp_item :=
| pp_header (multi : bool) (device : string)
| pp_mboard (m : N) (name : string)
| pp_channel (d : dir) (chan : N) (dsp dboard subdev : string).

Definition size {A} (l : list A) : N := N.of_nat (length l).
Arguments size {A} l : simpl never.

(** [vector::at] *)
Definition at_ {A} (l : list A) (i : N) : result A :=
  match l !! N.to_nat i with
  | Some a => Ok a
  | None => Throw out_of_range
  end.

(** [as<T>()] *)
Definition as_double (v : value) : result float :=
  match v with VDouble x => Ok x | _ => Throw bad_cast end.
Definition as_time (v : value) : result time_spec_t :=
  match v with VTime t => Ok t | _ => Throw bad_cast end.
Definition as_string (v : value) : result string :=
  match v with VString s => Ok s | _ => Throw bad_cast end.
Definition as_names (v : value) : result (list string) :=
  match v with VNames l => Ok l | _ => Throw bad_cast end.
Definition as_subdev_spec (v : value) : result subdev_spec_t :=
  match v with VSubdevSpec s => Ok s | _ => Throw bad_cast end.

(** Calls that change the world. *)
Definition M (B A : Type) : Type := world B → result A * world B.

Definition retM {B A} (a : A) : M B A := fun w => (Ok a, w).

Definition bindM {B A A'} (c : M B A) (k : A → M B A') : M B A' := fun w =>
  match c w with
  | (Ok a, w') => k a w'
  | (Throw e, w') => (Throw e, w')
  | (OutOfFuel, w') => (OutOfFuel, w')
  end.

(** A call that only reads. *)
Definition liftR {B A} (c : world B → result A) : M B A := fun w => (c w, w).

Definition throwM {B A} (e : exn) : M B A := fun w => (Throw e, w).

Notation "x <- c ; k" := (bindM c (fun x => k))
  (at level 20, c at level 100, k at level 200, only parsing).

Record mboard_chan_pair := mk_mcp { mboard : N; chan : N }.

Definition nl : string := String (ascii_of_nat 10) EmptyString.

Section facade.
Context {B : Type} `{!Board B}.

(** *** Access to the tree *)

(** [get_num_mboards]: the size of [DEVICE_PROP_MBOARD_NAMES]. *)
Definition get_num_mboards (w : world B) : N := size (mboards w).

(** [_mboard]: [names.at(mboard)], then the node of the board of that name. *)
Definition _mboard (mboard : N) (w : world B) : result wax_obj :=
  _ ← at_ (mboards w) mboard; Ok (mk_obj (N.to_nat mboard) mboard_node).

(** [obj[key]], read. *)
Definition prop_get (o : wax_obj) (k : key) (w : world B) : result value :=
  match mboards w !! on_mboard o with
  | Some b => board_get b (at_node o) k
  | None => Throw out_of_range
  end.

(** [obj[key] = v] *)
Definition prop_set (o : wax_obj) (k : key) (v : value) : M B unit := fun w =>
  match mboards w !! on_mboard o with
  | Some b =>
      let '(r, b') := board_set (at_node o) k v b in
      (r, mk_world (dev_name w) (<[on_mboard o := b']> (mboards w)) (msgs w)
            (writes w ++ [(o, k, v)]))
  | None => (Throw out_of_range, w)
  end.

(** [obj[named_prop_t(k, name)]]: a link to the node below. *)
Definition child (o : wax_obj) (k : named_key) (name : string) : wax_obj :=
  mk_obj (on_mboard o) (named (at_node o) k name).

(** [UHD_MSG(...) << ...] *)
Definition UHD_MSG (m : message) : M B unit := fun w =>
  (Ok tt, mk_world (dev_name w) (mboards w) (msgs w ++ [m]) (writes w)).

(** *** Helper methods *)

Definition max_allowed_error : float := 1.0%float.

(** [do_samp_rate_warning_message] *)
Definition do_samp_rate_warning_message (target_rate actual_rate : float)
    (xx : string) : M B unit :=
  if PrimFloat.ltb max_allowed_error
       (PrimFloat.abs (PrimFloat.sub target_rate actual_rate))
  then UHD_MSG (samp_rate_warning xx (PrimFloat.div target_rate 1e6)
                  (PrimFloat.div actual_rate 1e6))
  else retM tt.

(** [do_tune_freq_warning_message] *)
Definition do_tune_freq_warning_message (target_freq actual_freq : float)
    (xx : string) : M B unit :=
  if PrimFloat.ltb max_allowed_error
       (PrimFloat.abs (PrimFloat.sub target_freq actual_freq))
  then UHD_MSG (tune_freq_warning xx (PrimFloat.div target_freq 1e6)
                  (PrimFloat.div actual_freq 1e6))
  else retM tt.

(** *** Loops *)

(** [for (size_t i = from; i < count(); i++) body(i);] with the bound read
    before every round.  [budget] bounds the number of rounds. *)
Fixpoint for_loop_from (budget : nat) (count : world B → result N)
    (body : N → M B unit) (i : N) : M B unit := fun w =>
  match count w with
  | Ok n =>
      if (i <? n)%N then
        match budget with
        | O => (OutOfFuel, w)
        | S budget =>
            match body i w with
            | (Ok _, w') => for_loop_from budget count body (i + 1) w'
            | (Throw e, w') => (Throw e, w')
            | (OutOfFuel, w') => (OutOfFuel, w')
            end
        end
      else (Ok tt, w)
  | Throw e => (Throw e, w)
  | OutOfFuel => (OutOfFuel, w)
  end.

(** The budget is the bound found on entry: enough for every loop whose
    body leaves the bound as it is. *)
Definition for_loop (from : N) (count : world B → result N)
    (body : N → M B unit) : M B unit := fun w =>
  match count w with
  | Ok n => for_loop_from (N.to_nat n) count body from w
  | Throw e => (Throw e, w)
  | OutOfFuel => (OutOfFuel, w)
  end.

(** The shape shared by the setters that take a board or a channel:
[[
    void f(..., size_t i){
        if (i != ALL){ one(i); return; }
        for (size_t k = 0; k < count(); k++) f(..., k);
    }
]]
    [depth] bounds the nesting of [f] in itself: a second level is entered
    only for [k = ALL], where the source would not return. *)
Fixpoint fan_out (depth : nat) (ALL : N) (count : world B → result N)
    (one : N → M B unit) (i : N) : M B unit :=
  if negb (i =? ALL)%N then one i
  else
    match depth with
    | O => fun w => (OutOfFuel, w)
    | S depth => for_loop 0 count (fan_out depth ALL count one)
    end.

(** *** Mboard methods *)

Definition num_mboards (w : world B) : result N := Ok (get_num_mboards w).

(** [_mboard(mboard)[key].as<T>()] and [_mboard(mboard)[key] = v] *)
Definition mboard_get (mboard : N) (k : key) (w : world B) : result value :=
  o ← _mboard mboard w; prop_get o k w.

Definition mboard_set (k : key) (v : value) (mboard : N) : M B unit :=
  o <- liftR (_mboard mboard); prop_set o k v.

Definition set_master_clock_rate (rate : float) (mboard : N) : M B unit :=
  fan_out 1 ALL_MBOARDS num_mboards
    (mboard_set MBOARD_PROP_CLOCK_RATE (VDouble rate)) mboard.

Definition get_master_clock_rate (mboard : N) (w : world B) : result float :=
  mboard_get mboard MBOARD_PROP_CLOCK_RATE w ≫= as_double.

Definition get_mboard_name (mboard : N) (w : world B) : result string :=
  mboard_get mboard MBOARD_PROP_NAME w ≫= as_string.

Definition get_time_now (mboard : N) (w : world B) : result time_spec_t :=
  mboard_get mboard MBOARD_PROP_TIME_NOW w ≫= as_time.

Definition get_time_last_pps (mboard : N) (w : world B) : result time_spec_t :=
  mboard_get mboard MBOARD_PROP_TIME_PPS w ≫= as_time.

Definition set_time_now (time_spec : time_spec_t) (mboard : N) : M B unit :=
  fan_out 1 ALL_MBOARDS num_mboards
    (mboard_set MBOARD_PROP_TIME_NOW (VTime time_spec)) mboard.

Definition set_time_next_pps (time_spec : time_spec_t) : M B unit :=
  for_loop 0 num_mboards (mboard_set MBOARD_PROP_TIME_PPS (VTime time_spec)).

Definition set_clock_config (clock_config : clock_config_t) (mboard : N)
  : M B unit :=
  fan_out 1 ALL_MBOARDS num_mboards
    (mboard_set MBOARD_PROP_CLOCK_CONFIG (VClockConfig clock_config)) mboard.

(** *** Subdevice specifications and the channel resolver *)

Definition subdev_spec_key (d : dir) : key :=
  match d with
  | RX => MBOARD_PROP_RX_SUBDEV_SPEC
  | TX => MBOARD_PROP_TX_SUBDEV_SPEC
  end.

Definition set_xx_subdev_spec (d : dir) (spec : subdev_spec_t) (mboard : N)
  : M B unit :=
  fan_out 1 ALL_MBOARDS num_mboards
    (mboard_set (subdev_spec_key d) (VSubdevSpec spec)) mboard.

Definition set_rx_subdev_spec := set_xx_subdev_spec RX.
Definition set_tx_subdev_spec := set_xx_subdev_spec TX.

Definition get_xx_subdev_spec (d : dir) (mboard : N) (w : world B)
  : result subdev_spec_t :=
  mboard_get mboard (subdev_spec_key d) w ≫= as_subdev_spec.

Definition get_rx_subdev_spec := get_xx_subdev_spec RX.
Definition get_tx_subdev_spec := get_xx_subdev_spec TX.

(** [get_rx_num_channels], [get_tx_num_channels]: the loop, from board [m]
    with [sum] so far. *)
Fixpoint get_xx_num_channels_from (budget : nat) (d : dir) (m sum : N)
    (w : world B) : result N :=
  if (m <? get_num_mboards w)%N then
    match budget with
    | O => OutOfFuel
    | S budget =>
        spec ← get_xx_subdev_spec d m w;
        get_xx_num_channels_from budget d (m + 1) (wrap (sum + size spec)) w
    end
  else Ok sum.

Definition get_xx_num_channels (d : dir) (w : world B) : result N :=
  get_xx_num_channels_from (length (mboards w)) d 0 0 w.

Definition get_rx_num_channels := get_xx_num_channels RX.
Definition get_tx_num_channels := get_xx_num_channels TX.

(** [rx_chan_to_mcp], [tx_chan_to_mcp]: the loop, entered at board [mboard]
    with [chan] left to place. *)
Fixpoint xx_chan_to_mcp_from (budget : nat) (d : dir) (mboard chan : N)
    (w : world B) : result mboard_chan_pair :=
  if (mboard <? get_num_mboards w)%N then
    match budget with
    | O => OutOfFuel
    | S budget =>
        spec ← get_xx_subdev_spec d mboard w;
        let sss := size spec in
        if (chan <? sss)%N then Ok (mk_mcp mboard chan)
        else xx_chan_to_mcp_from budget d (mboard + 1) (chan - sss) w
    end
  else Ok (mk_mcp mboard chan).

Definition xx_chan_to_mcp (d : dir) (chan : N) (w : world B)
  : result mboard_chan_pair :=
  xx_chan_to_mcp_from (length (mboards w)) d 0 chan w.

Definition rx_chan_to_mcp := xx_chan_to_mcp RX.
Definition tx_chan_to_mcp := xx_chan_to_mcp TX.

(** *** Nodes of a channel *)

Definition dsp_names_key (d : dir) : key :=
  match d with
  | RX => MBOARD_PROP_RX_DSP_NAMES
  | TX => MBOARD_PROP_TX_DSP_NAMES
  end.

Definition dsp_key (d : dir) : named_key :=
  match d with RX => MBOARD_PROP_RX_DSP | TX => MBOARD_PROP_TX_DSP end.

Definition dboard_key (d : dir) : named_key :=
  match d with RX => MBOARD_PROP_RX_DBOARD | TX => MBOARD_PROP_TX_DBOARD end.

(** [_rx_dsp], [_tx_dsp] *)
Definition _xx_dsp (d : dir) (chan : N) (w : world B) : result wax_obj :=
  mcp ← xx_chan_to_mcp d chan w;
  dsp_names ← mboard_get (mboard mcp) (dsp_names_key d) w ≫= as_names;
  mb ← _mboard (mboard mcp) w;
  dsp ← at_ dsp_names (multi_usrp.chan mcp);
  Ok (child mb (dsp_key d) dsp).

Definition _rx_dsp := _xx_dsp RX.
Definition _tx_dsp := _xx_dsp TX.

(** [_rx_dboard], [_tx_dboard] *)
Definition _xx_dboard (d : dir) (chan : N) (w : world B) : result wax_obj :=
  mcp ← xx_chan_to_mcp d chan w;
  spec ← get_xx_subdev_spec d (mboard mcp) w;
  pair ← at_ spec (multi_usrp.chan mcp);
  mb ← _mboard (mboard mcp) w;
  Ok (child mb (dboard_key d) (db_name pair)).

Definition _rx_dboard := _xx_dboard RX.
Definition _tx_dboard := _xx_dboard TX.

(** [_rx_subdev], [_tx_subdev] *)
Definition _xx_subdev (d : dir) (chan : N) (w : world B) : result wax_obj :=
  mcp ← xx_chan_to_mcp d chan w;
  spec ← get_xx_subdev_spec d (mboard mcp) w;
  pair ← at_ spec (multi_usrp.chan mcp);
  db ← _xx_dboard d chan w;
  Ok (child db DBOARD_PROP_SUBDEV (sd_name pair)).

Definition _rx_subdev := _xx_subdev RX.
Definition _tx_subdev := _xx_subdev TX.

(** *** Channel methods *)

(** [issue_stream_cmd] *)
Definition issue_stream_cmd (stream_cmd : stream_cmd_t) (chan : N) : M B unit :=
  fan_out 1 ALL_CHANS get_rx_num_channels
    (fun chan =>
       dsp <- liftR (_rx_dsp chan);
       prop_set dsp DSP_PROP_STREAM_CMD (VStreamCmd stream_cmd))
    chan.

(** [get_rx_rate], [get_tx_rate] *)
Definition get_xx_rate (d : dir) (chan : N) (w : world B) : result float :=
  dsp ← _xx_dsp d chan w; prop_get dsp DSP_PROP_HOST_RATE w ≫= as_double.

Definition get_rx_rate := get_xx_rate RX.
Definition get_tx_rate := get_xx_rate TX.

(** The branch of [set_rx_rate], [set_tx_rate] for one channel. *)
Definition set_xx_rate_chan (d : dir) (rate : float) (chan : N) : M B unit :=
  dsp <- liftR (_xx_dsp d chan);
  _ <- prop_set dsp DSP_PROP_HOST_RATE (VDouble rate);
  actual <- liftR (get_xx_rate d chan);
  do_samp_rate_warning_message rate actual (xx d).

(** [set_rx_rate], [set_tx_rate] *)
Definition set_xx_rate (d : dir) (rate : float) (chan : N) : M B unit :=
  fan_out 1 ALL_CHANS (get_xx_num_channels d) (set_xx_rate_chan d rate) chan.

Definition set_rx_rate := set_xx_rate RX.
Definition set_tx_rate := set_xx_rate TX.

(** *** Time synchronisation *)

(** The boards between two polls of the wait loop, and across the sleep. *)
Definition tick : M B unit := fun w =>
  (Ok tt, mk_world (dev_name w) (board_tick <$> mboards w) (msgs w) (writes w)).

Definition sleep_1s : M B unit := fun w =>
  (Ok tt, mk_world (dev_name w) (board_sleep <$> mboards w) (msgs w) (writes w)).

Definition no_pps_what : string :=
  "Board 0 may not be getting a PPS signal!" ++ nl ++
  "No PPS detected within the time interval." ++ nl ++
  "See the application notes for your device." ++ nl.

(** The [while(true)] of [set_time_unknown_pps]; every round costs one unit
    of [fuel], and the boards move on by one [board_tick] between rounds. *)
Fixpoint wait_for_pps (fuel : nat) (time_start time_start_last_pps : time_spec_t)
  : M B unit :=
  match fuel with
  | O => fun w => (OutOfFuel, w)
  | S fuel =>
      last_pps <- liftR (get_time_last_pps 0);
      if time_ne last_pps time_start_last_pps then retM tt
      else
        now <- liftR (get_time_now 0);
        if time_gt (time_sub now time_start) (time_spec_t_of_double 1.1)
        then throwM (runtime_error no_pps_what)
        else
          _ <- tick;
          wait_for_pps fuel time_start time_start_last_pps
  end.

(** The comparison of a board's time with that of board 0. *)
Definition deviates (time_0 time_i : time_spec_t) : bool :=
  time_lt time_i time_0
  || time_gt (time_sub time_i time_0) (time_spec_t_of_double 0.01).

(** One round of the verification loop of [set_time_unknown_pps]. *)
Definition verify_time (m : N) : M B unit :=
  time_0 <- liftR (fun w => mboard_get 0 MBOARD_PROP_TIME_NOW w ≫= as_time);
  time_i <- liftR (fun w => mboard_get m MBOARD_PROP_TIME_NOW w ≫= as_time);
  if deviates time_0 time_i
  then UHD_MSG (time_deviation_warning m time_0 time_i)
  else retM tt.

(** [set_time_unknown_pps] *)
Definition set_time_unknown_pps (fuel : nat) (time_spec : time_spec_t)
  : M B unit :=
  _ <- UHD_MSG (status "    1) catch time transition at pps edge");
  time_start <- liftR (get_time_now 0);
  time_start_last_pps <- liftR (get_time_last_pps 0);
  _ <- wait_for_pps fuel time_start time_start_last_pps;
  _ <- UHD_MSG (status "    2) set times next pps (synchronously)");
  _ <- set_time_next_pps time_spec;
  _ <- sleep_1s;
  for_loop 1 num_mboards verify_time.

(** [get_time_synchronized]: the loop, from board [m]. *)
Fixpoint get_time_synchronized_from (budget : nat) (m : N) (w : world B)
  : result bool :=
  if (m <? get_num_mboards w)%N then
    match budget with
    | O => OutOfFuel
    | S budget =>
        time_0 ← mboard_get 0 MBOARD_PROP_TIME_NOW w ≫= as_time;
        time_i ← mboard_get m MBOARD_PROP_TIME_NOW w ≫= as_time;
        if deviates time_0 time_i then Ok false
        else get_time_synchronized_from budget (m + 1) w
    end
  else Ok true.

Definition get_time_synchronized (w : world B) : result bool :=
  get_time_synchronized_from (length (mboards w)) 1 w.

(** *** [get_pp_string] *)

(** The body of the channel loops: the three names of channel [chan]. *)
Definition pp_channel_item (d : dir) (chan : N) (w : world B) : result pp_item :=
  dsp ← _xx_dsp d chan w;
  dsp_name ← prop_get dsp DSP_PROP_NAME w ≫= as_string;
  db ← _xx_dboard d chan w;
  dboard_name ← prop_get db DBOARD_PROP_NAME w ≫= as_string;
  sd ← _xx_subdev d chan w;
  subdev_name ← prop_get sd SUBDEV_PROP_NAME w ≫= as_string;
  Ok (pp_channel d chan dsp_name dboard_name subdev_name).

(** [for (; chan < (m + 1)*get_rx_subdev_spec(m).size(); chan++)] *)
Fixpoint pp_chan_loop (budget : nat) (d : dir) (m chan : N)
    (buff : list pp_item) (w : world B) : result (N * list pp_item) :=
  spec ← get_xx_subdev_spec d m w;
  if (chan <? wrap ((m + 1) * size spec))%N then
    match budget with
    | O => OutOfFuel
    | S budget =>
        item ← pp_channel_item d chan w;
        pp_chan_loop budget d m (chan + 1) (buff ++ [item]) w
    end
  else Ok (chan, buff).

(** A bound on the rounds of the loop above for board [m]. *)
Definition pp_budget (d : dir) (m : N) (w : world B) : nat :=
  match get_xx_subdev_spec d m w with
  | Ok spec => N.to_nat (wrap ((m + 1) * size spec))
  | _ => O
  end.

(** [for (size_t m = 0, chan = 0; m < get_num_mboards(); m++)] *)
Fixpoint pp_xx_loop (budget : nat) (d : dir) (m chan : N)
    (buff : list pp_item) (w : world B) : result (list pp_item) :=
  if (m <? get_num_mboards w)%N then
    match budget with
    | O => OutOfFuel
    | S budget =>
        '(chan, buff) ← pp_chan_loop (pp_budget d m w) d m chan buff w;
        pp_xx_loop budget d (m + 1) chan buff w
    end
  else Ok buff.

(** The loop over the boards that lists their names. *)
Fixpoint pp_mboard_loop (budget : nat) (m : N) (buff : list pp_item)
    (w : world B) : result (list pp_item) :=
  if (m <? get_num_mboards w)%N then
    match budget with
    | O => OutOfFuel
    | S budget =>
        name ← mboard_get m MBOARD_PROP_NAME w ≫= as_string;
        pp_mboard_loop budget (m + 1) (buff ++ [pp_mboard m name]) w
    end
  else Ok buff.

(** [get_pp_string]; the buffer is the list of the pieces appended to it. *)
Definition get_pp_string (w : world B) : result (list pp_item) :=
  let n := length (mboards w) in
  let buff := [pp_header (1 <? get_num_mboards w)%N (dev_name w)] in
  buff ← pp_mboard_loop n 0 buff w;
  buff ← pp_xx_loop n RX 0 0 buff w;
  pp_xx_loop n TX 0 0 buff w.
End facade.

(** *** What the statements below speak of *)

(** The channel count of a run of boards. *)
Definition sum_sizes (sizes : list N) : N := foldr N.add 0%N sizes.

(** The boards of [w] report subdevice specifications of these sizes. *)
Definition spec_sizes {B : Type} `{!Board B} (d : dir) (w : world B)
    (sizes : list N) : Prop :=
  Forall2
    (λ b s, ∃ spec,
       board_get b mboard_node (subdev_spec_key d) = Ok (VSubdevSpec spec)
       ∧ size spec = s)
    (mboards w) sizes.

(** [k] calls in a row, [body from], [body (from + 1)], ..., up to the first
    one that does not return. *)
Fixpoint sequentially {B : Type} (body : N → M B unit) (from : N) (k : nat)
  : M B unit :=
  match k with
  | O => retM tt
  | S k => _ <- body from; sequentially body (from + 1) k
  end.

(** What it is for [setter] to fan out over [count] indices from [w]: with
    the sentinel it does what the [n] calls for [0], ..., [n - 1] do in a row;
    so if the calls for [0], ..., [k - 1] return and the call for [k] raises,
    the call with the sentinel raises the same exception and leaves the world
    that call left. *)
Definition fans_out {B : Type} (ALL : N) (setter : N → M B unit)
    (count : world B → result N) (w : world B) : Prop :=
  ∀ n, count w = Ok n → (n ≤ ALL)%N →
    setter ALL w = sequentially setter 0 (N.to_nat n) w
    ∧ ∀ (k : nat) wk e w',
        (k < N.to_nat n)%nat →
        sequentially setter 0 k w = (Ok tt, wk) →
        setter (N.of_nat k) wk = (Throw e, w') →
        setter ALL w = (Throw e, w').

(** What a fan-out over the boards leaves when the call for board [k] is the
    first to raise: the writes made are those to the boards [0], ..., [k], in
    that order, and every board after [k] is as it was. *)
Definition leaves_rest {B : Type} (setter : N → M B unit) (k' : key)
    (v : value) (w : world B) : Prop :=
  ∀ (k : nat) wk e w',
    (N.of_nat (length (mboards w)) ≤ ALL_MBOARDS)%N →
    (k < length (mboards w))%nat →
    sequentially setter 0 k w = (Ok tt, wk) →
    setter (N.of_nat k) wk = (Throw e, w') →
    writes w' = writes w ++ ((λ i, (mk_obj i mboard_node, k', v)) <$> seq 0 (S k))
    ∧ ∀ j : nat, (k < j)%nat → mboards w' !! j = mboards w !! j.

(** A write to a node below a motherboard leaves the subdevice
    specifications that the motherboard reports. *)
Definition writes_keep_specs (B : Type) `{!Board B} : Prop :=
  ∀ (b : B) parent nk name k v d,
    board_get (board_set (named parent nk name) k v b).2 mboard_node
      (subdev_spec_key d)
    = board_get b mboard_node (subdev_spec_key d).

(** The channels listed in a buffer of [get_pp_string], in its order. *)
Definition pp_channels (buff : list pp_item) : list (dir * N) :=
  omap (λ item, match item with
                | pp_channel d chan _ _ _ => Some (d, chan)
                | _ => None
                end) buff.

(** The channels [from], ..., [from + k - 1] of a direction. *)
Definition channels (d : dir) (from k : nat) : list (dir * N) :=
  (λ c, (d, N.of_nat c)) <$> seq from k.

(** "The achieved value differs from the target by more than 1.0", in the
    double arithmetic of the source. *)
Definition out_of_tolerance (target actual : float) : bool :=
  PrimFloat.ltb 1.0 (PrimFloat.abs (PrimFloat.sub target actual)).

(** The boards of [w] report these times as their "now". *)
Definition now_times {B : Type} `{!Board B} (w : world B)
    (times : list time_spec_t) : Prop :=
  Forall2
    (λ b t, board_get b mboard_node MBOARD_PROP_TIME_NOW = Ok (VTime t))
    (mboards w) times.

(** The world after [k] rounds of the wait loop have gone by. *)
Fixpoint elapsed {B : Type} `{!Board B} (k : nat) (w : world B) : world B :=
  match k with
  | O => w
  | S k => elapsed k (tick w).2
  end.

(** The resolver on the sizes alone, entered at board [m]. *)
Fixpoint locate (m chan : N) (sizes : list N) : mboard_chan_pair :=
  match sizes with
  | [] => mk_mcp m chan
  | s :: sizes =>
      if (chan <? s)%N then mk_mcp m chan
      else locate (m + 1) (chan - s) sizes
  end.
End multi_usrp.

(** ** Reference instances

    A driver, a set of built-in boards and a simulated motherboard, on which
    the definitions above run: the inputs of the examples below. *)

Module sim.
Import dboard multi_usrp.

(** *** Daughterboards *)

Inductive ctor := sim_basic_tx_make | sim_basic_rx_make | sim_xcvr_make.

#[export] Instance ctor_eq : EqDecision ctor.
Proof. solve_decision. Defined.

(** A driver object: who made it, for which subdevice, and one bank of
    registers that its rx and tx handlers both serve. *)
Record driver := mk_driver {
  made_by : ctor;
  made_for : string;
  regs : list (string * Z)
}.

#[export] Instance driver_base : Base driver string Z := {
  rx_get key inst := default 0%Z (dict.get (regs inst) key);
  rx_set key val inst :=
    mk_driver (made_by inst) (made_for inst) (dict.set key val (regs inst));
  tx_get key inst := default 0%Z (dict.get (regs inst) key);
  tx_set key val inst :=
    mk_driver (made_by inst) (made_for inst) (dict.set key val (regs inst))
}.

#[export] Instance stock : Dboards ctor driver := {
  construct c args := mk_driver c args.1 [];
  ID_NONE := 0xffff%N;
  ID_BASIC_TX := 0x0000%N;
  ID_BASIC_RX := 0x0001%N;
  basic_tx_make := sim_basic_tx_make;
  basic_rx_make := sim_basic_rx_make
}.

(** *** Motherboards *)

#[export] Instance key_eq : EqDecision key.
Proof. solve_decision. Defined.

#[export] Instance named_key_eq : EqDecision named_key.
Proof. solve_decision. Defined.

#[export] Instance node_eq : EqDecision node.
Proof. solve_decision. Defined.

(** A simulated motherboard: its fixed names and DSPs, its subdevice
    specifications, a clock and a PPS capture register that follow the
    number of ticks, what it does with a write ([sim_accept]: the value it
    stores, or the error it raises), and the values written so far. *)
Record board := mk_board {
  sim_name : string;
  sim_rx_spec : subdev_spec_t;
  sim_tx_spec : subdev_spec_t;
  sim_rx_dsps : list string;
  sim_tx_dsps : list string;
  sim_now : nat → time_spec_t;
  sim_last_pps : nat → time_spec_t;
  sim_accept : node → key → value → result value;
  sim_ticks : nat;
  sim_written : list (node * key * value)
}.

(** What the board reports for a property nobody wrote. *)
Definition rom (b : board) (n : node) (k : key) : result value :=
  match n, k with
  | mboard_node, MBOARD_PROP_NAME => Ok (VString (sim_name b))
  | mboard_node, MBOARD_PROP_CLOCK_RATE => Ok (VDouble 100e6)
  | mboard_node, MBOARD_PROP_TIME_NOW => Ok (VTime (sim_now b (sim_ticks b)))
  | mboard_node, MBOARD_PROP_TIME_PPS => Ok (VTime (sim_last_pps b (sim_ticks b)))
  | mboard_node, MBOARD_PROP_RX_SUBDEV_SPEC => Ok (VSubdevSpec (sim_rx_spec b))
  | mboard_node, MBOARD_PROP_TX_SUBDEV_SPEC => Ok (VSubdevSpec (sim_tx_spec b))
  | mboard_node, MBOARD_PROP_RX_DSP_NAMES => Ok (VNames (sim_rx_dsps b))
  | mboard_node, MBOARD_PROP_TX_DSP_NAMES => Ok (VNames (sim_tx_dsps b))
  | named mboard_node (MBOARD_PROP_RX_DSP | MBOARD_PROP_TX_DSP) dsp, DSP_PROP_NAME =>
      Ok (VString dsp)
  | named mboard_node (MBOARD_PROP_RX_DSP | MBOARD_PROP_TX_DSP) _, DSP_PROP_HOST_RATE =>
      Ok (VDouble 0)
  | named mboard_node (MBOARD_PROP_RX_DBOARD | MBOARD_PROP_TX_DBOARD) db, DBOARD_PROP_NAME =>
      Ok (VString db)
  | named (named mboard_node (MBOARD_PROP_RX_DBOARD | MBOARD_PROP_TX_DBOARD) _)
      DBOARD_PROP_SUBDEV sd, SUBDEV_PROP_NAME =>
      Ok (VString sd)
  | _, _ => Throw (device_error 1)
  end.

(** The clock and the PPS capture register are read from the hardware. *)
Definition volatile (n : node) (k : key) : bool :=
  match n, k with
  | mboard_node, (MBOARD_PROP_TIME_NOW | MBOARD_PROP_TIME_PPS) => true
  | _, _ => false
  end.

Definition sim_get (b : board) (n : node) (k : key) : result value :=
  if volatile n k then rom b n k
  else
    match dict.get (sim_written b) (n, k) with
    | Some v => Ok v
    | None => rom b n k
    end.

Definition with_state (b : board) (ticks : nat)
    (written : list (node * key * value)) : board :=
  mk_board (sim_name b) (sim_rx_spec b) (sim_tx_spec b) (sim_rx_dsps b)
    (sim_tx_dsps b) (sim_now b) (sim_last_pps b) (sim_accept b) ticks written.

Definition sim_set (n : node) (k : key) (v : value) (b : board)
  : result unit * board :=
  match sim_accept b n k v with
  | Ok v' => (Ok tt, with_state b (sim_ticks b) (dict.set (n, k) v' (sim_written b)))
  | Throw e => (Throw e, b)
  | OutOfFuel => (OutOfFuel, b)
  end.

#[export] Instance sim_board : Board board := {
  board_get := sim_get;
  board_set := sim_set;
  board_tick b := with_state b (S (sim_ticks b)) (sim_written b);
  board_sleep b := with_state b (sim_ticks b + 1000) (sim_written b)
}.

(** A board that stores what it is given, whose clock gains [step] seconds a
    tick from [start], and whose PPS capture register stays at [0]. *)
Definition plain_board (name : string) (rx_spec tx_spec : subdev_spec_t)
    (rx_dsps tx_dsps : list string) (start step : Q) : board :=
  mk_board name rx_spec tx_spec rx_dsps tx_dsps
    (fun t => (start + inject_Z (Z.of_nat t) * step)%Q)
    (fun _ => 0%Q)
    (fun _ _ v => Ok v)
    0 [].

Definition sd (db sd : string) : subdev_spec_pair_t := mk_pair db sd.

Definition device (boards : list board) : world board :=
  mk_world "sim" boards [] [].

(** Three boards with 2, 3 and 1 RX channels (and one TX channel each). *)
Definition boards_2_3_1 : world board :=
  device
    [ plain_board "mb0" [sd "A" "0"; sd "B" "0"] [sd "A" "0"]
        ["dsp0"; "dsp1"] ["dsp0"] 0 (1 # 2);
      plain_board "mb1" [sd "A" "0"; sd "A" "1"; sd "B" "0"] [sd "A" "0"]
        ["dsp0"; "dsp1"; "dsp2"] ["dsp0"] 0 (1 # 2);
      plain_board "mb2" [sd "A" "0"] [sd "A" "0"]
        ["dsp0"] ["dsp0"] 0 (1 # 2) ].

(** Two boards with two RX channels and one TX channel each. *)
Definition boards_2_2 : world board :=
  device
    [ plain_board "mb0" [sd "A" "0"; sd "B" "0"] [sd "A" "0"]
        ["dsp0"; "dsp1"] ["dsp0"] 0 (1 # 2);
      plain_board "mb1" [sd "A" "0"; sd "B" "0"] [sd "A" "0"]
        ["dsp0"; "dsp1"] ["dsp0"] 0 (1 # 2) ].

(** Two boards with one and two RX channels. *)
Definition boards_1_2 : world board :=
  device
    [ plain_board "mb0" [sd "A" "0"] [sd "A" "0"] ["dsp0"] ["dsp0"] 0 (1 # 2);
      plain_board "mb1" [sd "A" "0"; sd "B" "0"] [sd "A" "0"]
        ["dsp0"; "dsp1"] ["dsp0"] 0 (1 # 2) ].

(** A board like [plain_board] that refuses a new clock rate. *)
Definition locked_board (name : string) : board :=
  mk_board name [sd "A" "0"] [sd "A" "0"] ["dsp0"] ["dsp0"]
    (fun _ => 0%Q) (fun _ => 0%Q)
    (fun n k v =>
       match k with
       | MBOARD_PROP_CLOCK_RATE => Throw (device_error 7)
       | _ => Ok v
       end)
    0 [].

(** Three boards, the second of which refuses a new clock rate. *)
Definition boards_locked : world board :=
  device
    [ plain_board "mb0" [sd "A" "0"] [sd "A" "0"] ["dsp0"] ["dsp0"] 0 0;
      locked_board "mb1";
      plain_board "mb2" [sd "A" "0"] [sd "A" "0"] ["dsp0"] ["dsp0"] 0 0 ].

(** A board whose DSPs settle at the rate [actual], whatever rate they are
    given. *)
Definition tuned_board (actual : float) : board :=
  mk_board "mb0" [sd "A" "0"] [sd "A" "0"] ["dsp0"] ["dsp0"]
    (fun _ => 0%Q) (fun _ => 0%Q)
    (fun n k v =>
       match k with
       | DSP_PROP_HOST_RATE => Ok (VDouble actual)
       | _ => Ok v
       end)
    0 [].

(** A board whose clock reads 0 at first and stands at the instant [late]
    from the first poll on, and whose PPS capture register stays at 0. *)
Definition stalled_board (name : string) (late : Q) : board :=
  mk_board name [sd "A" "0"] [sd "A" "0"] ["dsp0"] ["dsp0"]
    (fun t => match t with O => 0%Q | S _ => late end)
    (fun _ => 0%Q)
    (fun _ _ v => Ok v)
    0 [].

(** One such board, whose clock stands at the instant [time_spec_t(1.1)]. *)
Definition boards_stalled : world board :=
  device [stalled_board "mb0" (time_spec_t_of_double 1.1)].

(** Boards whose clocks stand at the given times. *)
Definition clocks (times : list Q) : world board :=
  device
    (map (fun t => plain_board "mb" [sd "A" "0"] [sd "A" "0"] ["dsp0"] ["dsp0"] t 0)
       times).
End sim.

(** ** Further definitions

    What the statements of the second part of the lemmas speak of, and
    further inputs for them. *)

Module more.
Import dboard multi_usrp.

(** *** Daughterboards *)

(** The proxy map a loop of [manager::manager] leaves: the names are filed
    one after the other, each with a proxy of direction [t] on the next
    driver object, the first of which is at [off]. *)
Fixpoint fill (t : type_t) (off : nat) (names : list string)
    (d : list (string * subdev_proxy)) : list (string * subdev_proxy) :=
  match names with
  | [] => d
  | name :: names => fill t (S off) names (dict.set name (mk_proxy off t) d)
  end.

(** Every identity code that is filed has the names of its constructor
    filed. *)
Definition names_filed {ctor_t : Type} `{EqDecision ctor_t}
    (r : registry ctor_t) : Prop :=
  ∀ id c,
    dict.get (id_to_ctor_map r) id = Some c →
    dict.has_key (ctor_to_names_map r) c = true.

(** The built-in identity codes. *)
Definition built_in {ctor_t Inst : Type} `{!Dboards ctor_t Inst}
    (id : dboard_id_t) : Prop :=
  id = ID_NONE ∨ id = ID_BASIC_TX ∨ id = ID_BASIC_RX.
(** The manager [manager::manager] builds for an RX code that resolves to
    [(rc, rnames)] and a TX code that resolves to [(tc, tnames)], in closed
    form (see [manager_new_built]). *)
Definition built {ctor_t Inst : Type} `{!Dboards ctor_t Inst}
    (iface : interface_sptr) (rc : ctor_t) (rnames : prop_names_t)
    (tc : ctor_t) (tnames : prop_names_t) : manager Inst :=
  if decide (rc = tc) then
    mk_manager gpio_init
      (map (λ name, construct rc (name, iface)) rnames)
      (fill RX_TYPE 0 rnames []) (fill TX_TYPE 0 rnames [])
  else
    mk_manager gpio_init
      (map (λ name, construct rc (name, iface)) rnames
       ++ map (λ name, construct tc (name, iface)) tnames)
      (fill RX_TYPE 0 rnames []) (fill TX_TYPE (length rnames) tnames []).

(** *** The facade *)

Section facade.
Context {B : Type} `{!Board B}.

(** [get_rx_subdev_name], [get_tx_subdev_name] *)
Definition get_xx_subdev_name (d : dir) (chan : N) (w : world B)
  : result string :=
  sd ← _xx_subdev d chan w; prop_get sd SUBDEV_PROP_NAME w ≫= as_string.

Definition get_rx_subdev_name := get_xx_subdev_name RX.
Definition get_tx_subdev_name := get_xx_subdev_name TX.

(** The boards of [w] report these subdevice specifications. *)
Definition spec_lists (d : dir) (w : world B) (specs : list subdev_spec_t)
  : Prop :=
  Forall2
    (λ b spec,
       board_get b mboard_node (subdev_spec_key d) = Ok (VSubdevSpec spec))
    (mboards w) specs.

(** The boards of [w] report these DSP names. *)
Definition dsp_lists (d : dir) (w : world B) (dsps : list (list string))
  : Prop :=
  Forall2
    (λ b names, board_get b mboard_node (dsp_names_key d) = Ok (VNames names))
    (mboards w) dsps.
End facade.

(** The nodes of the daughterboard and of the subdevice that an entry of a
    subdevice specification names, and the node of a DSP. *)
Definition dboard_node (d : dir) (pair : subdev_spec_pair_t) : node :=
  named mboard_node (dboard_key d) (db_name pair).

Definition subdev_node (d : dir) (pair : subdev_spec_pair_t) : node :=
  named (dboard_node d pair) DBOARD_PROP_SUBDEV (sd_name pair).

Definition dsp_node (d : dir) (dsp : string) : node :=
  named mboard_node (dsp_key d) dsp.

(** The warnings that the verification loop of [set_time_unknown_pps] sends
    for the boards [m], [m + 1], ..., whose times are [ts], against the time
    [time_0] of board 0. *)
Fixpoint deviation_warnings (time_0 : time_spec_t) (m : nat)
    (ts : list time_spec_t) : list message :=
  match ts with
  | [] => []
  | time_i :: ts =>
      (if deviates time_0 time_i
       then [time_deviation_warning (N.of_nat m) time_0 time_i]
       else [])
      ++ deviation_warnings time_0 (S m) ts
  end.

(** The bound that the channel loops of [get_pp_string] reach over the
    boards [m], [m + 1], ... of sizes [ss]: the largest of the bounds
    [(m + 1) * s] of the inner loop. *)
Fixpoint pp_bound (m : nat) (ss : list nat) : nat :=
  match ss with
  | [] => 0
  | s :: ss => Nat.max ((m + 1) * s) (pp_bound (S m) ss)
  end.

(** The lines of [get_pp_string] for the boards [m], [m + 1], ... of these
    names. *)
Fixpoint pp_mboards (m : nat) (names : list string) : list pp_item :=
  match names with
  | [] => []
  | name :: names => pp_mboard (N.of_nat m) name :: pp_mboards (S m) names
  end.

Definition is_pp_channel (item : pp_item) : bool :=
  match item with pp_channel _ _ _ _ _ => true | _ => false end.

(** *** Further inputs *)

(** A board that stores what it is given, whose clock stands at [now], and
    whose PPS capture register jumps from 0 to 1 at the tick [edge]. *)
Definition pps_board (name : string) (now : Q) (edge : nat) : sim.board :=
  sim.mk_board name [sim.sd "A" "0"] [sim.sd "A" "0"] ["dsp0"] ["dsp0"]
    (fun _ => now)
    (fun t => if (t <? edge)%nat then 0%Q else 1%Q)
    (fun _ _ v => Ok v)
    0 [].

(** Two such boards, the second of which is five seconds ahead. *)
Definition boards_pps : world sim.board :=
  sim.device [pps_board "mb0" 0 3; pps_board "mb1" 5 3].

(** A board like [sim.plain_board] that refuses a new time at the next
    PPS. *)
Definition pps_locked_board (name : string) : sim.board :=
  sim.mk_board name [sim.sd "A" "0"] [sim.sd "A" "0"] ["dsp0"] ["dsp0"]
    (fun _ => 0%Q) (fun _ => 0%Q)
    (fun n k v =>
       match k with
       | MBOARD_PROP_TIME_PPS => Throw (device_error 9)
       | _ => Ok v
       end)
    0 [].

(** Three boards, the second of which refuses a new time at the next PPS. *)
Definition boards_pps_locked : world sim.board :=
  sim.device
    [ sim.plain_board "mb0" [sim.sd "A" "0"] [sim.sd "A" "0"] ["dsp0"] ["dsp0"] 0 0;
      pps_locked_board "mb1";
      sim.plain_board "mb2" [sim.sd "A" "0"] [sim.sd "A" "0"] ["dsp0"] ["dsp0"] 0 0 ].

(** A board like [sim.plain_board] whose DSPs refuse a new rate. *)
Definition rate_locked_board (name : string) : sim.board :=
  sim.mk_board name [sim.sd "A" "0"] [sim.sd "A" "0"] ["dsp0"] ["dsp0"]
    (fun _ => 0%Q) (fun _ => 0%Q)
    (fun n k v =>
       match k with
       | DSP_PROP_HOST_RATE => Throw (device_error 3)
       | _ => Ok v
       end)
    0 [].

(** Two boards with two and one RX channels (and one TX channel each). *)
Definition boards_2_1 : world sim.board :=
  sim.device
    [ sim.plain_board "mb0" [sim.sd "A" "0"; sim.sd "B" "0"] [sim.sd "A" "0"]
        ["dsp0"; "dsp1"] ["dsp0"] 0 0;
      sim.plain_board "mb1" [sim.sd "A" "0"] [sim.sd "A" "0"]
        ["dsp0"] ["dsp0"] 0 0 ].
End more.

(** * Lemmas and theorems *)

(** ** Facts about [uhd::dict] *)

Module dict_facts.
Section facts.
Context {K V : Type} `{EqDecision K}.
Implicit Types (d : list (K * V)) (k : K) (v : V).

Lemma get_set_eq k v d : dict.get (dict.set k v d) k = Some v.
Proof.
  induction d as [|[k0 v0] d IH]; simpl.
  - destruct (decide (k = k)); congruence.
  - destruct (decide (k0 = k)) as [E|N]; simpl.
    + destruct (decide (k0 = k)); congruence.
    + destruct (decide (k0 = k)); [congruence | exact IH].
Qed.

Lemma get_set_ne k k' v d : k ≠ k' → dict.get (dict.set k v d) k' = dict.get d k'.
Proof.
  intros Hne. induction d as [|[k0 v0] d IH]; simpl.
  - destruct (decide (k = k')); congruence.
  - destruct (decide (k0 = k)) as [E|N]; simpl.
    + subst. destruct (decide (k = k')); congruence.
    + destruct (decide (k0 = k')); [reflexivity | exact IH].
Qed.

Lemma get_keys_set k v d :
  dict.get_keys (dict.set k v d)
  = if dict.has_key d k then dict.get_keys d else dict.get_keys d ++ [k].
Proof.
  unfold dict.has_key. induction d as [|[k0 v0] d IH]; simpl; [reflexivity|].
  destruct (decide (k0 = k)) as [E|N]; simpl; [reflexivity|].
  rewrite IH. destruct (dict.get d k); reflexivity.
Qed.

Lemma has_key_elem_of d k : dict.has_key d k = true ↔ k ∈ dict.get_keys d.
Proof.
  unfold dict.has_key. induction d as [|[k0 v0] d IH]; simpl.
  - split; [discriminate | intros H'; inversion H'].
  - destruct (decide (k0 = k)) as [E|N].
    + subst. split; [intros _; left | reflexivity].
    + rewrite IH. split; [intros H'; right; exact H'|].
      intros H'. inversion H'; subst; [congruence | assumption].
Qed.

(** A key is never filed twice. *)
Lemma NoDup_set k v d :
  NoDup (dict.get_keys d) → NoDup (dict.get_keys (dict.set k v d)).
Proof.
  intros Hnd. rewrite get_keys_set.
  destruct (dict.has_key d k) eqn:E; [exact Hnd|].
  apply NoDup_app. split; [exact Hnd|]. split.
  - intros x Hx Hx'. apply list_elem_of_singleton in Hx'. subst.
    apply has_key_elem_of in Hx. congruence.
  - apply NoDup_singleton.
Qed.

(** Keys are only ever added. *)
Lemma has_key_set_mono k v d k' :
  dict.has_key d k' = true → dict.has_key (dict.set k v d) k' = true.
Proof.
  unfold dict.has_key. destruct (decide (k = k')) as [->|N].
  - rewrite get_set_eq. reflexivity.
  - rewrite get_set_ne by exact N. auto.
Qed.

Lemma has_key_set k v d : dict.has_key (dict.set k v d) k = true.
Proof. unfold dict.has_key. rewrite get_set_eq. reflexivity. Qed.

Lemma get_app_Some d d' k v :
  dict.get d k = Some v → dict.get (d ++ d') k = Some v.
Proof.
  induction d as [|[k0 v0] d IH]; simpl; [discriminate|].
  destruct (decide (k0 = k)); auto.
Qed.

Lemma index_Some dflt k d v : dict.get d k = Some v → dict.index dflt k d = (v, d).
Proof. unfold dict.index. intros ->. reflexivity. Qed.

(** Reading through [operator[]] never changes what a filed key holds. *)
Lemma get_index dflt k d k' v :
  dict.get d k' = Some v → dict.get (dict.index dflt k d).2 k' = Some v.
Proof.
  unfold dict.index. destruct (dict.get d k); simpl; [auto|].
  apply get_app_Some.
Qed.

Lemma get_keys_index dflt k d k' :
  k' ∈ dict.get_keys d → k' ∈ dict.get_keys (dict.index dflt k d).2.
Proof.
  unfold dict.index, dict.get_keys. destruct (dict.get d k); simpl; [auto|].
  rewrite map_app. intros. apply elem_of_app. by left.
Qed.

Lemma NoDup_index dflt k d :
  NoDup (dict.get_keys d) → NoDup (dict.get_keys (dict.index dflt k d).2).
Proof.
  unfold dict.index. destruct (dict.get d k) eqn:E; simpl; [auto|].
  intros Hnd. unfold dict.get_keys. rewrite map_app. simpl.
  apply NoDup_app. split; [exact Hnd|]. split.
  - intros x Hx Hx'. apply list_elem_of_singleton in Hx'. subst.
    apply has_key_elem_of in Hx. unfold dict.has_key in Hx.
    rewrite E in Hx. discriminate.
  - apply NoDup_singleton.
Qed.

End facts.
End dict_facts.

(** ** The registry *)

Module dboard_facts.
Import dboard dict_facts.

Section registry.
Context {ctor_t Inst : Type} `{!Dboards ctor_t Inst}.
Implicit Types (r : registry ctor_t) (c : ctor_t) (id : dboard_id_t).

Lemma called_store_subdevs id c names r :
  called (store_subdevs id c names r) = called r.
Proof. reflexivity. Qed.

Lemma register_internal_dboards_called r :
  called (register_internal_dboards r) = true.
Proof.
  unfold register_internal_dboards. destruct (called r) eqn:E; [exact E|].
  reflexivity.
Qed.

(** Once the latch is set the function returns at once. *)
Lemma register_internal_dboards_latched r :
  called r = true → register_internal_dboards r = r.
Proof. unfold register_internal_dboards. intros ->. reflexivity. Qed.

(** The source form of [register_internal_dboards]: the four registrations
    are calls of [register_subdevs]. *)
Lemma register_internal_dboards_unfold r :
  register_internal_dboards r =
  if called r then r
  else
    register_subdevs ID_BASIC_RX basic_rx_make ["a"; "b"; "ab"]
      (register_subdevs ID_BASIC_TX basic_tx_make [""]
         (register_subdevs ID_NONE basic_rx_make ["ab"]
            (register_subdevs ID_NONE basic_tx_make [""]
               (mk_registry true (id_to_ctor_map r) (ctor_to_names_map r))))).
Proof.
  unfold register_internal_dboards at 1. destruct (called r); [reflexivity|].
  unfold register_subdevs.
  rewrite !register_internal_dboards_latched; reflexivity.
Qed.

Lemma register_subdevs_called id c names r :
  called (register_subdevs id c names r) = true.
Proof. apply register_internal_dboards_called. Qed.

Lemma no_duplicates_store id c names r :
  no_duplicates r → no_duplicates (store_subdevs id c names r).
Proof. intros [H1 H2]. split; simpl; by apply NoDup_set. Qed.

Lemma no_duplicates_seed r :
  no_duplicates r → no_duplicates (register_internal_dboards r).
Proof.
  intros Hr. unfold register_internal_dboards. destruct (called r); [exact Hr|].
  destruct Hr as [H1 H2]. do 4 apply no_duplicates_store. by split.
Qed.

Lemma reachable_no_duplicates r : reachable r → no_duplicates r.
Proof.
  induction 1 as [|r _ IH|r id c names _ IH|r c _ IH].
  - split; apply NoDup_nil_2.
  - by apply no_duplicates_seed.
  - by apply no_duplicates_store, no_duplicates_seed.
  - destruct IH as [H1 H2]. split; simpl; [exact H1|]. by apply NoDup_index.
Qed.

(** What a registration leaves behind. *)
Lemma resolve_store id c names r :
  resolve id (store_subdevs id c names r) = Some (c, names).
Proof. unfold resolve. simpl. by rewrite !get_set_eq. Qed.

Lemma get_dboard_ctor_store id xx_type c names r :
  get_dboard_ctor id xx_type (store_subdevs id c names r) = Ok c.
Proof. unfold get_dboard_ctor. simpl. by rewrite get_set_eq. Qed.

(** Identity codes are only ever added. *)
Lemma has_key_store id c names r id' :
  dict.has_key (id_to_ctor_map r) id' = true →
  dict.has_key (id_to_ctor_map (store_subdevs id c names r)) id' = true.
Proof. apply has_key_set_mono. Qed.

Lemma has_key_seed r id' :
  dict.has_key (id_to_ctor_map r) id' = true →
  dict.has_key (id_to_ctor_map (register_internal_dboards r)) id' = true.
Proof.
  intros Hk. unfold register_internal_dboards. destruct (called r); [exact Hk|].
  by do 4 apply has_key_store.
Qed.

Lemma has_key_register id c names r id' :
  dict.has_key (id_to_ctor_map r) id' = true →
  dict.has_key (id_to_ctor_map (register_subdevs id c names r)) id' = true.
Proof. intros. by apply has_key_store, has_key_seed. Qed.
End registry.

Section manager.
Context {ctor_t Inst Key Val : Type} `{!Dboards ctor_t Inst} `{!Base Inst Key Val}.
Implicit Types (r : registry ctor_t) (c : ctor_t) (id : dboard_id_t).
Implicit Types (m : manager Inst).

(** The registry a constructor leaves: the statics after seeding, with at
    most an empty name list filed for a constructor that had none. *)
Lemma manager_new_registry rx_id tx_id iface r :
  let r0 := register_internal_dboards r in
  called (manager_new rx_id tx_id iface r).2 = true
  ∧ id_to_ctor_map (manager_new rx_id tx_id iface r).2 = id_to_ctor_map r0
  ∧ ∀ c names, dict.get (ctor_to_names_map r0) c = Some names →
      dict.get (ctor_to_names_map (manager_new rx_id tx_id iface r).2) c = Some names.
Proof.
  intros r0. unfold manager_new. fold r0.
  pose proof (register_internal_dboards_called r) as Hc. fold r0 in Hc.
  destruct (get_dboard_ctor rx_id "rx" r0) as [rc| |]; simpl; [|by auto..].
  destruct (get_dboard_ctor tx_id "tx" r0) as [tc| |]; simpl; [|by auto..].
  destruct (decide (rc = tc)).
  - destruct (dict.index [] rc (ctor_to_names_map r0)) as [ns c2n] eqn:E.
    simpl. repeat split; auto. intros c names Hget.
    change c2n with (ns, c2n).2. rewrite <- E. by apply get_index.
  - destruct (dict.index [] rc (ctor_to_names_map r0)) as [ns c2n] eqn:E.
    destruct (dict.index [] tc c2n) as [ns' c2n'] eqn:E'.
    simpl. repeat split; auto. intros c names Hget.
    change c2n' with (ns', c2n').2. rewrite <- E'. apply get_index.
    change c2n with (ns, c2n).2. rewrite <- E. by apply get_index.
Qed.

(** Constructing a manager leaves a registry a process can be in. *)
Lemma reachable_manager_new rx_id tx_id iface r :
  reachable r → reachable (manager_new rx_id tx_id iface r).2.
Proof.
  intros Hr. apply reachable_seed in Hr. unfold manager_new.
  set (r0 := register_internal_dboards r) in *.
  destruct (get_dboard_ctor rx_id "rx" r0) as [rc| |]; [|exact Hr..].
  destruct (get_dboard_ctor tx_id "tx" r0) as [tc| |]; [|exact Hr..].
  destruct (decide (rc = tc)).
  - destruct (dict.index [] rc (ctor_to_names_map r0)) as [ns c2n] eqn:E.
    cbn [snd]. change c2n with (ns, c2n).2. rewrite <- E.
    by apply reachable_index.
  - destruct (dict.index [] rc (ctor_to_names_map r0)) as [ns c2n] eqn:E.
    destruct (dict.index [] tc c2n) as [ns' c2n'] eqn:E'.
    cbn [snd]. change c2n' with (ns', c2n').2. rewrite <- E'.
    apply (reachable_index (mk_registry (called r0) (id_to_ctor_map r0) c2n)).
    change c2n with (ns, c2n).2. rewrite <- E. by apply reachable_index.
Qed.

Lemma get_dboard_ctor_resolve id xx_type r c names :
  resolve id r = Some (c, names) → get_dboard_ctor id xx_type r = Ok c.
Proof.
  unfold resolve, get_dboard_ctor.
  destruct (dict.get (id_to_ctor_map r) id) as [c'|]; [|discriminate].
  destruct (dict.get (ctor_to_names_map r) c'); [|discriminate]. congruence.
Qed.

Lemma index_resolve id r c names :
  resolve id r = Some (c, names) →
  dict.index [] c (ctor_to_names_map r) = (names, ctor_to_names_map r).
Proof.
  unfold resolve.
  destruct (dict.get (id_to_ctor_map r) id) as [c'|]; [|discriminate].
  destruct (dict.get (ctor_to_names_map r) c') eqn:E; [|discriminate].
  intros [= <- <-]. by apply index_Some.
Qed.

(** A constructed manager keeps resolving an identity code as before. *)
Lemma resolve_manager_new rx_id tx_id iface r id e :
  called r = true → resolve id r = Some e →
  resolve id (manager_new rx_id tx_id iface r).2 = Some e.
Proof.
  intros Hc. destruct (manager_new_registry rx_id tx_id iface r) as (_ & Hid & Hnames).
  rewrite (register_internal_dboards_latched r Hc) in Hid, Hnames.
  unfold resolve. rewrite Hid.
  destruct (dict.get (id_to_ctor_map r) id) as [c|]; [|discriminate].
  destruct (dict.get (ctor_to_names_map r) c) as [names|] eqn:E; [|discriminate].
  intros [= <-]. by rewrite (Hnames _ _ E).
Qed.

(** *** Sequences of operations *)

Lemma run_cons (o : op ctor_t) ops r : run (o :: ops) r = run ops (step r o).
Proof. reflexivity. Qed.

Lemma called_step r (o : op ctor_t) : called r = true → called (step r o) = true.
Proof.
  intros Hc. destruct o as [id c names|rx_id tx_id iface]; cbn [step].
  - apply register_subdevs_called.
  - by destruct (manager_new_registry rx_id tx_id iface r) as (H & _).
Qed.

Lemma reachable_step r (o : op ctor_t) : reachable r → reachable (step r o).
Proof.
  intros Hr. destruct o as [id c names|rx_id tx_id iface]; cbn [step].
  - by apply reachable_register.
  - by apply reachable_manager_new.
Qed.

Lemma reachable_run (ops : list (op ctor_t)) :
  ∀ r, reachable r → reachable (run ops r).
Proof.
  induction ops as [|o ops IH]; intros r Hr; [exact Hr|].
  rewrite run_cons. by apply IH, reachable_step.
Qed.

Lemma has_key_step r (o : op ctor_t) id' :
  dict.has_key (id_to_ctor_map r) id' = true →
  dict.has_key (id_to_ctor_map (step r o)) id' = true.
Proof.
  intros Hk. destruct o as [id c names|rx_id tx_id iface]; cbn [step].
  - by apply has_key_register.
  - destruct (manager_new_registry rx_id tx_id iface r) as (_ & -> & _).
    by apply has_key_seed.
Qed.

Lemma has_key_run (ops : list (op ctor_t)) id' :
  ∀ r, dict.has_key (id_to_ctor_map r) id' = true →
       dict.has_key (id_to_ctor_map (run ops r)) id' = true.
Proof.
  induction ops as [|o ops IH]; intros r Hk; [exact Hk|].
  rewrite run_cons. by apply IH, has_key_step.
Qed.

(** An operation that is no registration of [id] leaves the constructor of
    [id]. *)
Lemma step_keeps_ctor r (o : op ctor_t) id c :
  called r = true → dict.get (id_to_ctor_map r) id = Some c →
  (∀ c' names, o ≠ op_register id c' names) →
  dict.get (id_to_ctor_map (step r o)) id = Some c.
Proof.
  intros Hc Hget Hno. destruct o as [id' c' names'|rx_id tx_id iface];
    cbn [step].
  - assert (id' ≠ id) as Hne by (intros ->; by apply (Hno c' names')).
    unfold register_subdevs. rewrite (register_internal_dboards_latched r Hc).
    cbn [store_subdevs id_to_ctor_map]. by rewrite get_set_ne.
  - destruct (manager_new_registry rx_id tx_id iface r) as (_ & -> & _).
    by rewrite (register_internal_dboards_latched r Hc).
Qed.

(** An operation that is no registration of the constructor [c] leaves the
    names of [c]. *)
Lemma step_keeps_names r (o : op ctor_t) c names :
  called r = true → dict.get (ctor_to_names_map r) c = Some names →
  (∀ id' names', o ≠ op_register id' c names') →
  dict.get (ctor_to_names_map (step r o)) c = Some names.
Proof.
  intros Hc Hget Hno. destruct o as [id' c' names'|rx_id tx_id iface];
    cbn [step].
  - assert (c' ≠ c) as Hne by (intros ->; by apply (Hno id' names')).
    unfold register_subdevs. rewrite (register_internal_dboards_latched r Hc).
    cbn [store_subdevs ctor_to_names_map]. by rewrite get_set_ne.
  - destruct (manager_new_registry rx_id tx_id iface r) as (_ & _ & Hnames).
    apply Hnames. by rewrite (register_internal_dboards_latched r Hc).
Qed.

Lemma run_keeps_ctor (ops : list (op ctor_t)) id c :
  ∀ r, called r = true → dict.get (id_to_ctor_map r) id = Some c →
       (∀ c' names, op_register id c' names ∉ ops) →
       called (run ops r) = true
       ∧ dict.get (id_to_ctor_map (run ops r)) id = Some c.
Proof.
  induction ops as [|o ops IH]; intros r Hc Hget Hno; [by split|].
  rewrite run_cons. apply IH.
  - by apply called_step.
  - apply step_keeps_ctor; [exact Hc | exact Hget|].
    intros c' names' ->. apply (Hno c' names'). apply elem_of_cons. by left.
  - intros c' names' Hin. apply (Hno c' names'). apply elem_of_cons. by right.
Qed.

Lemma run_keeps_names (ops : list (op ctor_t)) c names :
  ∀ r, called r = true → dict.get (ctor_to_names_map r) c = Some names →
       (∀ id' names', op_register id' c names' ∉ ops) →
       dict.get (ctor_to_names_map (run ops r)) c = Some names.
Proof.
  induction ops as [|o ops IH]; intros r Hc Hget Hno; [exact Hget|].
  rewrite run_cons. apply IH.
  - by apply called_step.
  - apply step_keeps_names; [exact Hc | exact Hget|].
    intros id' names' ->. apply (Hno id' names'). apply elem_of_cons. by left.
  - intros id' names' Hin. apply (Hno id' names'). apply elem_of_cons. by right.
Qed.

(** C2, as the code has it.  After [register_subdevs(id, ctor1, names1)]
    followed by [register_subdevs(id, ctor2, names2)], the identity code
    resolves to the entry of the second call, [ctor2] with [names2].
    Whatever the process does next (registrations, constructions of
    managers), [id] resolves to the constructor [ctor2] for as long as [id]
    is not registered again, and to the names [names2] for as long as, in
    addition, no registration is made with the constructor [ctor2]: the
    names are filed under the constructor, not under the identity code.  The
    registry files no identity code and no constructor twice, and [id]
    stays filed.  Nothing unregisters: an identity code that was filed is
    still filed after any sequence of registrations and constructions of
    managers. *)
Theorem register_subdevs_last_write_wins r id ctor1 names1 ctor2 names2 :
  reachable r →
  let r' := register_subdevs id ctor2 names2
              (register_subdevs id ctor1 names1 r) in
  resolve id r' = Some (ctor2, names2)
  ∧ (∀ ops : list (op ctor_t),
       (∀ c names, op_register id c names ∉ ops) →
       (∀ xx_type, get_dboard_ctor id xx_type (run ops r') = Ok ctor2)
       ∧ ((∀ id' names, op_register id' ctor2 names ∉ ops) →
          resolve id (run ops r') = Some (ctor2, names2)))
  ∧ (∀ ops : list (op ctor_t),
       no_duplicates (run ops r')
       ∧ id ∈ dict.get_keys (id_to_ctor_map (run ops r')))
  ∧ (∀ (ops : list (op ctor_t)) id',
       dict.has_key (id_to_ctor_map r) id' = true →
       dict.has_key (id_to_ctor_map (run ops r)) id' = true).
Proof.
  intros Hr r'.
  assert (resolve id r' = Some (ctor2, names2)) as Hres
    by apply resolve_store.
  assert (called r' = true) as Hc by apply register_subdevs_called.
  assert (dict.get (id_to_ctor_map r') id = Some ctor2) as Hid
    by apply get_set_eq.
  assert (dict.get (ctor_to_names_map r') ctor2 = Some names2) as Hnames
    by apply get_set_eq.
  split; [exact Hres|]. split; [|split].
  - intros ops Hno.
    destruct (run_keeps_ctor ops id ctor2 r' Hc Hid Hno) as [Hc' Hid'].
    split.
    + intros xx_type. unfold get_dboard_ctor. by rewrite Hid'.
    + intros Hno'. unfold resolve.
      by rewrite Hid', (run_keeps_names ops ctor2 names2 r' Hc Hnames Hno').
  - intros ops. split.
    + apply reachable_no_duplicates, reachable_run.
      by do 2 apply reachable_register.
    + apply has_key_elem_of, has_key_run, has_key_set.
  - intros ops id'. apply has_key_run.
Qed.

(** *** The transceiver loop *)

Lemma xcvr_loop c iface names :
  let m := foldl (make_xcvr_subdev c iface) (mk_manager gpio_init [] [] []) names in
  length (subdevs m) = length names
  ∧ ∀ name, name ∈ names →
      ∃ i, dict.get (_rx_dboards m) name = Some (mk_proxy i RX_TYPE)
           ∧ dict.get (_tx_dboards m) name = Some (mk_proxy i TX_TYPE)
           ∧ subdevs m !! i = Some (construct c (name, iface)).
Proof.
  induction names as [|x names IH] using rev_ind; simpl.
  - split; [reflexivity|]. intros name Hin. inversion Hin.
  - rewrite foldl_snoc. destruct IH as [Hlen IH]. simpl. split.
    + rewrite !length_app, Hlen. reflexivity.
    + intros name Hin. destruct (decide (x = name)) as [->|Hne].
      * eexists. rewrite !get_set_eq. split; [reflexivity|].
        split; [reflexivity|]. by rewrite list_lookup_middle.
      * apply elem_of_app in Hin as [Hin|Hin];
          [|apply list_elem_of_singleton in Hin; congruence].
        destruct (IH name Hin) as (i & Hrx & Htx & Hi). exists i.
        rewrite !get_set_ne by exact Hne.
        split; [exact Hrx|]. split; [exact Htx|].
        by apply lookup_app_l_Some.
Qed.

(** A write through one proxy of an object, read through the other one. *)
Lemma proxy_set_get_same (store : list Inst) i inst key val key' :
  store !! i = Some inst →
  proxy_get (mk_proxy i TX_TYPE) key'
    (proxy_set (mk_proxy i RX_TYPE) key val store)
  = Some (tx_get key' (rx_set key val inst))
  ∧ proxy_get (mk_proxy i RX_TYPE) key'
      (proxy_set (mk_proxy i TX_TYPE) key val store)
    = Some (rx_get key' (tx_set key val inst)).
Proof.
  intros Hi. apply lookup_lt_Some in Hi as Hlt.
  unfold proxy_get, proxy_set. simpl. rewrite Hi.
  rewrite !list_lookup_insert_eq by exact Hlt. by split.
Qed.

(** A write through a proxy leaves what the proxy of another object reads. *)
Lemma proxy_set_get_other (store : list Inst) p q key val key' :
  _subdev p ≠ _subdev q →
  proxy_get q key' (proxy_set p key val store) = proxy_get q key' store.
Proof.
  intros Hne. unfold proxy_get, proxy_set.
  destruct (store !! _subdev p); [|reflexivity].
  by rewrite list_lookup_insert_ne.
Qed.

(** C3. When the RX and the TX identity code resolve to the same entry
    (constructor [c], subdevice names [names]), the manager is built, with one
    driver object per entry of [names]; under every such name the RX map holds an
    RX-tagged proxy and the TX map a TX-tagged proxy of one and the same
    object, the one constructed for that name; and what is read through one
    of the two proxies after a write through the other is read from the state
    that write left. *)
Theorem xcvr_proxies_share_instance rx_id tx_id iface r c names :
  resolve rx_id (register_internal_dboards r) = Some (c, names) →
  resolve tx_id (register_internal_dboards r) = Some (c, names) →
  ∃ m, (manager_new rx_id tx_id iface r).1 = Ok m
    ∧ length (subdevs m) = length names
    ∧ ∀ name, name ∈ names →
        ∃ i, get_rx_subdev name m = Ok (mk_proxy i RX_TYPE)
          ∧ get_tx_subdev name m = Ok (mk_proxy i TX_TYPE)
          ∧ subdevs m !! i = Some (construct c (name, iface))
          ∧ ∀ (key : Key) (val : Val) (key' : Key),
              proxy_get (mk_proxy i TX_TYPE) key'
                (proxy_set (mk_proxy i RX_TYPE) key val (subdevs m))
              = Some (tx_get key' (rx_set key val (construct c (name, iface))))
              ∧ proxy_get (mk_proxy i RX_TYPE) key'
                  (proxy_set (mk_proxy i TX_TYPE) key val (subdevs m))
                = Some (rx_get key' (tx_set key val (construct c (name, iface)))).
Proof.
  intros Hrx Htx. unfold manager_new.
  rewrite (get_dboard_ctor_resolve _ _ _ _ _ Hrx).
  rewrite (get_dboard_ctor_resolve _ _ _ _ _ Htx).
  destruct (decide (c = c)) as [_|]; [|congruence].
  rewrite (index_resolve _ _ _ _ Hrx). simpl.
  eexists. split; [reflexivity|].
  destruct (xcvr_loop c iface names) as [Hlen Hall]. split; [exact Hlen|].
  intros name Hin. destruct (Hall name Hin) as (i & Hr & Ht & Hi).
  exists i. unfold get_rx_subdev, get_tx_subdev. rewrite Hr, Ht.
  repeat split; try exact Hi; by apply proxy_set_get_same.
Qed.

(** *** The separate loops *)

Lemma rx_loop c iface names :
  let m := foldl (make_rx_subdev c iface) (mk_manager gpio_init [] [] []) names in
  length (subdevs m) = length names
  ∧ _tx_dboards m = []
  ∧ (∀ name, name ∈ names → dict.has_key (_rx_dboards m) name = true)
  ∧ ∀ name p, dict.get (_rx_dboards m) name = Some p →
      _type p = RX_TYPE ∧ (_subdev p < length names)%nat.
Proof.
  induction names as [|x names IH] using rev_ind; simpl.
  - repeat split; try discriminate. intros name Hin. inversion Hin.
  - rewrite foldl_snoc. destruct IH as (Hlen & Htx & Hin & IH). simpl.
    rewrite !length_app, Hlen. simpl. repeat split; try lia; try exact Htx.
    + intros name Hname. destruct (decide (x = name)) as [->|Hne].
      * apply has_key_set.
      * apply has_key_set_mono, Hin.
        apply elem_of_app in Hname as [Hname|Hname]; [exact Hname|].
        apply list_elem_of_singleton in Hname. congruence.
    + destruct (decide (x = name)) as [->|Hne].
      * rewrite get_set_eq in H. by injection H as <-.
      * rewrite get_set_ne in H by exact Hne. by apply (IH name p).
    + destruct (decide (x = name)) as [->|Hne].
      * rewrite get_set_eq in H. injection H as <-. simpl. lia.
      * rewrite get_set_ne in H by exact Hne.
        destruct (IH name p H). lia.
Qed.

Lemma tx_loop c iface m0 names :
  _tx_dboards m0 = [] →
  let m := foldl (make_tx_subdev c iface) m0 names in
  length (subdevs m) = length (subdevs m0) + length names
  ∧ _rx_dboards m = _rx_dboards m0
  ∧ (∀ name, name ∈ names → dict.has_key (_tx_dboards m) name = true)
  ∧ ∀ name q, dict.get (_tx_dboards m) name = Some q →
      _type q = TX_TYPE ∧ (length (subdevs m0) ≤ _subdev q)%nat.
Proof.
  intros Htx0. induction names as [|x names IH] using rev_ind; simpl.
  - rewrite Htx0. repeat split; try discriminate; try lia.
    intros name Hin. inversion Hin.
  - rewrite foldl_snoc. destruct IH as (Hlen & Hrx & Hin & IH). simpl.
    rewrite !length_app, Hlen. simpl. repeat split; try lia; try exact Hrx.
    + intros name Hname. destruct (decide (x = name)) as [->|Hne].
      * apply has_key_set.
      * apply has_key_set_mono, Hin.
        apply elem_of_app in Hname as [Hname|Hname]; [exact Hname|].
        apply list_elem_of_singleton in Hname. congruence.
    + destruct (decide (x = name)) as [->|Hne].
      * rewrite get_set_eq in H. by injection H as <-.
      * rewrite get_set_ne in H by exact Hne. by apply (IH name q).
    + destruct (decide (x = name)) as [->|Hne].
      * rewrite get_set_eq in H. injection H as <-. simpl. lia.
      * rewrite get_set_ne in H by exact Hne.
        destruct (IH name q H). lia.
Qed.

(** C4, as the code has it.  When the RX and the TX identity code resolve to
    different constructors, the manager is built, every RX name and every TX
    name is filed, and an RX proxy and a TX proxy wrap different driver
    objects: a write through the RX proxy leaves every value read through the
    TX proxy as it was. *)
Theorem separate_proxies_independent rx_id tx_id iface r rx_ctor rx_names
    tx_ctor tx_names :
  resolve rx_id (register_internal_dboards r) = Some (rx_ctor, rx_names) →
  resolve tx_id (register_internal_dboards r) = Some (tx_ctor, tx_names) →
  rx_ctor ≠ tx_ctor →
  ∃ m, (manager_new rx_id tx_id iface r).1 = Ok m
    ∧ length (subdevs m) = length rx_names + length tx_names
    ∧ (∀ name, name ∈ rx_names → ∃ p, get_rx_subdev name m = Ok p)
    ∧ (∀ name, name ∈ tx_names → ∃ q, get_tx_subdev name m = Ok q)
    ∧ ∀ name name' p q,
        get_rx_subdev name m = Ok p → get_tx_subdev name' m = Ok q →
        _type p = RX_TYPE ∧ _type q = TX_TYPE
        ∧ _subdev p ≠ _subdev q
        ∧ ∀ (key : Key) (val : Val) (key' : Key),
            proxy_get q key' (proxy_set p key val (subdevs m))
            = proxy_get q key' (subdevs m).
Proof.
  intros Hrx Htx Hne. unfold manager_new.
  rewrite (get_dboard_ctor_resolve _ _ _ _ _ Hrx).
  rewrite (get_dboard_ctor_resolve _ _ _ _ _ Htx).
  destruct (decide (rx_ctor = tx_ctor)) as [|_]; [congruence|].
  rewrite (index_resolve _ _ _ _ Hrx), (index_resolve _ _ _ _ Htx). simpl.
  eexists. split; [reflexivity|].
  destruct (rx_loop rx_ctor iface rx_names) as (Hlen1 & Htx1 & Hin1 & H1).
  destruct (tx_loop tx_ctor iface _ tx_names Htx1) as (Hlen2 & Hrx2 & Hin2 & H2).
  split; [lia|].
  unfold get_rx_subdev, get_tx_subdev. rewrite Hrx2.
  split.
  { intros name Hin. specialize (Hin1 name Hin). unfold dict.has_key in Hin1.
    destruct (dict.get _ name); [eauto | discriminate]. }
  split.
  { intros name Hin. specialize (Hin2 name Hin). unfold dict.has_key in Hin2.
    destruct (dict.get _ name); [eauto | discriminate]. }
  intros name name' p q Hp Hq.
  destruct (dict.get _ name) as [p'|] eqn:Ep; [|discriminate].
  destruct (dict.get (_tx_dboards _) name') as [q'|] eqn:Eq; [|discriminate].
  injection Hp as ->. injection Hq as ->.
  destruct (H1 _ _ Ep) as [Hpt Hpi]. destruct (H2 _ _ Eq) as [Hqt Hqi].
  assert (_subdev p ≠ _subdev q) by lia.
  repeat split; auto. intros. by apply proxy_set_get_other.
Qed.

(** *** Seeding *)

(** C9, at the start of a process.  After the internal seeding the code
    [ID_NONE] resolves to the basic-rx constructor, but with the three names
    of the registration of [ID_BASIC_RX], not with the one name ["ab"] filed
    for [ID_NONE]: the names are filed under the constructor, and the last
    registration of [basic_rx::make] replaces them.  A manager built for
    [ID_NONE] on both sides takes the transceiver branch and files three
    proxies a side. *)
Theorem seeded_ID_NONE_resolves iface r :
  called r = false →
  (ID_NONE : dboard_id_t) ≠ ID_BASIC_TX →
  resolve ID_NONE (register_internal_dboards r)
    = Some (basic_rx_make, ["a"; "b"; "ab"])
  ∧ ∃ m, (manager_new ID_NONE ID_NONE iface r).1 = Ok m
      ∧ get_rx_subdev_names m = ["a"; "b"; "ab"]
      ∧ get_tx_subdev_names m = ["a"; "b"; "ab"]
      ∧ subdevs m = [construct basic_rx_make ("a", iface);
                     construct basic_rx_make ("b", iface);
                     construct basic_rx_make ("ab", iface)].
Proof.
  intros Hc Hne.
  assert (resolve ID_NONE (register_internal_dboards r)
          = Some (basic_rx_make, ["a"; "b"; "ab"])) as Hres.
  { unfold register_internal_dboards, resolve. rewrite Hc. simpl.
    destruct (decide (ID_BASIC_RX = ID_NONE)) as [E|E].
    - rewrite E at 1. rewrite !get_set_eq. reflexivity.
    - rewrite get_set_ne by exact E. rewrite get_set_ne by auto.
      rewrite !get_set_eq. reflexivity. }
  split; [exact Hres|].
  unfold manager_new.
  rewrite (get_dboard_ctor_resolve _ "rx" _ _ _ Hres).
  rewrite (get_dboard_ctor_resolve _ "tx" _ _ _ Hres).
  destruct (decide (basic_rx_make = basic_rx_make)) as [_|]; [|congruence].
  rewrite (index_resolve _ _ _ _ Hres). simpl.
  eexists. split; [reflexivity|].
  unfold get_rx_subdev_names, get_tx_subdev_names, make_xcvr_subdev. simpl.
  repeat (destruct (decide _) as [?|?]; try discriminate); simpl.
  repeat split.
Qed.
End manager.

(** *** On the reference instances *)

Import sim.

Lemma register_subdevs_last_write_wins_witness :
  resolve 5%N
    (run (Inst := driver)
       [op_register 6%N sim_basic_rx_make ["z"]; op_manager 5%N 5%N 0%N]
       (register_subdevs 5%N sim_xcvr_make ["a"; "b"]
          (register_subdevs 5%N sim_basic_tx_make [""] (fresh (ctor_t := ctor)))))
  = Some (sim_xcvr_make, ["a"; "b"]).
Proof.
  assert (∀ c names,
            op_register 5%N c names
            ∉ [op_register 6%N sim_basic_rx_make ["z"]; op_manager 5%N 5%N 0%N])
    as Hid.
  { intros c names Hin.
    repeat (apply elem_of_cons in Hin as [Hin|Hin]; [discriminate|]).
    by apply elem_of_nil in Hin. }
  assert (∀ id' names,
            op_register id' sim_xcvr_make names
            ∉ [op_register 6%N sim_basic_rx_make ["z"]; op_manager 5%N 5%N 0%N])
    as Hctor.
  { intros id' names Hin.
    repeat (apply elem_of_cons in Hin as [Hin|Hin]; [discriminate|]).
    by apply elem_of_nil in Hin. }
  exact (proj2 (proj1 (proj2 (register_subdevs_last_write_wins (Inst := driver)
                                fresh 5%N sim_basic_tx_make [""]
                                sim_xcvr_make ["a"; "b"] reachable_fresh))
                  _ Hid) Hctor).
Defined.

(** C2 as stated fails: after the two registrations of the code 5, the
    second with the constructor [sim_xcvr_make] and the names "a" and "b",
    a registration of the code 6 with the same constructor and the name "z"
    makes the code 5 resolve to "z": not every subsequent resolution of the
    code yields the names of its second registration. *)
Lemma later_registration_replaces_names :
  resolve 5%N
    (register_subdevs 6%N sim_xcvr_make ["z"]
       (register_subdevs 5%N sim_xcvr_make ["a"; "b"]
          (register_subdevs 5%N sim_basic_tx_make [""]
             (fresh (ctor_t := ctor)))))
  = Some (sim_xcvr_make, ["z"])
  ∧ resolve 5%N
      (register_subdevs 6%N sim_xcvr_make ["z"]
         (register_subdevs 5%N sim_xcvr_make ["a"; "b"]
            (register_subdevs 5%N sim_basic_tx_make [""]
               (fresh (ctor_t := ctor)))))
    ≠ Some (sim_xcvr_make, ["a"; "b"]).
Proof. split; [vm_compute; reflexivity | vm_compute; discriminate]. Qed.

Lemma xcvr_proxies_share_instance_witness :
  ∃ m : manager driver,
    (manager_new ID_BASIC_RX ID_BASIC_RX 0%N fresh).1 = Ok m
    ∧ length (subdevs m) = 3.
Proof.
  assert (resolve ID_BASIC_RX (register_internal_dboards (fresh (ctor_t := ctor)))
          = Some (sim_basic_rx_make, ["a"; "b"; "ab"])) as H
    by (vm_compute; reflexivity).
  destruct (xcvr_proxies_share_instance (Key := string) (Val := Z)
              ID_BASIC_RX ID_BASIC_RX 0%N fresh sim_basic_rx_make
              ["a"; "b"; "ab"]
              H H) as (m & Hm & Hlen & _).
  exists m. split; [exact Hm | exact Hlen].
Defined.

(** A write through the RX proxy of a transceiver shows through its TX
    proxy. *)
Example xcvr_write_observed :
  match (manager_new ID_BASIC_RX ID_BASIC_RX 0%N (fresh (ctor_t := ctor))).1 with
  | Ok m =>
      match get_rx_subdev "ab" m, get_tx_subdev "ab" m with
      | Ok p, Ok q =>
          proxy_get q "gain" (subdevs m) = Some 0%Z
          ∧ proxy_get q "gain" (proxy_set p "gain" 7%Z (subdevs m)) = Some 7%Z
      | _, _ => False
      end
  | _ => False
  end.
Proof. vm_compute. split; reflexivity. Qed.

Lemma separate_proxies_independent_witness :
  ∃ m : manager driver,
    (manager_new 0x10%N ID_BASIC_RX 0%N
       (register_subdevs 0x10%N sim_xcvr_make ["a"] fresh)).1 = Ok m
    ∧ length (subdevs m) = 4.
Proof.
  pose (r := register_subdevs 0x10%N sim_xcvr_make ["a"] (fresh (ctor_t := ctor))).
  assert (resolve 0x10%N (register_internal_dboards r)
          = Some (sim_xcvr_make, ["a"])) as Hrx
    by (vm_compute; reflexivity).
  assert (resolve ID_BASIC_RX (register_internal_dboards r)
          = Some (sim_basic_rx_make, ["a"; "b"; "ab"])) as Htx
    by (vm_compute; reflexivity).
  assert (sim_xcvr_make ≠ sim_basic_rx_make) as Hne by discriminate.
  destruct (separate_proxies_independent (Key := string) (Val := Z)
              0x10%N ID_BASIC_RX 0%N r sim_xcvr_make ["a"]
              sim_basic_rx_make ["a"; "b"; "ab"] Hrx Htx Hne)
    as (m & Hm & Hlen & _).
  exists m. split; [exact Hm | exact Hlen].
Defined.

(** C4 as stated fails: the identity codes [ID_NONE] and [ID_BASIC_RX]
    differ, both resolve to [basic_rx::make], and the manager built for them
    takes the transceiver branch; the RX proxy and the TX proxy under ["a"]
    wrap the same driver object, and a write through the first shows
    through the second. *)
Lemma different_ids_share_instance :
  (ID_NONE : dboard_id_t) ≠ ID_BASIC_RX
  ∧ match (manager_new ID_NONE ID_BASIC_RX 0%N (fresh (ctor_t := ctor))).1 with
    | Ok m =>
        match get_rx_subdev "a" m, get_tx_subdev "a" m with
        | Ok p, Ok q =>
            _subdev p = _subdev q
            ∧ proxy_get q "gain" (subdevs m) = Some 0%Z
            ∧ proxy_get q "gain" (proxy_set p "gain" 7%Z (subdevs m)) = Some 7%Z
        | _, _ => False
        end
    | _ => False
    end.
Proof. split; [discriminate|]. vm_compute. repeat split; reflexivity. Qed.

Lemma seeded_ID_NONE_resolves_witness :
  resolve ID_NONE (register_internal_dboards (fresh (ctor_t := ctor)))
  = Some (sim_basic_rx_make, ["a"; "b"; "ab"]).
Proof.
  assert ((ID_NONE : dboard_id_t) ≠ ID_BASIC_TX) as Hne by discriminate.
  exact (proj1 (seeded_ID_NONE_resolves 0%N fresh eq_refl Hne)).
Defined.
End dboard_facts.

(** ** The facade *)

Module multi_usrp_facts.
Import multi_usrp.

Section access.
Context {B : Type} `{!Board B}.
Implicit Types (w : world B) (b : B).

Lemma size_lt_lookup {A} (l : list A) (i : N) :
  (i <? size l)%N = true → ∃ a, l !! N.to_nat i = Some a.
Proof.
  intros Hlt. apply N.ltb_lt in Hlt. unfold size in Hlt.
  apply lookup_lt_is_Some. lia.
Qed.

Lemma size_ge_lookup {A} (l : list A) (i : N) :
  (i <? size l)%N = false → l !! N.to_nat i = None.
Proof.
  intros Hge. apply N.ltb_ge in Hge. unfold size in Hge.
  apply lookup_ge_None. lia.
Qed.

Lemma at_Some {A} (l : list A) (i : N) a :
  l !! N.to_nat i = Some a → at_ l i = Ok a.
Proof. unfold at_. intros ->. reflexivity. Qed.

Lemma at_None {A} (l : list A) (i : N) :
  l !! N.to_nat i = None → at_ l i = Throw out_of_range.
Proof. unfold at_. intros ->. reflexivity. Qed.

Lemma _mboard_Some w (mboard : N) b :
  mboards w !! N.to_nat mboard = Some b →
  _mboard mboard w = Ok (mk_obj (N.to_nat mboard) mboard_node).
Proof. intros Hb. unfold _mboard. by rewrite (at_Some _ _ _ Hb). Qed.

Lemma _mboard_None w (mboard : N) :
  mboards w !! N.to_nat mboard = None →
  _mboard mboard w = Throw out_of_range.
Proof. intros Hb. unfold _mboard. by rewrite (at_None _ _ Hb). Qed.

Lemma mboard_get_Some w (mboard : N) b k :
  mboards w !! N.to_nat mboard = Some b →
  mboard_get mboard k w = board_get b mboard_node k.
Proof.
  intros Hb. unfold mboard_get. rewrite (_mboard_Some _ _ _ Hb). simpl.
  unfold prop_get. simpl. by rewrite Hb.
Qed.

Lemma mboard_get_None w (mboard : N) k :
  mboards w !! N.to_nat mboard = None →
  mboard_get mboard k w = Throw out_of_range.
Proof. intros Hb. unfold mboard_get. by rewrite (_mboard_None _ _ Hb). Qed.

(** *** The channel resolver *)

Lemma spec_sizes_lookup d w sizes (i : nat) b :
  spec_sizes d w sizes → mboards w !! i = Some b →
  ∃ spec, get_xx_subdev_spec d (N.of_nat i) w = Ok spec
          ∧ sizes !! i = Some (size spec).
Proof.
  intros Hs Hb. destruct (Forall2_lookup_l _ _ _ _ _ Hs Hb) as (s & Hsi & spec & Hget & <-).
  exists spec. split; [|exact Hsi].
  unfold get_xx_subdev_spec. rewrite (mboard_get_Some w _ b).
  - rewrite Hget. reflexivity.
  - by rewrite Nat2N.id.
Qed.

Lemma spec_sizes_length d w sizes :
  spec_sizes d w sizes → length (mboards w) = length sizes.
Proof. apply Forall2_length. Qed.

(** The channel count is the sum of the sizes. *)
Lemma wrap_small (x : N) : (x < 2 ^ 64)%N → wrap x = x.
Proof. apply N.mod_small. Qed.

Lemma sum_sizes_drop_S (sizes : list N) (m : nat) s :
  sizes !! m = Some s →
  sum_sizes (drop m sizes) = (s + sum_sizes (drop (S m) sizes))%N.
Proof. intros Hs. by rewrite (drop_S _ _ _ Hs). Qed.

Lemma get_xx_num_channels_from_spec d w sizes :
  spec_sizes d w sizes →
  ∀ budget (m : nat) sum,
    (length sizes ≤ m + budget)%nat →
    (sum + sum_sizes (drop m sizes) < 2 ^ 64)%N →
    get_xx_num_channels_from budget d (N.of_nat m) sum w
    = Ok (sum + sum_sizes (drop m sizes))%N.
Proof.
  intros Hs. pose proof (spec_sizes_length _ _ _ Hs) as Hlen.
  assert (get_num_mboards w = N.of_nat (length sizes)) as Hn
    by (unfold get_num_mboards, size; congruence).
  induction budget as [|budget IH]; intros m sum Hb Hfit;
    cbn [get_xx_num_channels_from]; rewrite Hn;
    destruct (N.ltb_spec (N.of_nat m) (N.of_nat (length sizes))) as [Hlt|Hge];
    try lia; try (rewrite drop_ge by lia; cbn; by rewrite N.add_0_r).
  assert (∃ b, mboards w !! m = Some b) as [b Hbm]
    by (apply lookup_lt_is_Some; lia).
  destruct (spec_sizes_lookup _ _ _ _ _ Hs Hbm) as (spec & -> & Hsz).
  cbn [mbind outcome_bind]. rewrite (sum_sizes_drop_S _ _ _ Hsz) in Hfit |- *.
  replace (N.of_nat m + 1)%N with (N.of_nat (S m)) by lia.
  rewrite wrap_small by lia.
  rewrite IH by lia. f_equal. lia.
Qed.

Lemma get_xx_num_channels_spec d w sizes :
  spec_sizes d w sizes → (sum_sizes sizes < 2 ^ 64)%N →
  get_xx_num_channels d w = Ok (sum_sizes sizes).
Proof.
  intros Hs Hfit. unfold get_xx_num_channels.
  rewrite (get_xx_num_channels_from_spec d w sizes Hs _ 0%nat);
    [reflexivity | rewrite (spec_sizes_length _ _ _ Hs); lia | exact Hfit].
Qed.

Lemma sum_sizes_replicate (n : nat) (s : N) :
  sum_sizes (replicate n s) = (N.of_nat n * s)%N.
Proof.
  induction n as [|n IH]; [reflexivity|]. cbn [replicate].
  change (sum_sizes (s :: replicate n s))
    with (s + sum_sizes (replicate n s))%N.
  rewrite IH. lia.
Qed.

(** The loop of the resolver computes [locate] on the sizes that are left. *)
Lemma xx_chan_to_mcp_from_locate d w sizes :
  spec_sizes d w sizes →
  ∀ budget (m : nat) chan,
    (length sizes ≤ m + budget)%nat →
    xx_chan_to_mcp_from budget d (N.of_nat m) chan w
    = Ok (locate (N.of_nat m) chan (drop m sizes)).
Proof.
  intros Hs. pose proof (spec_sizes_length _ _ _ Hs) as Hlen.
  assert (get_num_mboards w = N.of_nat (length sizes)) as Hn
    by (unfold get_num_mboards, size; congruence).
  induction budget as [|budget IH]; intros m chan Hb.
  - simpl. rewrite Hn.
    destruct (N.ltb_spec (N.of_nat m) (N.of_nat (length sizes))); [lia|].
    rewrite drop_ge by lia. reflexivity.
  - simpl. rewrite Hn.
    destruct (N.ltb_spec (N.of_nat m) (N.of_nat (length sizes))) as [Hlt|Hge].
    + assert (∃ b, mboards w !! m = Some b) as [b Hbm]
        by (apply lookup_lt_is_Some; lia).
      destruct (spec_sizes_lookup _ _ _ _ _ Hs Hbm) as (spec & -> & Hsz).
      simpl. rewrite (drop_S _ _ _ Hsz). simpl.
      destruct (chan <? size spec)%N; [reflexivity|].
      replace (N.of_nat m + 1)%N with (N.of_nat (S m)) by lia.
      apply IH. lia.
    + rewrite drop_ge by lia. reflexivity.
Qed.

Lemma xx_chan_to_mcp_locate d w sizes chan :
  spec_sizes d w sizes → xx_chan_to_mcp d chan w = Ok (locate 0 chan sizes).
Proof.
  intros Hs. unfold xx_chan_to_mcp.
  rewrite (xx_chan_to_mcp_from_locate d w sizes Hs _ 0%nat).
  - reflexivity.
  - rewrite (spec_sizes_length _ _ _ Hs). lia.
Qed.

Lemma sum_sizes_take_S (sizes : list N) (i : nat) s :
  sizes !! i = Some s →
  sum_sizes (take (S i) sizes) = (sum_sizes (take i sizes) + s)%N.
Proof.
  revert i. induction sizes as [|x sizes IH]; intros [|i] Hi; simpl in *;
    try discriminate.
  - injection Hi as ->. lia.
  - rewrite (IH i Hi). lia.
Qed.

Lemma sum_sizes_take_le (sizes : list N) (i : nat) :
  (sum_sizes (take i sizes) ≤ sum_sizes sizes)%N.
Proof.
  revert i. induction sizes as [|x sizes IH]; intros [|i]; simpl; try lia.
  specialize (IH i). lia.
Qed.

Lemma sum_sizes_take_cons (sizes : list N) (i : nat) s :
  sum_sizes (take (S i) (s :: sizes)) = (s + sum_sizes (take i sizes))%N.
Proof. reflexivity. Qed.

(** Inside the range [locate] stops at the first board whose cumulative
    count exceeds the channel. *)
Lemma locate_in_range (sizes : list N) (m chan : N) :
  (chan < sum_sizes sizes)%N →
  ∃ i : nat,
    locate m chan sizes
    = mk_mcp (m + N.of_nat i) (chan - sum_sizes (take i sizes))
    ∧ (i < length sizes)%nat
    ∧ (sum_sizes (take i sizes) ≤ chan < sum_sizes (take (S i) sizes))%N
    ∧ ∀ i' : nat, (chan < sum_sizes (take (S i') sizes))%N → (i ≤ i')%nat.
Proof.
  revert m chan. induction sizes as [|s sizes IH]; intros m chan Hlt.
  - simpl in Hlt. lia.
  - cbn [locate]. destruct (N.ltb_spec chan s) as [Hs|Hs].
    + exists 0%nat. rewrite sum_sizes_take_cons. rewrite take_0.
      cbn [sum_sizes foldr length]. rewrite N.add_0_r, N.sub_0_r.
      repeat split; lia.
    + change (sum_sizes (s :: sizes)) with (s + sum_sizes sizes)%N in Hlt.
      destruct (IH (m + 1)%N (chan - s)%N) as (i & Hloc & Hi & Hr & Hmin);
        [lia|].
      exists (S i). rewrite Hloc, !sum_sizes_take_cons. cbn [length].
      repeat split; try lia.
      * f_equal; lia.
      * intros [|i'] Hi'.
        -- rewrite sum_sizes_take_cons, take_0 in Hi'.
           cbn [sum_sizes foldr] in Hi'. lia.
        -- apply le_n_S, Hmin. rewrite sum_sizes_take_cons in Hi'. lia.
Qed.

(** Past the range it runs off the end of the boards. *)
Lemma locate_out_of_range (sizes : list N) (m chan : N) :
  (sum_sizes sizes ≤ chan)%N →
  locate m chan sizes = mk_mcp (m + size sizes) (chan - sum_sizes sizes).
Proof.
  revert m chan. induction sizes as [|s sizes IH]; intros m chan Hge; simpl.
  - unfold size. simpl. f_equal; lia.
  - simpl in Hge. destruct (N.ltb_spec chan s) as [Hs|Hs]; [lia|].
    rewrite IH by lia. unfold size. simpl. f_equal; lia.
Qed.

Lemma xx_chan_to_mcp_spec d w sizes (c : N) :
  spec_sizes d w sizes →
  ((c < sum_sizes sizes)%N →
   ∃ m : nat,
     xx_chan_to_mcp d c w
     = Ok (mk_mcp (N.of_nat m) (c - sum_sizes (take m sizes)))
     ∧ (m < length sizes)%nat
     ∧ (sum_sizes (take m sizes) ≤ c < sum_sizes (take (S m) sizes))%N
     ∧ ∀ m' : nat, (c < sum_sizes (take (S m') sizes))%N → (m ≤ m')%nat)
  ∧ ((sum_sizes sizes ≤ c)%N →
     xx_chan_to_mcp d c w
     = Ok (mk_mcp (get_num_mboards w) (c - sum_sizes sizes))
     ∧ _xx_dsp d c w = Throw out_of_range
     ∧ _xx_dboard d c w = Throw out_of_range
     ∧ _xx_subdev d c w = Throw out_of_range).
Proof.
  intros Hs. rewrite (xx_chan_to_mcp_locate d w sizes c Hs). split.
  - intros Hlt. destruct (locate_in_range sizes 0 c Hlt) as (i & Hloc & Hrest).
    exists i. rewrite Hloc, N.add_0_l. split; [reflexivity | exact Hrest].
  - intros Hge.
    assert (get_num_mboards w = size sizes) as Hn.
    { unfold get_num_mboards, size. by rewrite (spec_sizes_length _ _ _ Hs). }
    assert (mboards w !! N.to_nat (get_num_mboards w) = None) as Hnone.
    { apply lookup_ge_None. unfold get_num_mboards, size. lia. }
    assert (xx_chan_to_mcp d c w
            = Ok (mk_mcp (get_num_mboards w) (c - sum_sizes sizes))) as Hmcp.
    { rewrite (xx_chan_to_mcp_locate d w sizes c Hs).
      rewrite locate_out_of_range by exact Hge. by rewrite N.add_0_l, Hn. }
    rewrite locate_out_of_range, N.add_0_l, <- Hn by exact Hge.
    split; [reflexivity|].
    unfold _xx_subdev, _xx_dboard, _xx_dsp, get_xx_subdev_spec.
    rewrite Hmcp. simpl. rewrite !(mboard_get_None _ _ _ Hnone). by simpl.
Qed.
End access.

Section time.
Context {B : Type} `{!Board B}.
Implicit Types (w : world B) (b : B).

Lemma deviates_false (time_0 time_i : time_spec_t) :
  deviates time_0 time_i = false
  ↔ (time_0 <= time_i)%Q
    ∧ (time_i - time_0 <= time_spec_t_of_double 0.01)%Q.
Proof.
  unfold deviates, time_gt, time_lt, time_sub.
  rewrite orb_false_iff, !negb_false_iff, !Qle_bool_iff. reflexivity.
Qed.

Lemma now_times_lookup w times (i : nat) t :
  now_times w times → times !! i = Some t →
  mboard_get (N.of_nat i) MBOARD_PROP_TIME_NOW w ≫= as_time = Ok t.
Proof.
  intros Hn Ht. destruct (Forall2_lookup_r _ _ _ _ _ Hn Ht) as (b & Hb & Hget).
  rewrite (mboard_get_Some w _ b) by (by rewrite Nat2N.id).
  by rewrite Hget.
Qed.

(** The loop of [get_time_synchronized] checks the boards that are left
    against board 0. *)
Lemma get_time_synchronized_from_spec w t0 rest :
  now_times w (t0 :: rest) →
  ∀ budget (m : nat),
    (1 ≤ m)%nat → (length (t0 :: rest) ≤ m + budget)%nat →
    get_time_synchronized_from budget (N.of_nat m) w
    = Ok (forallb (λ t, negb (deviates t0 t)) (drop m (t0 :: rest))).
Proof.
  intros Hn. pose proof (Forall2_length _ _ _ Hn) as Hlen.
  assert (get_num_mboards w = N.of_nat (length (t0 :: rest))) as Hnum
    by (unfold get_num_mboards, size; congruence).
  induction budget as [|budget IH]; intros m Hm Hb.
  - cbn [get_time_synchronized_from]. rewrite Hnum.
    destruct (N.ltb_spec (N.of_nat m) (N.of_nat (length (t0 :: rest)))); [lia|].
    rewrite drop_ge by lia. reflexivity.
  - cbn [get_time_synchronized_from]. rewrite Hnum.
    destruct (N.ltb_spec (N.of_nat m) (N.of_nat (length (t0 :: rest))))
      as [Hlt|Hge].
    + assert (∃ t, (t0 :: rest) !! m = Some t) as [t Ht]
        by (apply lookup_lt_is_Some; lia).
      pose proof (now_times_lookup w _ 0%nat t0 Hn eq_refl) as H0.
      change (N.of_nat 0) with 0%N in H0. rewrite H0.
      rewrite (now_times_lookup w _ m t Hn Ht).
      cbn [mbind outcome_bind]. rewrite (drop_S _ _ _ Ht). cbn [forallb].
      destruct (deviates t0 t); [reflexivity|].
      replace (N.of_nat m + 1)%N with (N.of_nat (S m)) by lia.
      cbn [negb andb]. apply IH; lia.
    + rewrite drop_ge by lia. reflexivity.
Qed.

(** The instants the source builds from its two literals. *)
Lemma time_spec_t_of_double_0_01 :
  (time_spec_t_of_double 0.01 == 5764607523034235 # 576460752303423488)%Q
  ∧ (1 # 100 < time_spec_t_of_double 0.01)%Q.
Proof. split; vm_compute; reflexivity. Qed.

Lemma time_spec_t_of_double_1_1 :
  (time_spec_t_of_double 1.1 == 4953959590107546 # 4503599627370496)%Q
  ∧ (11 # 10 < time_spec_t_of_double 1.1)%Q.
Proof. split; vm_compute; reflexivity. Qed.

(** C7, with the bound the code has.  On a device whose boards report the
    times [times] as their "now", [get_time_synchronized] returns, leaves
    the device, the messages and the record of writes as they were, and
    answers [true] exactly when every board [m >= 1] is not behind board 0
    and not ahead of it by more than [time_spec_t(0.01)], the instant of the
    double nearest to 0.01: that is 5764607523034235 / 2^59 seconds, more
    than 10 milliseconds.  So it answers [true] when all boards report the
    same time, and when no board [m >= 1] is behind board 0 or more than 10
    milliseconds ahead of it; and it answers [false] when some board
    [m >= 1] is behind board 0 or ahead of it by more than that double. *)
Theorem get_time_synchronized_spec w times :
  now_times w times →
  (time_spec_t_of_double 0.01 == 5764607523034235 # 576460752303423488)%Q
  ∧ (1 # 100 < time_spec_t_of_double 0.01)%Q
  ∧ ∃ ok : bool,
      liftR get_time_synchronized w = (Ok ok, w)
      ∧ (ok = true ↔
         ∀ (m : nat) t0 tm,
           (1 ≤ m)%nat → times !! 0%nat = Some t0 → times !! m = Some tm →
           (t0 <= tm)%Q ∧ (tm - t0 <= time_spec_t_of_double 0.01)%Q)
      ∧ ((∀ (m : nat) t0 tm,
            times !! 0%nat = Some t0 → times !! m = Some tm → (tm == t0)%Q) →
         ok = true)
      ∧ ((∀ (m : nat) t0 tm,
            (1 ≤ m)%nat → times !! 0%nat = Some t0 → times !! m = Some tm →
            (t0 <= tm)%Q ∧ (tm - t0 <= 1 # 100)%Q) →
         ok = true)
      ∧ (∀ (m : nat) t0 tm,
           (1 ≤ m)%nat → times !! 0%nat = Some t0 → times !! m = Some tm →
           (tm < t0)%Q ∨ (time_spec_t_of_double 0.01 < tm - t0)%Q →
           ok = false).
Proof.
  intros Hn. destruct time_spec_t_of_double_0_01 as [Hval Hgap].
  split; [exact Hval|]. split; [exact Hgap|].
  assert (∃ ok : bool,
            get_time_synchronized w = Ok ok
            ∧ (ok = true ↔
               ∀ (m : nat) t0 tm,
                 (1 ≤ m)%nat → times !! 0%nat = Some t0 →
                 times !! m = Some tm →
                 (t0 <= tm)%Q
                 ∧ (tm - t0 <= time_spec_t_of_double 0.01)%Q))
    as (ok & Hrun & Hiff).
  { destruct times as [|t0 rest].
    - exists true. split.
      + unfold get_time_synchronized.
        pose proof (Forall2_length _ _ _ Hn) as Hlen. rewrite Hlen.
        cbn [get_time_synchronized_from length].
        unfold get_num_mboards, size. rewrite Hlen. reflexivity.
      + split; [|reflexivity]. intros _ m t0 tm _ Hm. discriminate.
    - eexists. split.
      + unfold get_time_synchronized.
        apply (get_time_synchronized_from_spec w t0 rest Hn _ 1%nat);
          [lia|]. rewrite (Forall2_length _ _ _ Hn). simpl. lia.
      + cbn [drop]. rewrite forallb_forall. split.
        * intros Hall m t0' tm Hm [= <-] Htm.
          destruct m as [|m]; [lia|]. cbn in Htm.
          apply deviates_false, negb_true_iff, Hall.
          apply list_elem_of_In, list_elem_of_lookup. eauto.
        * intros Hall t Hin. apply list_elem_of_In in Hin.
          apply list_elem_of_lookup in Hin as [i Hi].
          apply negb_true_iff, deviates_false.
          apply (Hall (S i) t0 t); [lia | reflexivity | exact Hi]. }
  exists ok. split; [unfold liftR; by rewrite Hrun|].
  split; [exact Hiff|]. split; [|split].
  - intros Hsame. apply Hiff. intros m t0 tm _ H0 Hm.
    pose proof (Hsame m t0 tm H0 Hm). split; lra.
  - intros Hnear. apply Hiff. intros m t0 tm Hm H0 Htm.
    destruct (Hnear m t0 tm Hm H0 Htm). split; lra.
  - intros m t0 tm Hm H0 Htm Hdev. destruct ok; [|reflexivity].
    destruct (proj1 Hiff eq_refl m t0 tm Hm H0 Htm) as [Hle Hle'].
    destruct Hdev as [Hdev|Hdev].
    + lra.
    + lra.
Qed.

(** *** Waiting for the PPS edge *)

Lemma mboard_get_ext w w' (mboard : N) k :
  mboards w = mboards w' → mboard_get mboard k w = mboard_get mboard k w'.
Proof.
  intros E. unfold mboard_get, _mboard, prop_get. by rewrite E.
Qed.

Lemma elapsed_S k w : elapsed (S k) w = elapsed k (tick w).2.
Proof. reflexivity. Qed.

Lemma writes_elapsed k w : writes (elapsed k w) = writes w.
Proof. revert w. induction k as [|k IH]; intros w; [reflexivity|]. by rewrite elapsed_S, IH. Qed.

Lemma mboards_elapsed_ext k w w' :
  mboards w = mboards w' → mboards (elapsed k w) = mboards (elapsed k w').
Proof.
  revert w w'. induction k as [|k IH]; intros w w' E; [exact E|].
  rewrite !elapsed_S. apply IH. simpl. by rewrite E.
Qed.

Lemma time_ne_false (a b : time_spec_t) : (a == b)%Q → time_ne a b = false.
Proof.
  intros E. unfold time_ne. apply negb_false_iff. by apply Qeq_bool_iff.
Qed.

Lemma time_gt_true (a b : time_spec_t) : time_gt a b = true ↔ (b < a)%Q.
Proof.
  unfold time_gt, time_lt. rewrite negb_true_iff.
  split.
  - intros E. apply Qnot_le_lt. intros Hle.
    apply Qle_bool_iff in Hle. congruence.
  - intros Hlt. destruct (Qle_bool a b) eqn:E; [|reflexivity].
    apply Qle_bool_iff in E. lra.
Qed.

(** If the capture register of board 0 stays at [p0] and its clock is more
    than [time_spec_t(1.1)] past [t0] in round [d], the loop raises in round
    [d] at the latest, having written nothing. *)
Lemma wait_for_pps_times_out (t0 p0 : time_spec_t) d :
  ∀ w,
    (∀ k, (k ≤ d)%nat → ∃ p, get_time_last_pps 0 (elapsed k w) = Ok p ∧ (p == p0)%Q) →
    (∀ k, (k ≤ d)%nat → ∃ t, get_time_now 0 (elapsed k w) = Ok t) →
    (∃ t, get_time_now 0 (elapsed d w) = Ok t
          ∧ (time_spec_t_of_double 1.1 < t - t0)%Q) →
    ∀ fuel, (d < fuel)%nat →
      ∃ w', wait_for_pps fuel t0 p0 w = (Throw (runtime_error no_pps_what), w')
            ∧ writes w' = writes w ∧ msgs w' = msgs w.
Proof.
  induction d as [|d IH]; intros w Hpps Hnow Hlate fuel Hfuel;
    (destruct fuel as [|fuel]; [lia|]);
    destruct (Hpps 0%nat ltac:(lia)) as (p & Hp & Ep);
    destruct (Hnow 0%nat ltac:(lia)) as (t & Ht);
    cbn [elapsed] in Hp, Ht;
    cbn [wait_for_pps]; unfold bindM at 1, liftR at 1; rewrite Hp;
    rewrite (time_ne_false _ _ Ep);
    unfold bindM at 1, liftR at 1; rewrite Ht.
  - destruct Hlate as (t' & Ht' & Hl). cbn [elapsed] in Ht'.
    rewrite Ht in Ht'. injection Ht' as <-.
    unfold time_sub. rewrite (proj2 (time_gt_true _ _) Hl).
    exists w. by repeat split.
  - destruct (time_gt (time_sub t t0) (time_spec_t_of_double 1.1)) eqn:E.
    + exists w. by repeat split.
    + unfold bindM at 1.
      destruct (IH (tick w).2) with (fuel := fuel)
        as (w' & Hrun & Hw & Hm).
      * intros k Hk. apply (Hpps (S k)). lia.
      * intros k Hk. apply (Hnow (S k)). lia.
      * exact Hlate.
      * lia.
      * exists w'. split; [exact Hrun|]. by rewrite Hw, Hm.
Qed.

(** C6, with the bound the code has.  If, round after round of the wait
    loop, the "time at last PPS" of board 0 reads the same as at the start
    while its "now" can be read, and in some round "now" is more than
    [time_spec_t(1.1)] past its value at the start (the instant of the
    double nearest to 1.1: that is 4953959590107546 / 2^52 seconds, more
    than 1.1 seconds), then [set_time_unknown_pps] raises the runtime error
    whose text names the missing PPS signal (for every amount of fuel past
    that round), and nothing was written through the tree: the record of
    writes is as it was when the call began. *)
Theorem set_time_unknown_pps_times_out (w : world B) (time_spec p0 : time_spec_t) :
  (∀ k, ∃ p, get_time_last_pps 0 (elapsed k w) = Ok p ∧ (p == p0)%Q) →
  (∀ k, ∃ t, get_time_now 0 (elapsed k w) = Ok t) →
  (∃ k t0 t, get_time_now 0 w = Ok t0
             ∧ get_time_now 0 (elapsed k w) = Ok t
             ∧ (time_spec_t_of_double 1.1 < t - t0)%Q) →
  (time_spec_t_of_double 1.1 == 4953959590107546 # 4503599627370496)%Q
  ∧ (11 # 10 < time_spec_t_of_double 1.1)%Q
  ∧ ∃ fuel0, ∀ fuel, (fuel0 ≤ fuel)%nat →
      ∃ w', set_time_unknown_pps fuel time_spec w
            = (Throw
                 (runtime_error
                    ("Board 0 may not be getting a PPS signal!" ++ nl ++
                     "No PPS detected within the time interval." ++ nl ++
                     "See the application notes for your device." ++ nl)),
               w')
            ∧ writes w' = writes w
            ∧ msgs w'
              = msgs w ++ [status "    1) catch time transition at pps edge"].
Proof.
  intros Hpps Hnow (d & t0 & t & Ht0 & Ht & Hlate).
  destruct time_spec_t_of_double_1_1 as [Hval Hgap].
  split; [exact Hval|]. split; [exact Hgap|].
  change ("Board 0 may not be getting a PPS signal!" ++ nl ++
          "No PPS detected within the time interval." ++ nl ++
          "See the application notes for your device." ++ nl)%string
    with no_pps_what.
  exists (S d). intros fuel Hfuel.
  set (w1 := mk_world (dev_name w) (mboards w)
               (msgs w ++ [status "    1) catch time transition at pps edge"])
               (writes w)).
  assert (∀ k mb key, mboard_get mb key (elapsed k w1)
                      = mboard_get mb key (elapsed k w)) as Hext.
  { intros. apply mboard_get_ext. by apply mboards_elapsed_ext. }
  destruct (Hpps 0%nat) as (p & Hp & Ep). cbn [elapsed] in Hp.
  destruct (wait_for_pps_times_out t0 p d w1) with (fuel := fuel)
    as (w' & Hrun & Hw & Hm).
  - intros k _. destruct (Hpps k) as (p' & Hp' & Ep').
    exists p'. unfold get_time_last_pps. rewrite Hext.
    split; [exact Hp'|]. by rewrite Ep', Ep.
  - intros k _. destruct (Hnow k) as (t' & Ht').
    exists t'. unfold get_time_now. by rewrite Hext.
  - exists t. split; [|exact Hlate]. unfold get_time_now. by rewrite Hext.
  - lia.
  - exists w'. unfold set_time_unknown_pps.
    unfold bindM at 1. cbn [UHD_MSG]. fold w1.
    unfold bindM at 1, liftR at 1.
    replace (get_time_now 0 w1) with (get_time_now 0 w)
      by (unfold get_time_now; by rewrite <- (Hext 0%nat)).
    rewrite Ht0.
    unfold bindM at 1, liftR at 1.
    replace (get_time_last_pps 0 w1) with (get_time_last_pps 0 w)
      by (unfold get_time_last_pps; by rewrite <- (Hext 0%nat)).
    rewrite Hp.
    unfold bindM at 1. rewrite Hrun. by repeat split.
Qed.
End time.

Section rates.
Context {B : Type} `{!Board B}.
Implicit Types (w : world B) (b : B).

Lemma do_samp_rate_warning_message_spec target actual name w :
  do_samp_rate_warning_message target actual name w
  = (Ok tt,
     mk_world (dev_name w) (mboards w)
       (msgs w ++
          if out_of_tolerance target actual
          then [samp_rate_warning name (PrimFloat.div target 1e6)
                  (PrimFloat.div actual 1e6)]
          else [])
       (writes w)).
Proof.
  unfold do_samp_rate_warning_message, out_of_tolerance, max_allowed_error.
  destruct (PrimFloat.ltb _ _); [reflexivity|].
  rewrite app_nil_r. by destruct w.
Qed.

Lemma do_tune_freq_warning_message_spec target actual name w :
  do_tune_freq_warning_message target actual name w
  = (Ok tt,
     mk_world (dev_name w) (mboards w)
       (msgs w ++
          if out_of_tolerance target actual
          then [tune_freq_warning name (PrimFloat.div target 1e6)
                  (PrimFloat.div actual 1e6)]
          else [])
       (writes w)).
Proof.
  unfold do_tune_freq_warning_message, out_of_tolerance, max_allowed_error.
  destruct (PrimFloat.ltb _ _); [reflexivity|].
  rewrite app_nil_r. by destruct w.
Qed.

Lemma fan_out_one depth ALL count (one : N → M B unit) (i : N) :
  i ≠ ALL → fan_out depth ALL count one i = one i.
Proof.
  intros Hne. destruct depth; simpl;
    (destruct (N.eqb_spec i ALL); [congruence | reflexivity]).
Qed.

(** A rate set on one channel: once the DSP has taken the write and the rate
    reads back as [actual], the call succeeds whatever [actual] is, and sends
    one warning, naming the direction, exactly when [actual] is out of
    tolerance. *)
Lemma set_xx_rate_spec d (rate : float) (chan : N) w dsp w1 actual :
  chan ≠ ALL_CHANS →
  _xx_dsp d chan w = Ok dsp →
  prop_set dsp DSP_PROP_HOST_RATE (VDouble rate) w = (Ok tt, w1) →
  get_xx_rate d chan w1 = Ok actual →
  set_xx_rate d rate chan w
  = (Ok tt,
     mk_world (dev_name w1) (mboards w1)
       (msgs w1 ++
          if out_of_tolerance rate actual
          then [samp_rate_warning (xx d) (PrimFloat.div rate 1e6)
                  (PrimFloat.div actual 1e6)]
          else [])
       (writes w1)).
Proof.
  intros Hne Hdsp Hset Hget. unfold set_xx_rate.
  rewrite fan_out_one by exact Hne. unfold set_xx_rate_chan.
  unfold bindM at 1, liftR at 1. rewrite Hdsp.
  unfold bindM at 1. rewrite Hset.
  unfold bindM at 1, liftR at 1. rewrite Hget.
  apply do_samp_rate_warning_message_spec.
Qed.
End rates.

Section fan_out.
Context {B : Type} `{!Board B}.
Implicit Types (w : world B) (b : B) (body : N → M B unit).

(** A loop whose bound its body leaves alone runs the body on every index
    below the bound, in a row. *)
Lemma for_loop_from_sequentially (count : world B → result N) body :
  (∀ i w, count (body i w).2 = count w) →
  ∀ (k : nat) (from : N) w n budget,
    count w = Ok n → (from + N.of_nat k = n)%N → (k ≤ budget)%nat →
    for_loop_from budget count body from w = sequentially body from k w.
Proof.
  intros Hstable. induction k as [|k IH]; intros from w n budget Hn Hk Hb.
  - destruct budget; cbn [for_loop_from sequentially]; rewrite Hn;
      (destruct (N.ltb_spec from n); [lia | reflexivity]).
  - destruct budget as [|budget]; [lia|].
    cbn [for_loop_from sequentially]. rewrite Hn.
    destruct (N.ltb_spec from n); [|lia].
    unfold bindM. specialize (Hstable from w).
    destruct (body from w) as [[[]| |] w1]; try reflexivity.
    cbn [snd] in Hstable.
    apply (IH _ _ n); [by rewrite Hstable | lia | lia].
Qed.

Lemma for_loop_sequentially (count : world B → result N) body w n :
  (∀ i w, count (body i w).2 = count w) →
  count w = Ok n →
  for_loop 0 count body w = sequentially body 0 (N.to_nat n) w.
Proof.
  intros Hstable Hn. unfold for_loop. rewrite Hn.
  apply (for_loop_from_sequentially count body Hstable _ _ _ n); [exact Hn|lia..].
Qed.

Lemma sequentially_ext body body' (k : nat) (from : N) w :
  (∀ i, (from ≤ i < from + N.of_nat k)%N → body i = body' i) →
  sequentially body from k w = sequentially body' from k w.
Proof.
  revert from w. induction k as [|k IH]; intros from w Hext; [reflexivity|].
  cbn [sequentially]. unfold bindM. rewrite (Hext from) by lia.
  destruct (body' from w) as [[[]| |] w1]; try reflexivity.
  apply IH. intros i Hi. apply Hext. lia.
Qed.

(** The first call that raises ends the row. *)
Lemma sequentially_abort body (j k : nat) (from : N) w wj e w' :
  (j < k)%nat →
  sequentially body from j w = (Ok tt, wj) →
  body (from + N.of_nat j)%N wj = (Throw e, w') →
  sequentially body from k w = (Throw e, w').
Proof.
  revert k from w. induction j as [|j IH]; intros k from w Hjk Hrun Hthrow;
    (destruct k as [|k]; [lia|]); cbn [sequentially] in *.
  - injection Hrun as <-. rewrite N.add_0_r in Hthrow.
    unfold bindM. by rewrite Hthrow.
  - unfold bindM in *. destruct (body from w) as [[[]| |] w1]; try discriminate.
    apply (IH k (from + 1)%N w1); [lia | exact Hrun|].
    by replace (from + 1 + N.of_nat j)%N with (from + N.of_nat (S j))%N by lia.
Qed.

(** The setters: each fans its one-index branch out. *)
Lemma fan_out_fans_out ALL (count : world B → result N) (one : N → M B unit) w :
  (∀ i w, count (one i w).2 = count w) →
  fans_out ALL (fan_out 1 ALL count one) count w.
Proof.
  intros Hstable n Hn Hle.
  assert (fan_out 1 ALL count one ALL w
          = sequentially (fan_out 1 ALL count one) 0 (N.to_nat n) w) as Hall.
  { cbn [fan_out]. rewrite N.eqb_refl. cbn [negb].
    rewrite (for_loop_sequentially count _ w n).
    - apply sequentially_ext. intros i Hi.
      destruct (N.eqb_spec i ALL); [lia | reflexivity].
    - intros i w0. destruct (negb (i =? ALL)%N); [apply Hstable | reflexivity].
    - exact Hn. }
  split; [exact Hall|].
  intros k wk e w' Hk Hrun Hthrow. rewrite Hall.
  apply (sequentially_abort _ k _ 0%N w wk); [exact Hk | exact Hrun|].
  by rewrite N.add_0_l.
Qed.

(** *** What a write leaves *)

Lemma mboard_set_effect k v (f : nat) w b :
  mboards w !! f = Some b →
  mboard_set k v (N.of_nat f) w
  = ((board_set mboard_node k v b).1,
     mk_world (dev_name w) (<[f := (board_set mboard_node k v b).2]> (mboards w))
       (msgs w) (writes w ++ [(mk_obj f mboard_node, k, v)])).
Proof.
  intros Hb. unfold mboard_set, bindM, liftR.
  rewrite (_mboard_Some w (N.of_nat f) b) by (by rewrite Nat2N.id).
  unfold prop_set. cbn [on_mboard at_node]. rewrite Nat2N.id, Hb.
  by destruct (board_set mboard_node k v b).
Qed.

Lemma mboards_prop_set_length o k v w :
  length (mboards (prop_set o k v w).2) = length (mboards w).
Proof.
  unfold prop_set. destruct (mboards w !! on_mboard o); [|reflexivity].
  destruct (board_set _ _ _ _). cbn. apply length_insert.
Qed.

Lemma num_mboards_mboard_set k v i w :
  num_mboards (mboard_set k v i w).2 = num_mboards w.
Proof.
  unfold num_mboards, get_num_mboards, size, mboard_set, bindM, liftR.
  destruct (_mboard i w) as [o| |]; try reflexivity.
  by rewrite mboards_prop_set_length.
Qed.

(** The subdevice specifications read from [w'] as from [w]. *)
Lemma get_xx_num_channels_ext d w w' :
  length (mboards w') = length (mboards w) →
  (∀ m, get_xx_subdev_spec d m w' = get_xx_subdev_spec d m w) →
  get_xx_num_channels d w' = get_xx_num_channels d w.
Proof.
  intros Hlen Hspec. unfold get_xx_num_channels. rewrite Hlen.
  generalize (length (mboards w)) as budget. generalize 0%N at 2 4 as sum.
  generalize 0%N as m. intros m sum budget. revert m sum.
  induction budget as [|budget IH]; intros m sum;
    cbn [get_xx_num_channels_from]; unfold get_num_mboards, size;
    rewrite Hlen; [reflexivity|].
  destruct (_ <? _)%N; [|reflexivity].
  rewrite Hspec. destruct (get_xx_subdev_spec d m w); try reflexivity.
  apply IH.
Qed.

Lemma get_xx_subdev_spec_prop_set d m o k v w parent nk name :
  writes_keep_specs B →
  at_node o = named parent nk name →
  get_xx_subdev_spec d m (prop_set o k v w).2 = get_xx_subdev_spec d m w.
Proof.
  intros Hlaw Hnode. unfold prop_set.
  destruct (mboards w !! on_mboard o) as [b|] eqn:Hb; [|reflexivity].
  destruct (board_set (at_node o) k v b) as [r b'] eqn:Hset. cbn [snd].
  unfold get_xx_subdev_spec.
  destruct (decide (N.to_nat m = on_mboard o)) as [E|E].
  - rewrite (mboard_get_Some _ m b') by
      (cbn [mboards]; rewrite E; apply list_lookup_insert_eq;
       by apply lookup_lt_Some in Hb).
    rewrite (mboard_get_Some w m b) by (by rewrite E).
    replace b' with (board_set (at_node o) k v b).2 by (by rewrite Hset).
    rewrite Hnode. by rewrite Hlaw.
  - f_equal. unfold mboard_get, _mboard, at_, prop_get.
    cbn [mboards on_mboard at_node].
    rewrite list_lookup_insert_ne by auto.
    destruct (mboards w !! N.to_nat m); [|reflexivity].
    cbn. by rewrite list_lookup_insert_ne by auto.
Qed.

Lemma _xx_dsp_node d chan w o :
  _xx_dsp d chan w = Ok o → ∃ name, at_node o = named mboard_node (dsp_key d) name.
Proof.
  unfold _xx_dsp. destruct (xx_chan_to_mcp d chan w) as [mcp| |]; try discriminate.
  cbn [mbind outcome_bind].
  destruct (mboard_get (mboard mcp) (dsp_names_key d) w ≫= as_names)
    as [names| |]; try discriminate.
  unfold _mboard. destruct (at_ (mboards w) (mboard mcp)); try discriminate.
  cbn [mbind outcome_bind].
  destruct (at_ names (multi_usrp.chan mcp)) as [name| |]; try discriminate.
  intros [= <-]. by exists name.
Qed.

(** A write to the DSP of a channel leaves the channel count. *)
Lemma get_xx_num_channels_dsp_set d d' chan k v w o :
  writes_keep_specs B →
  _xx_dsp d' chan w = Ok o →
  get_xx_num_channels d (prop_set o k v w).2 = get_xx_num_channels d w.
Proof.
  intros Hlaw Ho. destruct (_xx_dsp_node _ _ _ _ Ho) as [name Hnode].
  apply get_xx_num_channels_ext; [apply mboards_prop_set_length|].
  intros m. by apply (get_xx_subdev_spec_prop_set d m o k v w _ _ _ Hlaw Hnode).
Qed.

Lemma get_xx_num_channels_msgs d w l :
  get_xx_num_channels d (mk_world (dev_name w) (mboards w) l (writes w))
  = get_xx_num_channels d w.
Proof. by apply get_xx_num_channels_ext. Qed.

Lemma get_xx_num_channels_set_xx_rate_chan d d' rate i w :
  writes_keep_specs B →
  get_xx_num_channels d (set_xx_rate_chan d' rate i w).2
  = get_xx_num_channels d w.
Proof.
  intros Hlaw. unfold set_xx_rate_chan, bindM, liftR.
  destruct (_xx_dsp d' i w) as [o| |] eqn:Ho; try reflexivity.
  pose proof (get_xx_num_channels_dsp_set d d' i DSP_PROP_HOST_RATE
                (VDouble rate) w o Hlaw Ho) as Hkeep.
  destruct (prop_set o DSP_PROP_HOST_RATE (VDouble rate) w) as [[[]| |] w1];
    cbn [snd] in *; try exact Hkeep.
  destruct (get_xx_rate d' i w1) as [actual| |]; cbn [snd]; try exact Hkeep.
  rewrite do_samp_rate_warning_message_spec. cbn [snd].
  by rewrite get_xx_num_channels_msgs.
Qed.

Lemma get_rx_num_channels_stream_cmd cmd i w :
  writes_keep_specs B →
  get_rx_num_channels
    (bindM (liftR (_rx_dsp i))
       (λ dsp, prop_set dsp DSP_PROP_STREAM_CMD (VStreamCmd cmd)) w).2
  = get_rx_num_channels w.
Proof.
  intros Hlaw. unfold bindM, liftR.
  destruct (_rx_dsp i w) as [o| |] eqn:Ho; try reflexivity.
  by apply (get_xx_num_channels_dsp_set RX RX i).
Qed.

(** A row of writes to the boards [f], ..., [f + k - 1]. *)
Lemma sequentially_mboard_set key v (setter : N → M B unit) (k : nat) :
  ∀ (f : nat) w wk,
    (∀ i : nat, (i < length (mboards w))%nat →
                setter (N.of_nat i) = mboard_set key v (N.of_nat i)) →
    (f + k ≤ length (mboards w))%nat →
    sequentially setter (N.of_nat f) k w = (Ok tt, wk) →
    writes wk = writes w ++ ((λ i, (mk_obj i mboard_node, key, v)) <$> seq f k)
    ∧ length (mboards wk) = length (mboards w)
    ∧ ∀ j : nat, (f + k ≤ j)%nat → mboards wk !! j = mboards w !! j.
Proof.
  induction k as [|k IH]; intros f w wk Hsetter Hlen Hrun.
  - cbn in Hrun. injection Hrun as <-. cbn. by rewrite app_nil_r.
  - cbn [sequentially] in Hrun. unfold bindM in Hrun.
    rewrite Hsetter in Hrun by lia.
    assert (∃ b, mboards w !! f = Some b) as [b Hb]
      by (apply lookup_lt_is_Some; lia).
    rewrite (mboard_set_effect key v f w b Hb) in Hrun.
    destruct (board_set mboard_node key v b) as [[[]| |] b'];
      cbn [fst snd] in Hrun; try discriminate.
    replace (N.of_nat f + 1)%N with (N.of_nat (S f)) in Hrun by lia.
    apply IH in Hrun as (Hw & Hl & Hrest); cbn [mboards writes] in *.
    + rewrite length_insert in Hl. split; [|split; [exact Hl|]].
      * rewrite Hw. cbn [seq fmap list_fmap]. by rewrite <- app_assoc.
      * intros j Hj. rewrite Hrest by lia.
        apply list_lookup_insert_ne. lia.
    + rewrite length_insert. exact Hsetter.
    + rewrite length_insert. lia.
Qed.

Lemma mboard_setter_leaves_rest key v (one : N → M B unit) w :
  one = mboard_set key v →
  leaves_rest (fan_out 1 ALL_MBOARDS num_mboards one) key v w.
Proof.
  intros -> k wk e w' Hall Hk Hrun Hthrow.
  assert (∀ w0 : world B, length (mboards w0) = length (mboards w) →
          ∀ i : nat, (i < length (mboards w0))%nat →
            fan_out 1 ALL_MBOARDS num_mboards (mboard_set key v) (N.of_nat i)
            = mboard_set key v (N.of_nat i)) as Hsetter.
  { intros w0 Hw0 i Hi. apply fan_out_one. lia. }
  destruct (sequentially_mboard_set key v _ k 0%nat w wk
              (Hsetter w eq_refl) ltac:(lia) Hrun) as (Hw & Hl & Hrest).
  rewrite (Hsetter wk Hl) in Hthrow by lia.
  assert (∃ b, mboards wk !! k = Some b) as [b Hb]
    by (apply lookup_lt_is_Some; lia).
  rewrite (mboard_set_effect key v k wk b Hb) in Hthrow.
  injection Hthrow as _ <-. cbn [writes mboards]. split.
  - rewrite Hw, seq_S, fmap_app, <- app_assoc. reflexivity.
  - intros j Hj. rewrite list_lookup_insert_ne by lia. apply Hrest. lia.
Qed.

(** The case of a setter that goes over the boards. *)
Local Ltac over_the_boards :=
  intros ?; split;
  [ apply fan_out_fans_out; intros; apply num_mboards_mboard_set
  | by apply mboard_setter_leaves_rest ].

(** C5. Each of the eight setters, called with the sentinel, does what its
    calls for the indices [0], ..., [count - 1] do one after the other; so
    when the call for some index is the first to raise, the call with the
    sentinel raises that exception in the world that call left, and no later
    index is visited.  For the setters that go over the boards this is made
    explicit: the writes made are those to the boards up to the failing one,
    and the boards after it are as they were (the boards before it keep what
    was written to them).  The channel setters rely on the device keeping
    its subdevice specifications when a DSP is written to. *)
Theorem sentinel_fans_out (w : world B) :
  writes_keep_specs B →
  (∀ rate,
     fans_out ALL_MBOARDS (set_master_clock_rate rate) num_mboards w
     ∧ leaves_rest (set_master_clock_rate rate)
         MBOARD_PROP_CLOCK_RATE (VDouble rate) w)
  ∧ (∀ time_spec,
       fans_out ALL_MBOARDS (set_time_now time_spec) num_mboards w
       ∧ leaves_rest (set_time_now time_spec)
           MBOARD_PROP_TIME_NOW (VTime time_spec) w)
  ∧ (∀ clock_config,
       fans_out ALL_MBOARDS (set_clock_config clock_config) num_mboards w
       ∧ leaves_rest (set_clock_config clock_config)
           MBOARD_PROP_CLOCK_CONFIG (VClockConfig clock_config) w)
  ∧ (∀ spec,
       fans_out ALL_MBOARDS (set_rx_subdev_spec spec) num_mboards w
       ∧ leaves_rest (set_rx_subdev_spec spec)
           MBOARD_PROP_RX_SUBDEV_SPEC (VSubdevSpec spec) w)
  ∧ (∀ spec,
       fans_out ALL_MBOARDS (set_tx_subdev_spec spec) num_mboards w
       ∧ leaves_rest (set_tx_subdev_spec spec)
           MBOARD_PROP_TX_SUBDEV_SPEC (VSubdevSpec spec) w)
  ∧ (∀ rate, fans_out ALL_CHANS (set_rx_rate rate) get_rx_num_channels w)
  ∧ (∀ rate, fans_out ALL_CHANS (set_tx_rate rate) get_tx_num_channels w)
  ∧ (∀ stream_cmd,
       fans_out ALL_CHANS (issue_stream_cmd stream_cmd) get_rx_num_channels w).
Proof.
  intros Hlaw.
  do 5 (split; [over_the_boards|]).
  split; [|split]; intros ?; apply fan_out_fans_out; intros.
  - by apply (get_xx_num_channels_set_xx_rate_chan RX RX).
  - by apply (get_xx_num_channels_set_xx_rate_chan TX TX).
  - by apply get_rx_num_channels_stream_cmd.
Qed.
End fan_out.

Section pp.
Context {B : Type} `{!Board B}.
Implicit Types (w : world B) (b : B).

Lemma pp_channels_app buff buff' :
  pp_channels (buff ++ buff') = pp_channels buff ++ pp_channels buff'.
Proof. apply omap_app. Qed.

Lemma pp_channel_item_channel d chan w item :
  pp_channel_item d chan w = Ok item → pp_channels [item] = [(d, chan)].
Proof.
  unfold pp_channel_item.
  repeat match goal with
         | |- context [@mbind _ _ _ _ _ ?c] =>
             destruct c; cbn [mbind outcome_bind]; try discriminate
         end.
  by intros [= <-].
Qed.

(** The loop over the names of the boards adds no channel. *)
Lemma pp_mboard_loop_spec w (n : nat) :
  length (mboards w) = n →
  (∀ m : nat, (m < n)%nat → ∃ name, get_mboard_name (N.of_nat m) w = Ok name) →
  ∀ budget (m : nat) buff,
    (n ≤ m + budget)%nat →
    ∃ buff', pp_mboard_loop budget (N.of_nat m) buff w = Ok buff'
             ∧ pp_channels buff' = pp_channels buff.
Proof.
  intros Hlen Hnames.
  assert (get_num_mboards w = N.of_nat n) as Hn
    by (unfold get_num_mboards, size; congruence).
  induction budget as [|budget IH]; intros m buff Hb;
    cbn [pp_mboard_loop]; rewrite Hn;
    destruct (N.ltb_spec (N.of_nat m) (N.of_nat n)) as [Hlt|Hge];
    try lia; try by eexists.
  destruct (Hnames m ltac:(lia)) as [name Hname].
  unfold get_mboard_name in Hname. rewrite Hname. cbn [mbind outcome_bind].
  replace (N.of_nat m + 1)%N with (N.of_nat (S m)) by lia.
  destruct (IH (S m) (buff ++ [pp_mboard (N.of_nat m) name]) ltac:(lia))
    as (buff' & Hrun & Hch).
  exists buff'. split; [exact Hrun|].
  rewrite Hch, pp_channels_app. cbn. by rewrite app_nil_r.
Qed.

(** The loop over the channels of board [m], on a board with [s] channels:
    it lists the channels from [chan] up to [(m + 1) * s]. *)
Lemma pp_chan_loop_spec d w (m s : nat) spec :
  get_xx_subdev_spec d (N.of_nat m) w = Ok spec → size spec = N.of_nat s →
  (N.of_nat ((m + 1) * s) < 2 ^ 64)%N →
  ∀ (k chan : nat) budget buff,
    (chan + k = (m + 1) * s)%nat → (k ≤ budget)%nat →
    (∀ c : nat, (chan ≤ c < (m + 1) * s)%nat →
                ∃ item, pp_channel_item d (N.of_nat c) w = Ok item) →
    ∃ buff',
      pp_chan_loop budget d (N.of_nat m) (N.of_nat chan) buff w
      = Ok (N.of_nat ((m + 1) * s), buff')
      ∧ pp_channels buff' = pp_channels buff ++ channels d chan k.
Proof.
  intros Hspec Hsize Hfit.
  assert (wrap ((N.of_nat m + 1) * N.of_nat s) = N.of_nat ((m + 1) * s))
    as Hbound by (rewrite wrap_small; lia).
  induction k as [|k IH]; intros chan budget buff Hk Hb Hitems.
  - exists buff. split; [|by rewrite app_nil_r].
    destruct budget; cbn [pp_chan_loop]; rewrite Hspec;
      cbn [mbind outcome_bind]; rewrite Hsize, Hbound;
      (destruct (N.ltb_spec (N.of_nat chan) (N.of_nat ((m + 1) * s)));
       [lia | do 2 f_equal; lia]).
  - destruct budget as [|budget]; [lia|].
    cbn [pp_chan_loop]. rewrite Hspec. cbn [mbind outcome_bind].
    rewrite Hsize, Hbound.
    destruct (N.ltb_spec (N.of_nat chan) (N.of_nat ((m + 1) * s)));
      [|lia].
    destruct (Hitems chan ltac:(lia)) as [item Hitem]. rewrite Hitem.
    cbn [mbind outcome_bind].
    replace (N.of_nat chan + 1)%N with (N.of_nat (S chan)) by lia.
    destruct (IH (S chan) budget (buff ++ [item])) as (buff' & Hrun & Hch);
      [lia | lia | intros c Hc; apply Hitems; lia |].
    exists buff'. split; [exact Hrun|].
    rewrite Hch, pp_channels_app, (pp_channel_item_channel _ _ _ _ Hitem).
    unfold channels. cbn [seq fmap list_fmap]. by rewrite <- app_assoc.
Qed.

(** The loop over the boards, all of [s] channels: from board [m] on, with
    [chan] at [m * s], it lists the channels up to [n * s]. *)
Lemma pp_xx_loop_spec d w (n s : nat) :
  spec_sizes d w (replicate n (N.of_nat s)) →
  (N.of_nat (n * s) < 2 ^ 64)%N →
  (∀ c : nat, (c < n * s)%nat →
              ∃ item, pp_channel_item d (N.of_nat c) w = Ok item) →
  ∀ (j m : nat) budget buff,
    (m + j = n)%nat → (j ≤ budget)%nat →
    ∃ buff',
      pp_xx_loop budget d (N.of_nat m) (N.of_nat (m * s)) buff w = Ok buff'
      ∧ pp_channels buff' = pp_channels buff ++ channels d (m * s) (j * s).
Proof.
  intros Hs Hfit Hitems.
  pose proof (spec_sizes_length _ _ _ Hs) as Hlen.
  rewrite length_replicate in Hlen.
  assert (get_num_mboards w = N.of_nat n) as Hn
    by (unfold get_num_mboards, size; congruence).
  induction j as [|j IH]; intros m budget buff Hj Hb.
  - exists buff. split; [|by rewrite app_nil_r].
    destruct budget; cbn [pp_xx_loop]; rewrite Hn;
      (destruct (N.ltb_spec (N.of_nat m) (N.of_nat n)); [lia | reflexivity]).
  - destruct budget as [|budget]; [lia|].
    cbn [pp_xx_loop]. rewrite Hn.
    destruct (N.ltb_spec (N.of_nat m) (N.of_nat n)); [|lia].
    assert (∃ b, mboards w !! m = Some b) as [b Hbm]
      by (apply lookup_lt_is_Some; lia).
    destruct (spec_sizes_lookup _ _ _ _ _ Hs Hbm) as (spec & Hspec & Hsz).
    rewrite lookup_replicate in Hsz. destruct Hsz as [Hsz _].
    assert (N.of_nat ((m + 1) * s) < 2 ^ 64)%N as Hfit_m by nia.
    destruct (pp_chan_loop_spec d w m s spec Hspec Hsz Hfit_m s (m * s)%nat
                (pp_budget d (N.of_nat m) w) buff)
      as (buff1 & Hrun1 & Hch1).
    + lia.
    + unfold pp_budget. rewrite Hspec, Hsz, wrap_small; nia.
    + intros c Hc. apply Hitems. nia.
    + rewrite Hrun1. cbn [mbind outcome_bind].
      replace (N.of_nat m + 1)%N with (N.of_nat (S m)) by lia.
      replace ((m + 1) * s)%nat with (S m * s)%nat by lia.
      destruct (IH (S m) budget buff1) as (buff' & Hrun & Hch); [lia | lia|].
      exists buff'. split; [exact Hrun|].
      rewrite Hch, Hch1, <- app_assoc. f_equal. unfold channels.
      rewrite <- fmap_app. f_equal.
      replace (S j * s)%nat with (s + j * s)%nat by lia.
      rewrite seq_app. do 2 f_equal. lia.
Qed.

(** On a device of [n] boards that all report [s_rx] RX channels and all
    report [s_tx] TX channels, and whose names can be read, [get_pp_string]
    lists the RX channels [0], ..., [n * s_rx - 1] and then the TX channels
    [0], ..., [n * s_tx - 1], each of them once. *)
Lemma get_pp_string_uniform w (n s_rx s_tx : nat) :
  spec_sizes RX w (replicate n (N.of_nat s_rx)) →
  spec_sizes TX w (replicate n (N.of_nat s_tx)) →
  (N.of_nat (n * s_rx) < 2 ^ 64)%N →
  (N.of_nat (n * s_tx) < 2 ^ 64)%N →
  (∀ m : nat, (m < n)%nat → ∃ name, get_mboard_name (N.of_nat m) w = Ok name) →
  (∀ c : nat, (c < n * s_rx)%nat →
              ∃ item, pp_channel_item RX (N.of_nat c) w = Ok item) →
  (∀ c : nat, (c < n * s_tx)%nat →
              ∃ item, pp_channel_item TX (N.of_nat c) w = Ok item) →
  ∃ buff,
    get_pp_string w = Ok buff
    ∧ pp_channels buff = channels RX 0 (n * s_rx) ++ channels TX 0 (n * s_tx).
Proof.
  intros Hrx Htx Hfrx Hftx Hnames Hirx Hitx.
  pose proof (spec_sizes_length _ _ _ Hrx) as Hlen.
  rewrite length_replicate in Hlen.
  unfold get_pp_string. rewrite Hlen.
  destruct (pp_mboard_loop_spec w n Hlen Hnames n 0%nat
              [pp_header (1 <? get_num_mboards w)%N (dev_name w)])
    as (buff0 & Hrun0 & Hch0); [lia|].
  change (N.of_nat 0) with 0%N in Hrun0. rewrite Hrun0.
  cbn [mbind outcome_bind].
  destruct (pp_xx_loop_spec RX w n s_rx Hrx Hfrx Hirx n 0%nat n buff0)
    as (buff1 & Hrun1 & Hch1); [lia | lia|].
  change (N.of_nat (0 * s_rx)) with 0%N in Hrun1.
  change (N.of_nat 0) with 0%N in Hrun1. rewrite Hrun1.
  cbn [mbind outcome_bind].
  destruct (pp_xx_loop_spec TX w n s_tx Htx Hftx Hitx n 0%nat n buff1)
    as (buff2 & Hrun2 & Hch2); [lia | lia|].
  change (N.of_nat (0 * s_tx)) with 0%N in Hrun2.
  change (N.of_nat 0) with 0%N in Hrun2.
  exists buff2. split; [exact Hrun2|].
  rewrite Hch2, Hch1, Hch0. reflexivity.
Qed.
End pp.

Import sim.

(** C8. [set_rx_rate] and [set_tx_rate] on one channel: once the DSP has
    taken the write and the rate reads back as [actual], the call succeeds
    whatever [actual] is, and sends one warning, naming "RX" or "TX", exactly
    when the absolute difference of target and [actual], computed in doubles,
    exceeds 1.0; the frequency helper applies the same test with 1.0 Hz.  A
    target of 1000000.0 with 1000000.6 achieved is within tolerance (as is
    1000001.0, a difference of exactly 1.0) and leaves the messages as they
    were; with 1000001.5 achieved one warning naming the direction is
    sent. *)
Theorem rate_warning_tolerance :
  (∀ B (HB : Board B) d (rate : float) (chan : N) (w : world B) dsp w1 actual,
     chan ≠ ALL_CHANS →
     match d with RX => _rx_dsp | TX => _tx_dsp end chan w = Ok dsp →
     prop_set dsp DSP_PROP_HOST_RATE (VDouble rate) w = (Ok tt, w1) →
     match d with RX => get_rx_rate | TX => get_tx_rate end chan w1 = Ok actual →
     match d with RX => set_rx_rate | TX => set_tx_rate end rate chan w
     = (Ok tt,
        mk_world (dev_name w1) (mboards w1)
          (msgs w1 ++
             if out_of_tolerance rate actual
             then [samp_rate_warning (xx d) (PrimFloat.div rate 1e6)
                     (PrimFloat.div actual 1e6)]
             else [])
          (writes w1)))
  ∧ (∀ B (HB : Board B) (target actual : float) name (w : world B),
       do_tune_freq_warning_message target actual name w
       = (Ok tt,
          mk_world (dev_name w) (mboards w)
            (msgs w ++
               if out_of_tolerance target actual
               then [tune_freq_warning name (PrimFloat.div target 1e6)
                       (PrimFloat.div actual 1e6)]
               else [])
            (writes w)))
  ∧ out_of_tolerance 1000000.0 1000000.6 = false
  ∧ out_of_tolerance 1000000.0 1000001.0 = false
  ∧ out_of_tolerance 1000000.0 1000001.5 = true
  ∧ (let r := set_rx_rate 1000000.0 0 (device [tuned_board 1000000.6]) in
     r.1 = Ok tt ∧ msgs r.2 = [])
  ∧ (let r := set_rx_rate 1000000.0 0 (device [tuned_board 1000001.5]) in
     r.1 = Ok tt ∧ msgs r.2 = [samp_rate_warning "RX" 1.0 1.0000015])
  ∧ (let r := set_tx_rate 1000000.0 0 (device [tuned_board 1000000.6]) in
     r.1 = Ok tt ∧ msgs r.2 = [])
  ∧ (let r := set_tx_rate 1000000.0 0 (device [tuned_board 1000001.5]) in
     r.1 = Ok tt ∧ msgs r.2 = [samp_rate_warning "TX" 1.0 1.0000015]).
Proof.
  split.
  { intros B HB [] rate chan w dsp w1 actual; apply set_xx_rate_spec. }
  split; [intros; apply do_tune_freq_warning_message_spec|].
  repeat split; vm_compute; reflexivity.
Qed.

(** The general statement at work: channel 0 of a board whose DSP settles
    1.5 samples a second above the target. *)
Lemma rate_warning_tolerance_witness :
  msgs (set_rx_rate 1000000.0 0 (device [tuned_board 1000001.5])).2
  = [samp_rate_warning "RX" 1.0 1.0000015].
Proof.
  destruct rate_warning_tolerance as (Hset & _).
  set (w := device [tuned_board 1000001.5]).
  assert ((0 : N) ≠ ALL_CHANS) as Hne by discriminate.
  assert (_rx_dsp 0 w
          = Ok (mk_obj 0 (named mboard_node MBOARD_PROP_RX_DSP "dsp0"))) as Hdsp
    by (vm_compute; reflexivity).
  destruct (prop_set (mk_obj 0 (named mboard_node MBOARD_PROP_RX_DSP "dsp0"))
              DSP_PROP_HOST_RATE (VDouble 1000000.0) w) as [r w1] eqn:Hw1.
  assert (r = Ok tt) as -> by (vm_compute in Hw1; congruence).
  assert (get_rx_rate 0 w1 = Ok 1000001.5%float) as Hget
    by (vm_compute in Hw1; injection Hw1 as <-; vm_compute; reflexivity).
  rewrite (Hset _ _ RX 1000000.0%float 0%N w _ w1 _ Hne Hdsp Hw1 Hget).
  vm_compute in Hw1. injection Hw1 as <-. vm_compute. reflexivity.
Defined.

(** C1. On a device whose boards report subdevice specifications of sizes
    [sizes], a flat channel [c] below their sum resolves to the smallest
    board [m] whose cumulative count, board [m] included, exceeds [c], and to
    the index [c] minus the count of the boards before [m]; a channel at or
    past the sum resolves to no board, and the access to its DSP, to its
    daughterboard and to its subdevice raises [std::out_of_range].  This
    holds for [rx_chan_to_mcp] with the RX sizes and for [tx_chan_to_mcp]
    with the TX sizes.  With RX sizes 2, 3 and 1 the channels 0 to 5 resolve
    to (0,0) (0,1) (1,0) (1,1) (1,2) (2,0), and 6 is out of range. *)
Theorem chan_to_mcp_resolves :
  (∀ B (HB : Board B) (w : world B) sizes (c : N),
     spec_sizes RX w sizes →
     ((c < sum_sizes sizes)%N →
      ∃ m : nat,
        rx_chan_to_mcp c w
        = Ok (mk_mcp (N.of_nat m) (c - sum_sizes (take m sizes)))
        ∧ (m < length sizes)%nat
        ∧ (sum_sizes (take m sizes) ≤ c < sum_sizes (take (S m) sizes))%N
        ∧ ∀ m' : nat, (c < sum_sizes (take (S m') sizes))%N → (m ≤ m')%nat)
     ∧ ((sum_sizes sizes ≤ c)%N →
        rx_chan_to_mcp c w
        = Ok (mk_mcp (get_num_mboards w) (c - sum_sizes sizes))
        ∧ _rx_dsp c w = Throw out_of_range
        ∧ _rx_dboard c w = Throw out_of_range
        ∧ _rx_subdev c w = Throw out_of_range))
  ∧ (∀ B (HB : Board B) (w : world B) sizes (c : N),
     spec_sizes TX w sizes →
     ((c < sum_sizes sizes)%N →
      ∃ m : nat,
        tx_chan_to_mcp c w
        = Ok (mk_mcp (N.of_nat m) (c - sum_sizes (take m sizes)))
        ∧ (m < length sizes)%nat
        ∧ (sum_sizes (take m sizes) ≤ c < sum_sizes (take (S m) sizes))%N
        ∧ ∀ m' : nat, (c < sum_sizes (take (S m') sizes))%N → (m ≤ m')%nat)
     ∧ ((sum_sizes sizes ≤ c)%N →
        tx_chan_to_mcp c w
        = Ok (mk_mcp (get_num_mboards w) (c - sum_sizes sizes))
        ∧ _tx_dsp c w = Throw out_of_range
        ∧ _tx_dboard c w = Throw out_of_range
        ∧ _tx_subdev c w = Throw out_of_range))
  ∧ spec_sizes RX sim.boards_2_3_1 [2; 3; 1]%N
  ∧ map (λ c, rx_chan_to_mcp c sim.boards_2_3_1) [0; 1; 2; 3; 4; 5]%N
    = [Ok (mk_mcp 0 0); Ok (mk_mcp 0 1);
       Ok (mk_mcp 1 0); Ok (mk_mcp 1 1); Ok (mk_mcp 1 2);
       Ok (mk_mcp 2 0)]
  ∧ rx_chan_to_mcp 6 sim.boards_2_3_1 = Ok (mk_mcp 3 0)
  ∧ _rx_dsp 6 sim.boards_2_3_1 = Throw out_of_range.
Proof.
  split; [intros; by apply xx_chan_to_mcp_spec|].
  split; [intros; by apply xx_chan_to_mcp_spec|].
  split.
  { repeat constructor; eexists; (split; [reflexivity|reflexivity]). }
  split; [vm_compute; reflexivity|].
  split; vm_compute; reflexivity.
Qed.

(** The general statement at work: channel 4 of the boards with 2, 3 and 1
    RX channels. *)
Lemma chan_to_mcp_resolves_witness :
  ∃ m : nat,
    rx_chan_to_mcp 4 sim.boards_2_3_1
    = Ok (mk_mcp (N.of_nat m) (4 - sum_sizes (take m [2; 3; 1]%N)))
    ∧ (m < 3)%nat.
Proof.
  destruct chan_to_mcp_resolves as (Hrx & _ & Hsizes & _).
  destruct (Hrx _ _ sim.boards_2_3_1 [2; 3; 1]%N 4%N Hsizes) as [Hin _].
  destruct (Hin ltac:(vm_compute; reflexivity)) as (m & Hm & Hlt & _).
  exists m. split; [exact Hm | exact Hlt].
Defined.

(** C10.  On a device of [n] boards that all report [s_rx] RX channels and
    all report [s_tx] TX channels (totals that fit a [size_t]), and on which
    the names of the boards and of the channels below the totals can be read, the channel counts are
    [n * s_rx] and [n * s_tx], and [get_pp_string] returns a buffer that
    lists the RX channels [0], ..., [n * s_rx - 1] and then the TX channels
    [0], ..., [n * s_tx - 1], each once.  The bound of the inner loop is
    [(m + 1)] times the size of board [m], not the sum of the sizes up to
    board [m]: on boards with 1 and 2 RX channels the loop of the second
    board goes on to channel 3, and the call raises [std::out_of_range]. *)
Theorem get_pp_string_lists_channels :
  (∀ B (HB : Board B) (w : world B) (n s_rx s_tx : nat),
     spec_sizes RX w (replicate n (N.of_nat s_rx)) →
     spec_sizes TX w (replicate n (N.of_nat s_tx)) →
     (N.of_nat (n * s_rx) < 2 ^ 64)%N →
     (N.of_nat (n * s_tx) < 2 ^ 64)%N →
     (∀ m : nat, (m < n)%nat →
                 ∃ name, get_mboard_name (N.of_nat m) w = Ok name) →
     (∀ c : nat, (c < n * s_rx)%nat →
                 ∃ item, pp_channel_item RX (N.of_nat c) w = Ok item) →
     (∀ c : nat, (c < n * s_tx)%nat →
                 ∃ item, pp_channel_item TX (N.of_nat c) w = Ok item) →
     get_rx_num_channels w = Ok (N.of_nat (n * s_rx))
     ∧ get_tx_num_channels w = Ok (N.of_nat (n * s_tx))
     ∧ ∃ buff,
         get_pp_string w = Ok buff
         ∧ pp_channels buff
           = channels RX 0 (n * s_rx) ++ channels TX 0 (n * s_tx))
  ∧ spec_sizes RX boards_1_2 [1; 2]%N
  ∧ get_rx_num_channels boards_1_2 = Ok 3%N
  ∧ pp_chan_loop 4 RX 1 1 [] boards_1_2 = Throw out_of_range
  ∧ get_pp_string boards_1_2 = Throw out_of_range.
Proof.
  split.
  { intros B HB w n s_rx s_tx Hrx Htx Hfrx Hftx Hnames Hirx Hitx.
    split; [|split].
    - unfold get_rx_num_channels.
      rewrite (get_xx_num_channels_spec _ _ _ Hrx);
        rewrite sum_sizes_replicate; [f_equal|]; lia.
    - unfold get_tx_num_channels.
      rewrite (get_xx_num_channels_spec _ _ _ Htx);
        rewrite sum_sizes_replicate; [f_equal|]; lia.
    - by apply get_pp_string_uniform. }
  split.
  { repeat constructor; eexists; (split; [reflexivity|reflexivity]). }
  repeat split; vm_compute; reflexivity.
Qed.

(** The general statement at work: two boards with two RX channels and one
    TX channel each. *)
Lemma get_pp_string_lists_channels_witness :
  ∃ buff,
    get_pp_string boards_2_2 = Ok buff
    ∧ pp_channels buff = [(RX, 0); (RX, 1); (RX, 2); (RX, 3); (TX, 0); (TX, 1)]%N.
Proof.
  destruct get_pp_string_lists_channels as (Hgen & _).
  destruct (Hgen _ _ boards_2_2 2%nat 2%nat 1%nat) as (_ & _ & buff & Hrun & Hch).
  - repeat constructor; eexists; (split; [reflexivity|reflexivity]).
  - repeat constructor; eexists; (split; [reflexivity|reflexivity]).
  - vm_compute. reflexivity.
  - vm_compute. reflexivity.
  - intros [|[|m]] Hm; try lia; eexists; vm_compute; reflexivity.
  - intros [|[|[|[|c]]]] Hc; try lia; eexists; vm_compute; reflexivity.
  - intros [|[|c]] Hc; try lia; eexists; vm_compute; reflexivity.
  - exists buff. split; [exact Hrun | exact Hch].
Defined.

(** *** The simulated boards *)

Lemma sim_writes_keep_specs : writes_keep_specs board.
Proof.
  intros b parent nk name k v d. cbn [board_set sim_board]. unfold sim_set.
  destruct (sim_accept b (named parent nk name) k v) as [v'| |];
    cbn [snd]; try reflexivity.
  cbn [board_get sim_board]. unfold sim_get.
  replace (volatile mboard_node (subdev_spec_key d)) with false
    by (by destruct d).
  cbn [sim_written with_state].
  rewrite dict_facts.get_set_ne by discriminate.
  destruct (dict.get (sim_written b) (mboard_node, subdev_spec_key d));
    [reflexivity|]. by destruct d.
Qed.

Lemma sim_elapsed k (w : world board) :
  mboards (elapsed k w)
  = (λ b, with_state b (sim_ticks b + k) (sim_written b)) <$> mboards w.
Proof.
  revert w. induction k as [|k IH]; intros w.
  - cbn [elapsed]. rewrite <- (list_fmap_id (mboards w)) at 1.
    apply list_fmap_ext. intros _ [] _. cbn. unfold with_state. cbn.
    by rewrite Nat.add_0_r.
  - cbn [elapsed]. rewrite IH. cbn [tick snd mboards].
    rewrite <- list_fmap_compose. apply list_fmap_ext. intros _ b _.
    cbn. unfold with_state. cbn. f_equal. lia.
Qed.

(** C5 at work: three boards, the second of which refuses a new clock rate.
    The call for all boards raises what the second board raises; the first
    two boards were written to, the third was not. *)
Lemma sentinel_fans_out_witness :
  ∃ w',
    set_master_clock_rate 5e6 ALL_MBOARDS boards_locked
    = (Throw (device_error 7), w')
    ∧ writes w'
      = [(mk_obj 0 mboard_node, MBOARD_PROP_CLOCK_RATE, VDouble 5e6);
         (mk_obj 1 mboard_node, MBOARD_PROP_CLOCK_RATE, VDouble 5e6)]
    ∧ mboards w' !! 2%nat = mboards boards_locked !! 2%nat.
Proof.
  destruct (sentinel_fans_out boards_locked sim_writes_keep_specs)
    as (Hrate & _).
  destruct (Hrate 5e6%float) as [Hfan Hrest].
  destruct (Hfan 3%N eq_refl ltac:(vm_compute; discriminate)) as [_ Habort].
  destruct (set_master_clock_rate 5e6 0 boards_locked) as [r0 w0] eqn:H0.
  assert (r0 = Ok tt) as -> by (vm_compute in H0; congruence).
  destruct (set_master_clock_rate 5e6 1 w0) as [r1 w1] eqn:H1.
  assert (r1 = Throw (device_error 7)) as ->
    by (vm_compute in H0; injection H0 as <-; vm_compute in H1; congruence).
  assert (sequentially (set_master_clock_rate 5e6) 0 1 boards_locked
          = (Ok tt, w0)) as Hrun.
  { cbn [sequentially]. unfold bindM. by rewrite H0. }
  destruct (Hrest 1%nat w0 (device_error 7) w1) as [Hw Hb];
    [vm_compute; discriminate | vm_compute; lia | exact Hrun | exact H1 |].
  exists w1. split; [|split].
  - apply (Habort 1%nat w0); [vm_compute; lia | exact Hrun | exact H1].
  - exact Hw.
  - apply Hb. lia.
Defined.

(** C6 at work: the clock of board 0 gains half a second a round and its
    PPS capture register stays at 0; the call raises from round 3 on, having
    written nothing. *)
Lemma set_time_unknown_pps_times_out_witness :
  ∃ fuel0, ∀ fuel, (fuel0 ≤ fuel)%nat →
    ∃ w', set_time_unknown_pps fuel 5%Q boards_2_2
          = (Throw (runtime_error no_pps_what), w')
          ∧ writes w' = [].
Proof.
  destruct (set_time_unknown_pps_times_out boards_2_2 5%Q 0%Q)
    as (_ & _ & fuel0 & H).
  - intros k. exists 0%Q. split; [|reflexivity].
    unfold get_time_last_pps.
    erewrite mboard_get_Some by (rewrite sim_elapsed; reflexivity).
    reflexivity.
  - intros k. eexists. unfold get_time_now.
    erewrite mboard_get_Some by (rewrite sim_elapsed; reflexivity).
    reflexivity.
  - exists 3%nat. eexists. eexists.
    split; [vm_compute; reflexivity|].
    split; [vm_compute; reflexivity|].
    vm_compute. reflexivity.
  - exists fuel0. intros fuel Hfuel.
    destruct (H fuel Hfuel) as (w' & Hrun & Hw & _).
    exists w'. split; [exact Hrun | exact Hw].
Defined.

(** The wait loop on a board like that of [boards_stalled]: the capture
    register reads 0 and the clock is never more than [time_spec_t(1.1)] past
    0, so every round polls again. *)
Lemma stalled_polls_on fuel :
  ∀ (k : nat) name ms ws wr,
    (wait_for_pps fuel 0%Q 0%Q
       (mk_world name
          [with_state (stalled_board "mb0" (time_spec_t_of_double 1.1)) k wr]
          ms ws)).1
    = OutOfFuel.
Proof.
  assert (time_gt (time_sub 0%Q 0%Q) (time_spec_t_of_double 1.1) = false) as H0
    by (vm_compute; reflexivity).
  assert (time_gt (time_sub (time_spec_t_of_double 1.1) 0%Q)
            (time_spec_t_of_double 1.1) = false) as H1
    by (vm_compute; reflexivity).
  induction fuel as [|fuel IH]; intros k name ms ws wr; [reflexivity|].
  cbn [wait_for_pps]. unfold bindM at 1, liftR at 1.
  set (w := mk_world name _ ms ws).
  assert (get_time_last_pps 0%N w = Ok 0%Q) as -> by reflexivity.
  change (time_ne 0%Q 0%Q) with false. cbv iota.
  unfold bindM at 1, liftR at 1.
  destruct k as [|k].
  - assert (get_time_now 0%N w = Ok 0%Q) as -> by reflexivity.
    rewrite H0. unfold bindM at 1. exact (IH 1%nat name ms ws wr).
  - assert (get_time_now 0%N w = Ok (time_spec_t_of_double 1.1)) as ->
      by reflexivity.
    rewrite H1. unfold bindM at 1. exact (IH (S (S k)) name ms ws wr).
Qed.

(** C6 as stated fails: the capture register of board 0 never changes, and
    from the first poll on its clock stands at the instant of the double
    nearest to 1.1, which is more than 1.1 seconds past the start; the call
    raises nothing, it polls on for ever (whatever the fuel, the loop uses
    it up). *)
Lemma stalled_clock_never_times_out :
  get_time_now 0%N boards_stalled = Ok 0%Q
  ∧ (∀ k, get_time_last_pps 0%N (elapsed k boards_stalled) = Ok 0%Q)
  ∧ (∀ k, get_time_now 0%N (elapsed (S k) boards_stalled)
          = Ok (time_spec_t_of_double 1.1))
  ∧ (11 # 10 < time_spec_t_of_double 1.1 - 0)%Q
  ∧ ∀ fuel time_spec,
      (set_time_unknown_pps fuel time_spec boards_stalled).1 = OutOfFuel.
Proof.
  split; [reflexivity|]. split; [|split; [|split]].
  - intros k. unfold get_time_last_pps.
    erewrite mboard_get_Some by (rewrite sim_elapsed; reflexivity).
    reflexivity.
  - intros k. unfold get_time_now.
    erewrite mboard_get_Some by (rewrite sim_elapsed; reflexivity).
    reflexivity.
  - vm_compute. reflexivity.
  - intros fuel time_spec. unfold set_time_unknown_pps.
    unfold bindM at 1. cbn [UHD_MSG].
    set (w1 := mk_world _ _ _ _).
    unfold bindM at 1, liftR at 1.
    assert (get_time_now 0%N w1 = Ok 0%Q) as -> by reflexivity.
    unfold bindM at 1, liftR at 1.
    assert (get_time_last_pps 0%N w1 = Ok 0%Q) as -> by reflexivity.
    unfold bindM at 1.
    pose proof (stalled_polls_on fuel 0%nat "sim"
                  [status "    1) catch time transition at pps edge"] [] [])
      as Hpoll.
    change (mk_world "sim" _ _ []) with w1 in Hpoll.
    destruct (wait_for_pps fuel 0%Q 0%Q w1) as [[[]| |] w']; cbn [fst] in Hpoll;
      try discriminate. reflexivity.
Qed.

(** C7 at work: three boards whose clocks all stand at one second. *)
Lemma get_time_synchronized_spec_witness :
  liftR get_time_synchronized (clocks [1; 1; 1]%Q)
  = (Ok true, clocks [1; 1; 1]%Q).
Proof.
  destruct (get_time_synchronized_spec (clocks [1; 1; 1]%Q) [1; 1; 1]%Q)
    as (_ & _ & ok & Hrun & _ & Hsame & _).
  - repeat constructor.
  - rewrite Hrun. do 2 f_equal. apply Hsame.
    intros [|[|[|m]]] t0 tm H0 Hm; cbn in H0, Hm; try discriminate;
      injection H0 as <-; injection Hm as <-; reflexivity.
Defined.

(** C7 as stated fails: board 1 is ahead of board 0 by the double nearest
    to 0.01, which is more than 10 milliseconds, and the answer is [true]. *)
Lemma ahead_by_the_double_is_synchronized :
  match get_time_now 0%N (clocks [0; 5764607523034235 # 576460752303423488]%Q),
        get_time_now 1%N (clocks [0; 5764607523034235 # 576460752303423488]%Q)
  with
  | Ok t0, Ok t1 =>
      (1 # 100 < t1 - t0)%Q
      ∧ get_time_synchronized
          (clocks [0; 5764607523034235 # 576460752303423488]%Q)
        = Ok true
  | _, _ => False
  end.
Proof. vm_compute. split; reflexivity. Qed.

(** A board behind board 0, and a board more than 10 ms ahead of it. *)
Example get_time_synchronized_deviating :
  get_time_synchronized (clocks [1; 1; 1 # 2]%Q) = Ok false
  ∧ get_time_synchronized (clocks [1; 102 # 100; 1]%Q) = Ok false
  ∧ get_time_synchronized (clocks [1; 101 # 100; 1]%Q) = Ok true
  ∧ get_time_synchronized (clocks [1]%Q) = Ok true
  ∧ get_time_synchronized (clocks []) = Ok true.
Proof. repeat split; vm_compute; reflexivity. Qed.
End multi_usrp_facts.

(** * Further properties of the code *)

(** ** The registry and the manager *)

Module dboard_more_facts.
Import dboard dict_facts dboard_facts more.

Section registry.
Context {ctor_t Inst : Type} `{!Dboards ctor_t Inst}.
Implicit Types (r : registry ctor_t) (c : ctor_t) (id : dboard_id_t).

Lemma has_key_get {K V : Type} `{EqDecision K} (d : list (K * V)) k :
  dict.has_key d k = true ↔ ∃ v, dict.get d k = Some v.
Proof.
  unfold dict.has_key. destruct (dict.get d k); split; eauto; try discriminate.
  intros [v Hv]. discriminate.
Qed.

Lemma has_key_false {K V : Type} `{EqDecision K} (d : list (K * V)) k :
  dict.has_key d k = false ↔ dict.get d k = None.
Proof. unfold dict.has_key. destruct (dict.get d k); split; congruence. Qed.

Lemma has_key_index {K V : Type} `{EqDecision K} (d : list (K * V)) dflt k k' :
  dict.has_key d k' = true → dict.has_key (dict.index dflt k d).2 k' = true.
Proof.
  rewrite !has_key_get. intros [v Hv]. exists v. by apply get_index.
Qed.

Lemma names_filed_store id c names r :
  names_filed r → names_filed (store_subdevs id c names r).
Proof.
  intros Hr id' c'. cbn [store_subdevs id_to_ctor_map ctor_to_names_map].
  destruct (decide (id = id')) as [<-|Hne].
  - rewrite get_set_eq. intros [= <-]. apply has_key_set.
  - rewrite get_set_ne by exact Hne. intros Hget.
    apply has_key_set_mono. by apply (Hr id').
Qed.

Lemma names_filed_seed r :
  names_filed r → names_filed (register_internal_dboards r).
Proof.
  intros Hr. unfold register_internal_dboards. destruct (called r); [exact Hr|].
  by do 4 apply names_filed_store.
Qed.

(** In a registry a process can be in, the constructor of every filed
    identity code has its names filed. *)
Lemma reachable_names_filed r : reachable r → names_filed r.
Proof.
  induction 1 as [|r _ IH|r id c names _ IH|r c _ IH].
  - intros id c. discriminate.
  - by apply names_filed_seed.
  - by apply names_filed_store, names_filed_seed.
  - intros id c'. cbn. intros Hget. apply has_key_index. by apply (IH id).
Qed.

Lemma names_filed_resolve id r :
  names_filed r → dict.has_key (id_to_ctor_map r) id = true →
  ∃ c names, resolve id r = Some (c, names).
Proof.
  intros Hr Hk. apply has_key_get in Hk as [c Hc].
  pose proof (Hr id c Hc) as Hn. apply has_key_get in Hn as [names Hn].
  exists c, names. unfold resolve. by rewrite Hc, Hn.
Qed.

Lemma resolve_has_key id r e :
  resolve id r = Some e → dict.has_key (id_to_ctor_map r) id = true.
Proof.
  unfold resolve, dict.has_key.
  destruct (dict.get (id_to_ctor_map r) id); [reflexivity | discriminate].
Qed.

(** The first seeding files the three built-in codes. *)
Lemma seed_built_in r id :
  called r = false → built_in id →
  dict.has_key (id_to_ctor_map (register_internal_dboards r)) id = true.
Proof.
  intros Hc Hb. unfold register_internal_dboards. rewrite Hc.
  cbn [store_subdevs id_to_ctor_map]. destruct Hb as [-> | [-> | ->]].
  - do 2 apply has_key_set_mono. apply has_key_set.
  - apply has_key_set_mono, has_key_set.
  - apply has_key_set.
Qed.

(** The built-in codes are filed once the latch is set. *)
Lemma reachable_built_in r :
  reachable r → called r = true →
  ∀ id, built_in id → dict.has_key (id_to_ctor_map r) id = true.
Proof.
  induction 1 as [|r _ IH|r id c names _ IH|r c _ IH]; intros Hc id' Hb.
  - discriminate.
  - destruct (called r) eqn:E.
    + rewrite (register_internal_dboards_latched r E). auto.
    + by apply seed_built_in.
  - apply has_key_store. destruct (called r) eqn:E.
    + rewrite (register_internal_dboards_latched r E). auto.
    + by apply seed_built_in.
  - cbn in *. auto.
Qed.

Lemma lookup_map {A C : Type} (f : A → C) (l : list A) i x :
  l !! i = Some x → map f l !! i = Some (f x).
Proof.
  intros H. change (map f l) with (f <$> l). by rewrite list_lookup_fmap, H.
Qed.

Lemma registry_eta r :
  mk_registry (called r) (id_to_ctor_map r) (ctor_to_names_map r) = r.
Proof. by destruct r. Qed.
End registry.

Section manager.
Context {ctor_t Inst Key Val : Type} `{!Dboards ctor_t Inst} `{!Base Inst Key Val}.
Implicit Types (r : registry ctor_t) (c : ctor_t) (id : dboard_id_t).

(** *** The proxy maps *)

Lemma fill_get t off names (d : list (string * subdev_proxy)) name p :
  dict.get (fill t off names d) name = Some p →
  (dict.get d name = Some p ∧ name ∉ names)
  ∨ (_type p = t ∧ ∃ i, _subdev p = off + i ∧ names !! i = Some name).
Proof.
  revert off d. induction names as [|n names IH]; intros off d; simpl.
  { intros Hget. left. split; [exact Hget|]. apply not_elem_of_nil. }
  intros Hget. destruct (IH _ _ Hget) as [[Hd Hnot]|(Ht & i & Hi & Hn)].
  - destruct (decide (n = name)) as [->|Hne].
    + rewrite get_set_eq in Hd. injection Hd as <-. right.
      split; [reflexivity|]. exists 0. split; [simpl; lia | reflexivity].
    + rewrite get_set_ne in Hd by exact Hne. left. split; [exact Hd|].
      apply not_elem_of_cons. split; [congruence | exact Hnot].
  - right. split; [exact Ht|]. exists (S i). split; [lia | exact Hn].
Qed.

Lemma fill_has_key t off names (d : list (string * subdev_proxy)) name :
  dict.has_key (fill t off names d) name = true
  ↔ dict.has_key d name = true ∨ name ∈ names.
Proof.
  revert off d. induction names as [|n names IH]; intros off d; simpl.
  { split; [auto|]. intros [H|H]; [exact H|]. by apply elem_of_nil in H. }
  rewrite IH, elem_of_cons. destruct (decide (n = name)) as [->|Hne].
  - rewrite has_key_set. split; [auto|]. intros _. left. reflexivity.
  - unfold dict.has_key at 1. rewrite get_set_ne by exact Hne.
    fold (dict.has_key d name). split.
    + intros [H|H]; auto.
    + intros [H|[H|H]]; auto; congruence.
Qed.

Lemma fill_keys t off names (d : list (string * subdev_proxy)) :
  NoDup names → (∀ n, n ∈ names → dict.has_key d n = false) →
  dict.get_keys (fill t off names d) = dict.get_keys d ++ names.
Proof.
  revert off d. induction names as [|n names IH]; intros off d Hnd Hd; simpl.
  { by rewrite app_nil_r. }
  apply NoDup_cons in Hnd as [Hn Hnd]. rewrite IH; [|exact Hnd|].
  - rewrite get_keys_set, (Hd n) by (apply elem_of_cons; auto).
    by rewrite <- app_assoc.
  - intros n' Hn'. unfold dict.has_key. rewrite get_set_ne by congruence.
    apply Hd. apply elem_of_cons. auto.
Qed.

(** *** The loops of the constructor, in closed form *)

Lemma rx_fold c iface names (m : manager Inst) :
  foldl (make_rx_subdev c iface) m names
  = mk_manager (iface_calls m)
      (subdevs m ++ map (λ name, construct c (name, iface)) names)
      (fill RX_TYPE (length (subdevs m)) names (_rx_dboards m))
      (_tx_dboards m).
Proof.
  revert m. induction names as [|n names IH]; intros m; simpl.
  - rewrite app_nil_r. by destruct m.
  - rewrite IH. cbn [make_rx_subdev iface_calls subdevs _rx_dboards _tx_dboards].
    rewrite length_app, <- app_assoc, Nat.add_1_r. reflexivity.
Qed.

Lemma tx_fold c iface names (m : manager Inst) :
  foldl (make_tx_subdev c iface) m names
  = mk_manager (iface_calls m)
      (subdevs m ++ map (λ name, construct c (name, iface)) names)
      (_rx_dboards m)
      (fill TX_TYPE (length (subdevs m)) names (_tx_dboards m)).
Proof.
  revert m. induction names as [|n names IH]; intros m; simpl.
  - rewrite app_nil_r. by destruct m.
  - rewrite IH. cbn [make_tx_subdev iface_calls subdevs _rx_dboards _tx_dboards].
    rewrite length_app, <- app_assoc, Nat.add_1_r. reflexivity.
Qed.

Lemma xcvr_fold c iface names (m : manager Inst) :
  foldl (make_xcvr_subdev c iface) m names
  = mk_manager (iface_calls m)
      (subdevs m ++ map (λ name, construct c (name, iface)) names)
      (fill RX_TYPE (length (subdevs m)) names (_rx_dboards m))
      (fill TX_TYPE (length (subdevs m)) names (_tx_dboards m)).
Proof.
  revert m. induction names as [|n names IH]; intros m; simpl.
  - rewrite app_nil_r. by destruct m.
  - rewrite IH. cbn [make_xcvr_subdev iface_calls subdevs _rx_dboards _tx_dboards].
    rewrite length_app, <- app_assoc, Nat.add_1_r. reflexivity.
Qed.

Lemma resolve_same_ctor id id' r c names names' :
  resolve id r = Some (c, names) → resolve id' r = Some (c, names') →
  names' = names.
Proof.
  unfold resolve.
  destruct (dict.get (id_to_ctor_map r) id) as [c1|]; [|discriminate].
  destruct (dict.get (ctor_to_names_map r) c1) as [n1|] eqn:E1; [|discriminate].
  intros [= -> ->].
  destruct (dict.get (id_to_ctor_map r) id') as [c2|]; [|discriminate].
  destruct (dict.get (ctor_to_names_map r) c2) as [n2|] eqn:E2; [|discriminate].
  intros [= -> ->]. congruence.
Qed.

Lemma manager_new_built rx_id tx_id iface r rc rnames tc tnames :
  resolve rx_id (register_internal_dboards r) = Some (rc, rnames) →
  resolve tx_id (register_internal_dboards r) = Some (tc, tnames) →
  manager_new rx_id tx_id iface r
  = (Ok (built iface rc rnames tc tnames), register_internal_dboards r).
Proof.
  intros Hrx Htx. unfold manager_new, built.
  rewrite (get_dboard_ctor_resolve _ "rx" _ _ _ Hrx).
  rewrite (get_dboard_ctor_resolve _ "tx" _ _ _ Htx).
  destruct (decide (rc = tc)) as [<-|Hne].
  - rewrite (index_resolve _ _ _ _ Hrx), xcvr_fold, registry_eta. reflexivity.
  - rewrite (index_resolve _ _ _ _ Hrx), (index_resolve _ _ _ _ Htx).
    rewrite rx_fold, tx_fold, registry_eta. cbn. rewrite length_map.
    reflexivity.
Qed.

(** X1. In a registry a process can be in, the constructor of a manager
    leaves the registry as the seeding leaves it, and succeeds exactly when
    both codes are filed after the seeding: an RX code that is not filed
    raises the error of an unknown "rx" code, whatever the TX code is; a
    filed RX code with a TX code that is not filed raises the error of an
    unknown "tx" code. *)
Theorem manager_new_outcome rx_id tx_id iface r :
  reachable r →
  let r0 := register_internal_dboards r in
  (manager_new rx_id tx_id iface r).2 = r0
  ∧ (dict.has_key (id_to_ctor_map r0) rx_id = false →
       (manager_new rx_id tx_id iface r).1
       = Throw (unknown_dboard_id "rx" rx_id))
  ∧ (dict.has_key (id_to_ctor_map r0) rx_id = true →
     dict.has_key (id_to_ctor_map r0) tx_id = false →
       (manager_new rx_id tx_id iface r).1
       = Throw (unknown_dboard_id "tx" tx_id))
  ∧ (dict.has_key (id_to_ctor_map r0) rx_id = true →
     dict.has_key (id_to_ctor_map r0) tx_id = true →
       ∃ m : manager Inst, (manager_new rx_id tx_id iface r).1 = Ok m).
Proof.
  intros Hr r0.
  assert (names_filed r0) as Hf
    by (apply reachable_names_filed; by apply reachable_seed).
  destruct (dict.has_key (id_to_ctor_map r0) rx_id) eqn:Erx.
  - destruct (names_filed_resolve _ _ Hf Erx) as (rc & rnames & Hrx).
    destruct (dict.has_key (id_to_ctor_map r0) tx_id) eqn:Etx.
    + destruct (names_filed_resolve _ _ Hf Etx) as (tc & tnames & Htx).
      rewrite (manager_new_built _ _ _ _ _ _ _ _ Hrx Htx). cbn [fst snd].
      split; [reflexivity|]. split; [intros; discriminate|].
      split; [intros; discriminate|]. eauto.
    + apply has_key_false in Etx. unfold manager_new. fold r0.
      rewrite (get_dboard_ctor_resolve _ "rx" _ _ _ Hrx).
      unfold get_dboard_ctor. rewrite !Etx. cbn [fst snd].
      split; [reflexivity|]. split; [intros; discriminate|].
      split; [reflexivity|]. intros; discriminate.
  - apply has_key_false in Erx. unfold manager_new. fold r0.
    unfold get_dboard_ctor. rewrite !Erx. cbn [fst snd].
    split; [reflexivity|]. split; [reflexivity|].
    split; intros; discriminate.
Qed.

(** X2. In a registry a process can be in, a manager for built-in codes
    ([ID_NONE], [ID_BASIC_TX], [ID_BASIC_RX]) on both sides is always
    constructed: whatever was registered before, these codes stay filed. *)
Theorem built_in_ids_construct rx_id tx_id iface r :
  reachable r → built_in rx_id → built_in tx_id →
  ∃ m : manager Inst, (manager_new rx_id tx_id iface r).1 = Ok m.
Proof.
  intros Hr Hbr Hbt.
  pose proof (reachable_seed _ Hr) as Hr0.
  pose proof (register_internal_dboards_called r) as Hc.
  pose proof (reachable_names_filed _ Hr0) as Hf.
  destruct (names_filed_resolve _ _ Hf (reachable_built_in _ Hr0 Hc _ Hbr))
    as (rc & rnames & Hrx).
  destruct (names_filed_resolve _ _ Hf (reachable_built_in _ Hr0 Hc _ Hbt))
    as (tc & tnames & Htx).
  rewrite (manager_new_built _ _ _ _ _ _ _ _ Hrx Htx). eauto.
Qed.

(** X3. A registration under one identity code leaves the constructor of
    every other code; but the names are filed under the constructor: another
    code that resolves to the constructor just registered resolves to the
    new names from then on, and a code of a different constructor keeps its
    names. *)
Theorem register_subdevs_other_codes id c names id' r :
  id' ≠ id →
  let r0 := register_internal_dboards r in
  let r' := register_subdevs id c names r in
  dict.get (id_to_ctor_map r') id' = dict.get (id_to_ctor_map r0) id'
  ∧ ∀ c' names',
      resolve id' r0 = Some (c', names') →
      resolve id' r' = Some (c', if decide (c' = c) then names else names').
Proof.
  intros Hne r0 r'. unfold r', register_subdevs. fold r0.
  cbn [store_subdevs id_to_ctor_map].
  assert (dict.get (dict.set id c (id_to_ctor_map r0)) id'
          = dict.get (id_to_ctor_map r0) id') as Hid
    by (apply get_set_ne; congruence).
  split; [exact Hid|].
  intros c' names'. unfold resolve. cbn [store_subdevs id_to_ctor_map ctor_to_names_map].
  rewrite Hid.
  destruct (dict.get (id_to_ctor_map r0) id') as [c1|]; [|discriminate].
  destruct (dict.get (ctor_to_names_map r0) c1) as [n1|] eqn:E1; [|discriminate].
  intros [= -> ->]. destruct (decide (c' = c)) as [->|Hc].
  - by rewrite get_set_eq.
  - rewrite get_set_ne by congruence. by rewrite E1.
Qed.

(** X4. The subdevice names of a manager are the names filed for the
    constructors of its codes: as sets always, and in the order of the
    registration when no name is filed twice; on the TX side they are the
    names of the RX constructor when the two constructors are the same. *)
Theorem subdev_names_as_registered rx_id tx_id iface r rc rnames tc tnames :
  resolve rx_id (register_internal_dboards r) = Some (rc, rnames) →
  resolve tx_id (register_internal_dboards r) = Some (tc, tnames) →
  ∃ m : manager Inst,
    (manager_new rx_id tx_id iface r).1 = Ok m
    ∧ (∀ name, name ∈ get_rx_subdev_names m ↔ name ∈ rnames)
    ∧ (∀ name, name ∈ get_tx_subdev_names m ↔ name ∈ tnames)
    ∧ (NoDup rnames → get_rx_subdev_names m = rnames)
    ∧ (NoDup tnames → get_tx_subdev_names m = tnames).
Proof.
  intros Hrx Htx. rewrite (manager_new_built _ _ _ _ _ _ _ _ Hrx Htx).
  eexists. split; [reflexivity|].
  assert (∀ t off names name,
            name ∈ dict.get_keys (fill t off names []) ↔ name ∈ names) as Hin.
  { intros t off names name. rewrite <- has_key_elem_of, fill_has_key.
    split; [|auto]. intros [H|H]; [discriminate | exact H]. }
  assert (∀ t off names, NoDup names →
            dict.get_keys (fill t off names []) = names) as Heq.
  { intros t off names Hnd. by rewrite fill_keys. }
  unfold built, get_rx_subdev_names, get_tx_subdev_names.
  destruct (decide (rc = tc)) as [<-|Hne]; cbn [_rx_dboards _tx_dboards].
  - rewrite (resolve_same_ctor _ _ _ _ _ _ Hrx Htx). repeat split; auto;
      by apply Hin.
  - repeat split; auto; by apply Hin.
Qed.

(** X5. The lookup of a subdevice by name succeeds exactly for the names
    filed for the constructor of that side, with a proxy of that side's
    direction; any other name raises the error of an unknown name, which
    names the side and the name asked for. *)
Theorem get_subdev_by_name rx_id tx_id iface r rc rnames tc tnames :
  resolve rx_id (register_internal_dboards r) = Some (rc, rnames) →
  resolve tx_id (register_internal_dboards r) = Some (tc, tnames) →
  ∃ m : manager Inst,
    (manager_new rx_id tx_id iface r).1 = Ok m
    ∧ (∀ name, name ∈ rnames →
         ∃ p, get_rx_subdev name m = Ok p ∧ _type p = RX_TYPE)
    ∧ (∀ name, name ∉ rnames →
         get_rx_subdev name m = Throw (unknown_subdev_name "rx" name))
    ∧ (∀ name, name ∈ tnames →
         ∃ q, get_tx_subdev name m = Ok q ∧ _type q = TX_TYPE)
    ∧ (∀ name, name ∉ tnames →
         get_tx_subdev name m = Throw (unknown_subdev_name "tx" name)).
Proof.
  intros Hrx Htx. rewrite (manager_new_built _ _ _ _ _ _ _ _ Hrx Htx).
  eexists. split; [reflexivity|].
  assert (∀ t off names name, name ∈ names →
            ∃ p, dict.get (fill t off names []) name = Some p ∧ _type p = t)
    as Hin.
  { intros t off names name Hname.
    assert (dict.has_key (fill t off names []) name = true) as Hk
      by (apply fill_has_key; auto).
    apply has_key_get in Hk as [p Hp]. exists p. split; [exact Hp|].
    destruct (fill_get _ _ _ _ _ _ Hp) as [[Hd _]|[Ht _]];
      [discriminate | exact Ht]. }
  assert (∀ t off names name, name ∉ names →
            dict.get (fill t off names []) name = None) as Hout.
  { intros t off names name Hname. apply has_key_false.
    destruct (dict.has_key (fill t off names []) name) eqn:E; [|reflexivity].
    apply fill_has_key in E as [E|E]; [discriminate | contradiction]. }
  assert (tc = rc → tnames = rnames) as Hsame.
  { intros ->. exact (resolve_same_ctor _ _ _ _ _ _ Hrx Htx). }
  unfold built, get_rx_subdev, get_tx_subdev.
  destruct (decide (rc = tc)) as [E|Hne]; cbn [_rx_dboards _tx_dboards].
  - rewrite (Hsame (eq_sym E)). repeat split.
    + intros name Hn. destruct (Hin RX_TYPE 0 _ _ Hn) as (p & -> & Hp). eauto.
    + intros name Hn. by rewrite (Hout RX_TYPE 0 _ _ Hn).
    + intros name Hn. destruct (Hin TX_TYPE 0 _ _ Hn) as (p & -> & Hp). eauto.
    + intros name Hn. by rewrite (Hout TX_TYPE 0 _ _ Hn).
  - repeat split.
    + intros name Hn. destruct (Hin RX_TYPE 0 _ _ Hn) as (p & -> & Hp). eauto.
    + intros name Hn. by rewrite (Hout RX_TYPE 0 _ _ Hn).
    + intros name Hn.
      destruct (Hin TX_TYPE (length rnames) _ _ Hn) as (p & -> & Hp). eauto.
    + intros name Hn. by rewrite (Hout TX_TYPE (length rnames) _ _ Hn).
Qed.

(** X6. Every proxy a manager hands out reaches a driver object, the one
    its side's constructor made with the name the proxy is filed under (and
    the interface of the manager); proxies of one side filed under different
    names reach different objects, so that a write through one of them
    leaves what the other reads. *)
Theorem proxies_reach_their_drivers rx_id tx_id iface r rc rnames tc tnames :
  resolve rx_id (register_internal_dboards r) = Some (rc, rnames) →
  resolve tx_id (register_internal_dboards r) = Some (tc, tnames) →
  ∃ m : manager Inst,
    (manager_new rx_id tx_id iface r).1 = Ok m
    ∧ (∀ name p, get_rx_subdev name m = Ok p →
         subdevs m !! _subdev p = Some (construct rc (name, iface)))
    ∧ (∀ name q, get_tx_subdev name m = Ok q →
         subdevs m !! _subdev q = Some (construct tc (name, iface)))
    ∧ (∀ name name' p p',
         name ≠ name' →
         (get_rx_subdev name m = Ok p ∧ get_rx_subdev name' m = Ok p')
         ∨ (get_tx_subdev name m = Ok p ∧ get_tx_subdev name' m = Ok p') →
         _subdev p ≠ _subdev p'
         ∧ ∀ (key : Key) (val : Val) (key' : Key),
             proxy_get p' key' (proxy_set p key val (subdevs m))
             = proxy_get p' key' (subdevs m)).
Proof.
  intros Hrx Htx. rewrite (manager_new_built _ _ _ _ _ _ _ _ Hrx Htx).
  eexists. split; [reflexivity|].
  assert (∀ t off names name p,
            dict.get (fill t off names []) name = Some p →
            ∃ i, _subdev p = off + i ∧ names !! i = Some name) as Hget.
  { intros t off names name p Hp.
    destruct (fill_get _ _ _ _ _ _ Hp) as [[Hd _]|[_ Hi]];
      [discriminate | exact Hi]. }
  assert (∀ t off names name name' p p',
            name ≠ name' →
            dict.get (fill t off names []) name = Some p →
            dict.get (fill t off names []) name' = Some p' →
            _subdev p ≠ _subdev p') as Hdiff.
  { intros t off names name name' p p' Hne Hp Hp'.
    destruct (Hget _ _ _ _ _ Hp) as (i & Hi & Hn).
    destruct (Hget _ _ _ _ _ Hp') as (i' & Hi' & Hn').
    intros E. assert (i = i') as -> by lia. congruence. }
  assert (∀ (A : Type) (x : outcome exn A) (o : option A) (e : exn) a,
            match o with Some p => Ok p | None => Throw e end = Ok a →
            o = Some a) as Hok.
  { intros A _ [a'|] e a; [congruence | discriminate]. }
  assert (tc = rc → tnames = rnames) as Hsame.
  { intros ->. exact (resolve_same_ctor _ _ _ _ _ _ Hrx Htx). }
  unfold built, get_rx_subdev, get_tx_subdev.
  destruct (decide (rc = tc)) as [E|Hne];
    cbn [_rx_dboards _tx_dboards subdevs].
  - subst tc. split; [|split].
    + intros name p Hp. apply (Hok _ (Ok p)) in Hp.
      destruct (Hget _ _ _ _ _ Hp) as (i & -> & Hn).
      by apply (lookup_map (λ name, construct rc (name, iface))).
    + intros name p Hp. apply (Hok _ (Ok p)) in Hp.
      destruct (Hget _ _ _ _ _ Hp) as (i & -> & Hn).
      by apply (lookup_map (λ name, construct rc (name, iface))).
    + intros name name' p p' Hnn [[Hp Hp']|[Hp Hp']];
        apply (Hok _ (Ok p)) in Hp; apply (Hok _ (Ok p')) in Hp';
        pose proof (Hdiff _ _ _ _ _ _ _ Hnn Hp Hp') as Hd;
        (split; [exact Hd|]); intros; by apply proxy_set_get_other.
  - split; [|split].
    + intros name p Hp. apply (Hok _ (Ok p)) in Hp.
      destruct (Hget _ _ _ _ _ Hp) as (i & -> & Hn).
      apply lookup_app_l_Some.
      by apply (lookup_map (λ name, construct rc (name, iface))).
    + intros name p Hp. apply (Hok _ (Ok p)) in Hp.
      destruct (Hget _ _ _ _ _ Hp) as (i & -> & Hn).
      rewrite lookup_app_r by (rewrite length_map; lia).
      rewrite length_map.
      replace (length rnames + i - length rnames) with i by lia.
      by apply (lookup_map (λ name, construct tc (name, iface))).
    + intros name name' p p' Hnn [[Hp Hp']|[Hp Hp']];
        apply (Hok _ (Ok p)) in Hp; apply (Hok _ (Ok p')) in Hp';
        pose proof (Hdiff _ _ _ _ _ _ _ Hnn Hp Hp') as Hd;
        (split; [exact Hd|]); intros; by apply proxy_set_get_other.
Qed.
End manager.

(** *** Instances of the statements *)

Section instances.
Import sim.

Lemma manager_new_outcome_witness :
  (manager_new 0x77%N ID_BASIC_TX 0%N (fresh (ctor_t := ctor))).1
  = (Throw (unknown_dboard_id "rx" 0x77%N) : outcome exn (manager driver)).
Proof.
  assert (dict.has_key
            (id_to_ctor_map (register_internal_dboards (fresh (ctor_t := ctor))))
            0x77%N = false) as H
    by (vm_compute; reflexivity).
  exact (proj1 (proj2 (manager_new_outcome (Inst := driver) 0x77%N ID_BASIC_TX
                         0%N fresh reachable_fresh)) H).
Defined.

Lemma built_in_ids_construct_witness :
  ∃ m : manager driver,
    (manager_new ID_NONE ID_BASIC_TX 7%N
       (register_subdevs ID_NONE sim_xcvr_make ["a"] fresh)).1 = Ok m.
Proof.
  assert (built_in (ctor_t := ctor) (Inst := driver) ID_NONE) as Hr
    by (left; reflexivity).
  assert (built_in (ctor_t := ctor) (Inst := driver) ID_BASIC_TX) as Ht
    by (right; left; reflexivity).
  exact (built_in_ids_construct ID_NONE ID_BASIC_TX 7%N _
           (reachable_register _ ID_NONE sim_xcvr_make ["a"] reachable_fresh)
           Hr Ht).
Defined.

Lemma register_subdevs_other_codes_witness :
  resolve ID_NONE
    (register_subdevs ID_BASIC_RX sim_basic_rx_make ["x"; "y"]
       (fresh (ctor_t := ctor)))
  = Some (sim_basic_rx_make, ["x"; "y"]).
Proof.
  assert (ID_NONE (ctor_t := ctor) (Inst := driver) ≠ ID_BASIC_RX) as Hne
    by (vm_compute; discriminate).
  assert (resolve ID_NONE (register_internal_dboards (fresh (ctor_t := ctor)))
          = Some (sim_basic_rx_make, ["a"; "b"; "ab"])) as H
    by (vm_compute; reflexivity).
  exact (proj2 (register_subdevs_other_codes ID_BASIC_RX sim_basic_rx_make
                  ["x"; "y"] ID_NONE fresh Hne) _ _ H).
Defined.

Lemma subdev_names_as_registered_witness :
  ∃ m : manager driver,
    (manager_new ID_BASIC_RX ID_BASIC_TX 0%N fresh).1 = Ok m
    ∧ get_rx_subdev_names m = ["a"; "b"; "ab"].
Proof.
  assert (resolve ID_BASIC_RX (register_internal_dboards (fresh (ctor_t := ctor)))
          = Some (sim_basic_rx_make, ["a"; "b"; "ab"])) as Hrx
    by (vm_compute; reflexivity).
  assert (resolve ID_BASIC_TX (register_internal_dboards (fresh (ctor_t := ctor)))
          = Some (sim_basic_tx_make, [""])) as Htx
    by (vm_compute; reflexivity).
  assert (NoDup ["a"; "b"; "ab"]) as Hnd
    by (apply (bool_decide_unpack _); vm_compute; exact I).
  destruct (subdev_names_as_registered (Inst := driver)
              ID_BASIC_RX ID_BASIC_TX 0%N fresh _ _ _ _ Hrx Htx)
    as (m & Hm & _ & _ & Hnames & _).
  exists m. split; [exact Hm | exact (Hnames Hnd)].
Defined.

Lemma get_subdev_by_name_witness :
  ∃ m : manager driver,
    (manager_new ID_BASIC_RX ID_BASIC_TX 0%N fresh).1 = Ok m
    ∧ get_rx_subdev "c" m = Throw (unknown_subdev_name "rx" "c").
Proof.
  assert (resolve ID_BASIC_RX (register_internal_dboards (fresh (ctor_t := ctor)))
          = Some (sim_basic_rx_make, ["a"; "b"; "ab"])) as Hrx
    by (vm_compute; reflexivity).
  assert (resolve ID_BASIC_TX (register_internal_dboards (fresh (ctor_t := ctor)))
          = Some (sim_basic_tx_make, [""])) as Htx
    by (vm_compute; reflexivity).
  assert ("c" ∉ ["a"; "b"; "ab"]) as Hc
    by (apply (bool_decide_unpack _); vm_compute; exact I).
  destruct (get_subdev_by_name (Inst := driver)
              ID_BASIC_RX ID_BASIC_TX 0%N fresh _ _ _ _ Hrx Htx)
    as (m & Hm & _ & Hout & _).
  exists m. split; [exact Hm | exact (Hout _ Hc)].
Defined.

Lemma proxies_reach_their_drivers_witness :
  ∃ m : manager driver,
    (manager_new ID_BASIC_RX ID_BASIC_TX 0%N fresh).1 = Ok m
    ∧ ∀ p, get_rx_subdev "b" m = Ok p →
        subdevs m !! _subdev p = Some (construct sim_basic_rx_make ("b", 0%N)).
Proof.
  assert (resolve ID_BASIC_RX (register_internal_dboards (fresh (ctor_t := ctor)))
          = Some (sim_basic_rx_make, ["a"; "b"; "ab"])) as Hrx
    by (vm_compute; reflexivity).
  assert (resolve ID_BASIC_TX (register_internal_dboards (fresh (ctor_t := ctor)))
          = Some (sim_basic_tx_make, [""])) as Htx
    by (vm_compute; reflexivity).
  destruct (proxies_reach_their_drivers (Key := string) (Val := Z)
              ID_BASIC_RX ID_BASIC_TX 0%N fresh _ _ _ _ Hrx Htx)
    as (m & Hm & Hp & _).
  exists m. split; [exact Hm | exact (Hp "b")].
Defined.
End instances.
End dboard_more_facts.

(** ** The facade *)

Module multi_usrp_more_facts.
Import multi_usrp multi_usrp_facts more.

Section channels.
Context {B : Type} `{!Board B}.
Implicit Types (w : world B) (b : B) (d : dir).

Lemma spec_lists_sizes d w specs :
  spec_lists d w specs → spec_sizes d w (size <$> specs).
Proof.
  intros Hs. apply Forall2_fmap_r.
  eapply Forall2_impl; [exact Hs|]. intros b spec Hget. by exists spec.
Qed.

Lemma sum_sizes_concat (specs : list subdev_spec_t) :
  sum_sizes (size <$> specs) = size (concat specs).
Proof.
  induction specs as [|spec specs IH]; [reflexivity|].
  rewrite fmap_cons.
  change (sum_sizes (size spec :: (size <$> specs)))
    with (size spec + sum_sizes (size <$> specs))%N.
  rewrite IH. cbn [concat]. unfold size. rewrite length_app. lia.
Qed.

(** The resolver on the sizes of a list of specifications finds the place
    of the entry a channel has in their concatenation. *)
Lemma locate_concat (specs : list subdev_spec_t) :
  ∀ (m : N) (c : nat) pair,
    concat specs !! c = Some pair →
    ∃ (i k : nat) spec,
      locate m (N.of_nat c) (size <$> specs)
      = mk_mcp (m + N.of_nat i) (N.of_nat k)
      ∧ specs !! i = Some spec ∧ spec !! k = Some pair
      ∧ c = (length (concat (take i specs)) + k)%nat.
Proof.
  induction specs as [|spec specs IH]; intros m c pair Hc; [discriminate|].
  cbn [concat] in Hc. rewrite fmap_cons. cbn [locate].
  destruct (N.ltb_spec (N.of_nat c) (size spec)) as [Hlt|Hge].
  - exists 0%nat, c, spec. rewrite N.add_0_r. unfold size in Hlt.
    rewrite lookup_app_l in Hc by lia. by repeat split.
  - assert (length spec ≤ c)%nat as Hle by (unfold size in Hge; lia).
    rewrite lookup_app_r in Hc by lia.
    destruct (IH (m + 1)%N _ _ Hc) as (i & k & spec' & Hloc & Hi & Hk & Hck).
    exists (S i), k, spec'.
    replace (N.of_nat c - size spec)%N
      with (N.of_nat (c - length spec)) by (unfold size; lia).
    rewrite Hloc. cbn [take concat]. rewrite length_app.
    repeat split; try assumption; [f_equal; lia | lia].
Qed.

(** The place of a channel: its board, the specification of that board and
    its index in it. *)
Lemma resolve_chan d w specs (c : nat) pair :
  spec_lists d w specs → concat specs !! c = Some pair →
  ∃ (m k : nat) spec b,
    xx_chan_to_mcp d (N.of_nat c) w = Ok (mk_mcp (N.of_nat m) (N.of_nat k))
    ∧ mboards w !! m = Some b
    ∧ get_xx_subdev_spec d (N.of_nat m) w = Ok spec
    ∧ _mboard (N.of_nat m) w = Ok (mk_obj m mboard_node)
    ∧ specs !! m = Some spec ∧ spec !! k = Some pair
    ∧ c = (length (concat (take m specs)) + k)%nat.
Proof.
  intros Hs Hc.
  destruct (locate_concat specs 0 c pair Hc) as (m & k & spec & Hloc & Hm & Hk & Hck).
  destruct (Forall2_lookup_r _ _ _ _ _ Hs Hm) as (b & Hb & Hget).
  exists m, k, spec, b.
  rewrite (xx_chan_to_mcp_locate d w _ _ (spec_lists_sizes _ _ _ Hs)).
  rewrite Hloc, N.add_0_l.
  assert (mboards w !! N.to_nat (N.of_nat m) = Some b) as Hb'
    by (by rewrite Nat2N.id).
  repeat split; try assumption.
  - unfold get_xx_subdev_spec. rewrite (mboard_get_Some w _ b _ Hb'). by rewrite Hget.
  - rewrite (_mboard_Some w _ b Hb'). by rewrite Nat2N.id.
Qed.

Lemma prop_get_Some w o b k :
  mboards w !! on_mboard o = Some b → prop_get o k w = board_get b (at_node o) k.
Proof. intros Hb. unfold prop_get. by rewrite Hb. Qed.

(** X7. The flat channels number the entries of the subdevice
    specifications of the boards, taken board after board: the channel [c]
    is the [c]-th entry of their concatenation.  Its daughterboard is the
    node of its board named by the daughterboard name of that entry, its
    subdevice the node below it named by the subdevice name of the entry,
    and the name of its subdevice is what the device holds there. *)
Theorem channel_numbering d w specs (c : nat) pair :
  spec_lists d w specs → concat specs !! c = Some pair →
  ∃ (m k : nat) spec b,
    mboards w !! m = Some b
    ∧ specs !! m = Some spec ∧ spec !! k = Some pair
    ∧ c = (length (concat (take m specs)) + k)%nat
    ∧ xx_chan_to_mcp d (N.of_nat c) w = Ok (mk_mcp (N.of_nat m) (N.of_nat k))
    ∧ _xx_dboard d (N.of_nat c) w = Ok (mk_obj m (dboard_node d pair))
    ∧ _xx_subdev d (N.of_nat c) w = Ok (mk_obj m (subdev_node d pair))
    ∧ get_xx_subdev_name d (N.of_nat c) w
      = board_get b (subdev_node d pair) SUBDEV_PROP_NAME ≫= as_string.
Proof.
  intros Hs Hc.
  destruct (resolve_chan d w specs c pair Hs Hc)
    as (m & k & spec & b & Hmcp & Hb & Hspec & Hmb & Hm & Hk & Hck).
  exists m, k, spec, b.
  assert (at_ spec (N.of_nat k) = Ok pair) as Hat
    by (apply at_Some; by rewrite Nat2N.id).
  assert (_xx_dboard d (N.of_nat c) w = Ok (mk_obj m (dboard_node d pair)))
    as Hdb.
  { unfold _xx_dboard. rewrite Hmcp. cbn [mbind outcome_bind mboard chan].
    rewrite Hspec. cbn [mbind outcome_bind]. rewrite Hat.
    cbn [mbind outcome_bind]. rewrite Hmb. reflexivity. }
  assert (_xx_subdev d (N.of_nat c) w = Ok (mk_obj m (subdev_node d pair)))
    as Hsd.
  { unfold _xx_subdev. rewrite Hmcp. cbn [mbind outcome_bind mboard chan].
    rewrite Hspec. cbn [mbind outcome_bind]. rewrite Hat.
    cbn [mbind outcome_bind]. rewrite Hdb. reflexivity. }
  repeat split; try assumption.
  unfold get_xx_subdev_name. rewrite Hsd. cbn [mbind outcome_bind].
  by rewrite (prop_get_Some w _ b).
Qed.

(** X8. The channel count of a direction is the number of entries of
    the subdevice specifications of all boards together (as long as it fits
    a [size_t]), and the channels that have a subdevice are exactly those
    below the count. *)
Theorem num_channels_counts_entries d w specs :
  spec_lists d w specs → (size (concat specs) < 2 ^ 64)%N →
  get_xx_num_channels d w = Ok (size (concat specs))
  ∧ ∀ c : N,
      (c < size (concat specs))%N ↔ ∃ o, _xx_subdev d c w = Ok o.
Proof.
  intros Hs Hfit. pose proof (spec_lists_sizes _ _ _ Hs) as Hsz.
  split.
  { rewrite <- sum_sizes_concat.
    apply get_xx_num_channels_spec; [exact Hsz|]. by rewrite sum_sizes_concat. }
  intros c. split.
  - intros Hc. unfold size in Hc.
    assert (∃ pair, concat specs !! N.to_nat c = Some pair) as [pair Hp]
      by (apply lookup_lt_is_Some; lia).
    destruct (resolve_chan d w specs _ pair Hs Hp)
      as (m & k & spec & b & Hmcp & Hb & Hspec & Hmb & Hm & Hk & Hck).
    rewrite N2Nat.id in Hmcp.
    unfold _xx_subdev, _xx_dboard. rewrite Hmcp.
    cbn [mbind outcome_bind mboard chan]. rewrite Hspec.
    cbn [mbind outcome_bind]. rewrite (at_Some spec (N.of_nat k) pair)
      by (by rewrite Nat2N.id).
    cbn [mbind outcome_bind]. rewrite Hmb. cbn [mbind outcome_bind]. eauto.
  - intros [o Ho]. destruct (N.lt_ge_cases c (size (concat specs))) as [|Hge];
      [assumption|].
    rewrite <- sum_sizes_concat in Hge.
    destruct (proj2 (xx_chan_to_mcp_spec d w _ c Hsz) Hge) as (_ & _ & _ & He).
    congruence.
Qed.

(** X9. The DSP of a channel is the node of its board named by the
    DSP name that has, among the DSP names of the board, the index the
    channel has in the subdevice specification of the board; on a board
    with fewer DSP names than that, the access raises [std::out_of_range]. *)
Theorem dsp_of_channel d w specs dsps (c : nat) pair :
  spec_lists d w specs → dsp_lists d w dsps →
  concat specs !! c = Some pair →
  ∃ (m k : nat) spec names,
    specs !! m = Some spec ∧ spec !! k = Some pair
    ∧ c = (length (concat (take m specs)) + k)%nat
    ∧ dsps !! m = Some names
    ∧ _xx_dsp d (N.of_nat c) w
      = match names !! k with
        | Some dsp => Ok (mk_obj m (dsp_node d dsp))
        | None => Throw out_of_range
        end.
Proof.
  intros Hs Hd Hc.
  destruct (resolve_chan d w specs c pair Hs Hc)
    as (m & k & spec & b & Hmcp & Hb & Hspec & Hmb & Hm & Hk & Hck).
  destruct (Forall2_lookup_l _ _ _ _ _ Hd Hb) as (names & Hn & Hget).
  exists m, k, spec, names. repeat split; try assumption.
  unfold _xx_dsp. rewrite Hmcp. cbn [mbind outcome_bind mboard chan].
  rewrite (mboard_get_Some w _ b) by (by rewrite Nat2N.id).
  rewrite Hget. cbn [mbind outcome_bind as_names]. rewrite Hmb.
  cbn [mbind outcome_bind]. unfold at_. rewrite Nat2N.id.
  by destruct (names !! k).
Qed.
End channels.

Section bounds.
Context {B : Type} `{!Board B}.
Implicit Types (w : world B) (b : B) (d : dir).

Lemma mboard_set_None k v (i : N) w :
  mboards w !! N.to_nat i = None →
  mboard_set k v i w = (Throw out_of_range, w).
Proof.
  intros Hi. unfold mboard_set, bindM, liftR. by rewrite (_mboard_None w i Hi).
Qed.

(** X10. With a board index at or past the number of boards, every
    getter of a board raises [std::out_of_range]; so does every setter of a
    board when the index is not the sentinel, and it leaves the device, the
    messages and the record of writes as they were. *)
Theorem board_index_out_of_range w (i : N) :
  (get_num_mboards w ≤ i)%N →
  get_mboard_name i w = Throw out_of_range
  ∧ get_master_clock_rate i w = Throw out_of_range
  ∧ get_time_now i w = Throw out_of_range
  ∧ get_time_last_pps i w = Throw out_of_range
  ∧ get_rx_subdev_spec i w = Throw out_of_range
  ∧ get_tx_subdev_spec i w = Throw out_of_range
  ∧ (i ≠ ALL_MBOARDS →
     (∀ rate, set_master_clock_rate rate i w = (Throw out_of_range, w))
     ∧ (∀ time_spec, set_time_now time_spec i w = (Throw out_of_range, w))
     ∧ (∀ cfg, set_clock_config cfg i w = (Throw out_of_range, w))
     ∧ (∀ spec, set_rx_subdev_spec spec i w = (Throw out_of_range, w))
     ∧ (∀ spec, set_tx_subdev_spec spec i w = (Throw out_of_range, w))).
Proof.
  intros Hge.
  assert (mboards w !! N.to_nat i = None) as Hi.
  { apply lookup_ge_None. unfold get_num_mboards, size in Hge. lia. }
  unfold get_mboard_name, get_master_clock_rate, get_time_now,
    get_time_last_pps, get_rx_subdev_spec, get_tx_subdev_spec,
    get_xx_subdev_spec.
  rewrite !(mboard_get_None w i _ Hi).
  do 6 (split; [reflexivity|]). intros Hne.
  unfold set_master_clock_rate, set_time_now, set_clock_config,
    set_rx_subdev_spec, set_tx_subdev_spec, set_xx_subdev_spec.
  repeat split; intros; rewrite fan_out_one by exact Hne;
    by apply mboard_set_None.
Qed.

(** X11. With a channel at or past the channel count of its direction,
    the getters of a channel raise [std::out_of_range]; so do the setters
    when the channel is not the sentinel, and nothing is written: the
    device, the messages and the record of writes are as they were. *)
Theorem channel_out_of_range d w sizes (c : N) :
  spec_sizes d w sizes → (sum_sizes sizes ≤ c)%N →
  get_xx_rate d c w = Throw out_of_range
  ∧ get_xx_subdev_name d c w = Throw out_of_range
  ∧ (c ≠ ALL_CHANS →
     (∀ rate, set_xx_rate d rate c w = (Throw out_of_range, w))
     ∧ (d = RX →
        ∀ cmd, issue_stream_cmd cmd c w = (Throw out_of_range, w))).
Proof.
  intros Hs Hge.
  destruct (proj2 (xx_chan_to_mcp_spec d w sizes c Hs) Hge)
    as (_ & Hdsp & _ & Hsd).
  unfold get_xx_rate, get_xx_subdev_name. rewrite Hdsp, Hsd.
  do 2 (split; [reflexivity|]). intros Hne. split.
  - intros rate. unfold set_xx_rate. rewrite fan_out_one by exact Hne.
    unfold set_xx_rate_chan, bindM, liftR. by rewrite Hdsp.
  - intros -> cmd. unfold issue_stream_cmd. rewrite fan_out_one by exact Hne.
    unfold bindM, liftR, _rx_dsp. by rewrite Hdsp.
Qed.
End bounds.

Section next_pps.
Context {B : Type} `{!Board B}.
Implicit Types (w : world B) (b : B).

(** A row of writes that the boards accept. *)
Lemma sequentially_mboard_set_accept key v (k : nat) :
  ∀ (f : nat) w,
    (f + k ≤ length (mboards w))%nat →
    (∀ (i : nat) b, (f ≤ i < f + k)%nat → mboards w !! i = Some b →
                    (board_set mboard_node key v b).1 = Ok tt) →
    ∃ wk,
      sequentially (mboard_set key v) (N.of_nat f) k w = (Ok tt, wk)
      ∧ dev_name wk = dev_name w ∧ msgs wk = msgs w
      ∧ (∀ j : nat, (j < f)%nat → mboards wk !! j = mboards w !! j)
      ∧ (∀ (j : nat) b, (f ≤ j < f + k)%nat → mboards w !! j = Some b →
           mboards wk !! j = Some (board_set mboard_node key v b).2).
Proof.
  induction k as [|k IH]; intros f w Hlen Hacc.
  - exists w. cbn [sequentially]. unfold retM. repeat split; auto.
    intros j b Hj. lia.
  - assert (∃ b, mboards w !! f = Some b) as [b Hb]
      by (apply lookup_lt_is_Some; lia).
    cbn [sequentially]. unfold bindM.
    rewrite (mboard_set_effect key v f w b Hb).
    pose proof (Hacc f b ltac:(lia) Hb) as Hok.
    destruct (board_set mboard_node key v b) as [r b'] eqn:Hset.
    cbn [fst snd] in Hok |- *. subst r.
    replace (N.of_nat f + 1)%N with (N.of_nat (S f)) by lia.
    set (w1 := mk_world (dev_name w) (<[f:=b']> (mboards w)) (msgs w)
                 (writes w ++ [(mk_obj f mboard_node, key, v)])).
    destruct (IH (S f) w1) as (wk & Hrun & Hd & Hm & Hlow & Hmid).
    + cbn [w1 mboards]. rewrite length_insert. lia.
    + intros i b0 Hi Hb0. cbn [w1 mboards] in Hb0.
      rewrite list_lookup_insert_ne in Hb0 by lia. apply (Hacc i); [lia|exact Hb0].
    + exists wk. split; [exact Hrun|]. split; [exact Hd|]. split; [exact Hm|].
      split.
      * intros j Hj. rewrite Hlow by lia. cbn [w1 mboards].
        apply list_lookup_insert_ne. lia.
      * intros j b0 Hj Hb0. destruct (decide (j = f)) as [->|Hne].
        -- rewrite Hlow by lia. cbn [w1 mboards].
           rewrite list_lookup_insert_eq by (by apply lookup_lt_Some in Hb).
           rewrite Hb in Hb0. injection Hb0 as <-. by rewrite Hset.
        -- apply Hmid; [lia|]. cbn [w1 mboards].
           rewrite list_lookup_insert_ne by lia. exact Hb0.
Qed.

Lemma set_time_next_pps_sequentially time_spec w :
  set_time_next_pps time_spec w
  = sequentially (mboard_set MBOARD_PROP_TIME_PPS (VTime time_spec)) 0
      (length (mboards w)) w.
Proof.
  unfold set_time_next_pps.
  rewrite (for_loop_sequentially num_mboards _ w (get_num_mboards w)).
  - unfold get_num_mboards, size. by rewrite Nat2N.id.
  - intros i w0. apply num_mboards_mboard_set.
  - reflexivity.
Qed.

(** What [set_time_next_pps] leaves when every board accepts the write. *)
Lemma set_time_next_pps_accept time_spec w :
  (∀ b, b ∈ mboards w →
        (board_set mboard_node MBOARD_PROP_TIME_PPS (VTime time_spec) b).1
        = Ok tt) →
  ∃ w',
    set_time_next_pps time_spec w = (Ok tt, w')
    ∧ mboards w'
      = (λ b, (board_set mboard_node MBOARD_PROP_TIME_PPS
                 (VTime time_spec) b).2) <$> mboards w
    ∧ writes w'
      = writes w
        ++ ((λ i, (mk_obj i mboard_node, MBOARD_PROP_TIME_PPS, VTime time_spec))
              <$> seq 0 (length (mboards w)))
    ∧ msgs w' = msgs w ∧ dev_name w' = dev_name w.
Proof.
  intros Hacc. rewrite set_time_next_pps_sequentially.
  destruct (sequentially_mboard_set_accept MBOARD_PROP_TIME_PPS
              (VTime time_spec) (length (mboards w)) 0 w)
    as (w' & Hrun & Hd & Hm & _ & Hmid); [lia| |].
  { intros i b _ Hb. apply Hacc. by apply list_elem_of_lookup_2 in Hb. }
  change (N.of_nat 0) with 0%N in Hrun.
  destruct (sequentially_mboard_set MBOARD_PROP_TIME_PPS (VTime time_spec)
              (mboard_set MBOARD_PROP_TIME_PPS (VTime time_spec))
              (length (mboards w)) 0%nat w w' (λ _ _, eq_refl) (le_n _) Hrun)
    as (Hw & Hl & _).
  exists w'. split; [exact Hrun|]. split; [|by repeat split].
  apply list_eq. intros j. rewrite list_lookup_fmap.
  destruct (mboards w !! j) as [b|] eqn:Hb.
  - apply Hmid; [|exact Hb]. apply lookup_lt_Some in Hb. lia.
  - apply lookup_ge_None. apply lookup_ge_None in Hb. lia.
Qed.

(** X12. When every board accepts the write, [set_time_next_pps]
    returns having written the time to the "time at next PPS" of every
    board, once each and in the order of the boards; every board is in the
    state its write left, and no message is sent. *)
Theorem set_time_next_pps_arms_every_board time_spec w :
  (∀ b, b ∈ mboards w →
        (board_set mboard_node MBOARD_PROP_TIME_PPS (VTime time_spec) b).1
        = Ok tt) →
  ∃ w',
    set_time_next_pps time_spec w = (Ok tt, w')
    ∧ mboards w'
      = (λ b, (board_set mboard_node MBOARD_PROP_TIME_PPS
                 (VTime time_spec) b).2) <$> mboards w
    ∧ writes w'
      = writes w
        ++ ((λ i, (mk_obj i mboard_node, MBOARD_PROP_TIME_PPS, VTime time_spec))
              <$> seq 0 (length (mboards w)))
    ∧ msgs w' = msgs w.
Proof.
  intros Hacc.
  destruct (set_time_next_pps_accept time_spec w Hacc)
    as (w' & Hrun & Hb & Hw & Hm & _).
  exists w'. by repeat split.
Qed.

(** X13. When board [k] is the first to reject the write,
    [set_time_next_pps] raises what that board raised: the boards before
    [k] hold the new time, the write to board [k] was the last one made, and
    the boards after [k] were not written to. *)
Theorem set_time_next_pps_stops_at_rejection time_spec w (k : nat) bk e :
  mboards w !! k = Some bk →
  (board_set mboard_node MBOARD_PROP_TIME_PPS (VTime time_spec) bk).1 = Throw e →
  (∀ (i : nat) b, (i < k)%nat → mboards w !! i = Some b →
     (board_set mboard_node MBOARD_PROP_TIME_PPS (VTime time_spec) b).1 = Ok tt) →
  ∃ w',
    set_time_next_pps time_spec w = (Throw e, w')
    ∧ writes w'
      = writes w
        ++ ((λ i, (mk_obj i mboard_node, MBOARD_PROP_TIME_PPS, VTime time_spec))
              <$> seq 0 (S k))
    ∧ (∀ (i : nat) b, (i < k)%nat → mboards w !! i = Some b →
         mboards w' !! i
         = Some (board_set mboard_node MBOARD_PROP_TIME_PPS (VTime time_spec) b).2)
    ∧ (∀ j : nat, (k < j)%nat → mboards w' !! j = mboards w !! j).
Proof.
  intros Hk He Hacc. pose proof (lookup_lt_Some _ _ _ Hk) as Hlt.
  rewrite set_time_next_pps_sequentially.
  destruct (sequentially_mboard_set_accept MBOARD_PROP_TIME_PPS
              (VTime time_spec) k 0 w)
    as (wk & Hrun & Hd & Hm & _ & Hmid); [lia| |].
  { intros i b Hi. apply Hacc. lia. }
  change (N.of_nat 0) with 0%N in Hrun.
  destruct (sequentially_mboard_set MBOARD_PROP_TIME_PPS (VTime time_spec)
              (mboard_set MBOARD_PROP_TIME_PPS (VTime time_spec))
              k 0%nat w wk (λ _ _, eq_refl) (Nat.lt_le_incl _ _ Hlt) Hrun)
    as (Hw & Hl & Hrest).
  assert (mboards wk !! k = Some bk) as Hk' by (rewrite Hrest by lia; exact Hk).
  pose proof (mboard_set_effect MBOARD_PROP_TIME_PPS (VTime time_spec) k wk bk Hk')
    as Heff. rewrite He in Heff.
  eexists. split.
  { apply (sequentially_abort _ k _ 0%N w wk); [lia | exact Hrun|].
    rewrite N.add_0_l. exact Heff. }
  cbn [writes mboards]. split; [|split].
  - rewrite Hw, seq_S, fmap_app, <- app_assoc. reflexivity.
  - intros i b Hi Hb. rewrite list_lookup_insert_ne by lia.
    apply Hmid; [lia | exact Hb].
  - intros j Hj. rewrite list_lookup_insert_ne by lia. apply Hrest. lia.
Qed.
End next_pps.

Section unknown_pps.
Context {B : Type} `{!Board B}.
Implicit Types (w : world B) (b : B).

Lemma world_eta w : mk_world (dev_name w) (mboards w) (msgs w) (writes w) = w.
Proof. by destruct w. Qed.

Lemma msgs_elapsed k w : msgs (elapsed k w) = msgs w.
Proof.
  revert w. induction k as [|k IH]; intros w; [reflexivity|].
  by rewrite elapsed_S, IH.
Qed.

Lemma dev_name_elapsed k w : dev_name (elapsed k w) = dev_name w.
Proof.
  revert w. induction k as [|k IH]; intros w; [reflexivity|].
  by rewrite elapsed_S, IH.
Qed.

Lemma length_mboards_elapsed k w :
  length (mboards (elapsed k w)) = length (mboards w).
Proof.
  revert w. induction k as [|k IH]; intros w; [reflexivity|].
  rewrite elapsed_S, IH. cbn. by rewrite length_fmap.
Qed.

Lemma get_time_now_ext w w' m :
  mboards w = mboards w' → get_time_now m w = get_time_now m w'.
Proof. intros E. unfold get_time_now. by rewrite (mboard_get_ext w w' m _ E). Qed.

Lemma get_time_last_pps_ext w w' m :
  mboards w = mboards w' → get_time_last_pps m w = get_time_last_pps m w'.
Proof.
  intros E. unfold get_time_last_pps. by rewrite (mboard_get_ext w w' m _ E).
Qed.

Lemma time_ne_true (a b : time_spec_t) : ¬ (a == b)%Q → time_ne a b = true.
Proof.
  intros Hne. unfold time_ne. apply negb_true_iff.
  destruct (Qeq_bool a b) eqn:E; [|reflexivity].
  apply Qeq_bool_iff in E. contradiction.
Qed.

Lemma time_gt_false (a b : time_spec_t) : (a <= b)%Q → time_gt a b = false.
Proof.
  intros Hle. destruct (time_gt a b) eqn:E; [|reflexivity].
  apply time_gt_true in E. lra.
Qed.

(** The wait loop leaves at the first round in which the capture register
    of board 0 reads another value than at the start. *)
Lemma wait_for_pps_edge (t0 p0 : time_spec_t) d :
  ∀ w,
    (∀ k, (k < d)%nat →
       ∃ p t, get_time_last_pps 0 (elapsed k w) = Ok p ∧ (p == p0)%Q
              ∧ get_time_now 0 (elapsed k w) = Ok t
              ∧ (t - t0 <= 11 # 10)%Q) →
    (∃ p, get_time_last_pps 0 (elapsed d w) = Ok p ∧ ¬ (p == p0)%Q) →
    ∀ fuel, (d < fuel)%nat →
      wait_for_pps fuel t0 p0 w = (Ok tt, elapsed d w).
Proof.
  induction d as [|d IH]; intros w Hwait Hedge fuel Hfuel;
    (destruct fuel as [|fuel]; [lia|]); cbn [wait_for_pps].
  - destruct Hedge as (p & Hp & Hne). cbn [elapsed] in Hp.
    unfold bindM at 1, liftR at 1. rewrite Hp.
    by rewrite (time_ne_true _ _ Hne).
  - destruct (Hwait 0%nat ltac:(lia)) as (p & t & Hp & Ep & Ht & Hle).
    cbn [elapsed] in Hp, Ht.
    unfold bindM at 1, liftR at 1. rewrite Hp, (time_ne_false _ _ Ep).
    unfold bindM at 1, liftR at 1. rewrite Ht.
    unfold time_sub.
    rewrite (time_gt_false _ (time_spec_t_of_double 1.1))
      by (pose proof (proj2 time_spec_t_of_double_1_1); lra).
    unfold bindM at 1. cbn [tick]. rewrite elapsed_S. apply IH.
    + intros k Hk. apply (Hwait (S k)). lia.
    + exact Hedge.
    + lia.
Qed.

Lemma deviation_warnings_nil (t0 : time_spec_t) (m : nat) ts :
  deviation_warnings t0 m ts = []
  ↔ forallb (λ t, negb (deviates t0 t)) ts = true.
Proof.
  revert m. induction ts as [|t ts IH]; intros m; [done|].
  cbn [deviation_warnings forallb]. destruct (deviates t0 t); cbn [negb andb app].
  - split; discriminate.
  - apply IH.
Qed.

(** The verification loop on the boards from [m] on. *)
Lemma sequentially_verify_time t0 rest (k : nat) :
  ∀ (m : nat) w,
    now_times w (t0 :: rest) →
    (1 ≤ m)%nat → (m + k = length (t0 :: rest))%nat →
    sequentially verify_time (N.of_nat m) k w
    = (Ok tt,
       mk_world (dev_name w) (mboards w)
         (msgs w ++ deviation_warnings t0 m (drop m (t0 :: rest)))
         (writes w)).
Proof.
  induction k as [|k IH]; intros m w Hn Hm Hlen.
  - cbn [sequentially]. unfold retM. rewrite drop_ge by lia.
    cbn [deviation_warnings]. by rewrite app_nil_r, world_eta.
  - assert (∃ t, (t0 :: rest) !! m = Some t) as [t Ht]
      by (apply lookup_lt_is_Some; lia).
    pose proof (now_times_lookup w _ 0%nat t0 Hn eq_refl) as H0.
    change (N.of_nat 0) with 0%N in H0.
    cbn [sequentially]. unfold bindM at 1, verify_time.
    unfold bindM at 1, liftR at 1. rewrite H0.
    unfold bindM at 1, liftR at 1. rewrite (now_times_lookup w _ m t Hn Ht).
    rewrite (drop_S _ _ _ Ht). cbn [deviation_warnings].
    replace (N.of_nat m + 1)%N with (N.of_nat (S m)) by lia.
    destruct (deviates t0 t).
    + unfold UHD_MSG. rewrite IH; [|exact Hn|lia|lia].
      cbn [dev_name mboards msgs writes]. by rewrite <- app_assoc.
    + unfold retM. rewrite IH; [|exact Hn|lia|lia]. reflexivity.
Qed.

Lemma num_mboards_verify_time i w :
  num_mboards (verify_time i w).2 = num_mboards w.
Proof.
  unfold verify_time, bindM, liftR.
  destruct (mboard_get 0 MBOARD_PROP_TIME_NOW w ≫= as_time) as [t0| |];
    try reflexivity.
  destruct (mboard_get i MBOARD_PROP_TIME_NOW w ≫= as_time) as [t| |];
    try reflexivity.
  by destruct (deviates t0 t).
Qed.

Lemma verify_loop w t0 rest :
  now_times w (t0 :: rest) →
  for_loop 1 num_mboards verify_time w
  = (Ok tt,
     mk_world (dev_name w) (mboards w)
       (msgs w ++ deviation_warnings t0 1 rest) (writes w)).
Proof.
  intros Hn. pose proof (Forall2_length _ _ _ Hn) as Hlen.
  unfold for_loop. cbn [num_mboards].
  rewrite (for_loop_from_sequentially num_mboards verify_time
             num_mboards_verify_time (length rest) 1 w (get_num_mboards w)).
  - change 1%N with (N.of_nat 1).
    rewrite (sequentially_verify_time t0 rest _ 1 w Hn); [|lia|reflexivity].
    reflexivity.
  - reflexivity.
  - unfold get_num_mboards, size. rewrite Hlen. cbn [length]. lia.
  - unfold get_num_mboards, size. rewrite Hlen. cbn [length]. lia.
Qed.

(** X14. When the capture register of board 0 reads another value
    than at the start in some round of the wait loop, and until then the
    clock of board 0 is not more than 1.1 seconds past its value at the
    start, and every board accepts the write, then [set_time_unknown_pps]
    returns: the time was written to the "time at next PPS" of every board,
    once each and in the order of the boards, more than a second has gone by
    on every board, and the messages sent are the two status lines and one
    warning for every board whose clock then deviates from that of board 0.
    A deviation is reported, never raised. *)
Theorem set_time_unknown_pps_arms_at_edge w (time_spec t0 p0 : time_spec_t)
    (d : nat) times :
  get_time_now 0 w = Ok t0 →
  get_time_last_pps 0 w = Ok p0 →
  (∀ k, (k < d)%nat →
     ∃ p t, get_time_last_pps 0 (elapsed k w) = Ok p ∧ (p == p0)%Q
            ∧ get_time_now 0 (elapsed k w) = Ok t
            ∧ (t - t0 <= 11 # 10)%Q) →
  (∃ p, get_time_last_pps 0 (elapsed d w) = Ok p ∧ ¬ (p == p0)%Q) →
  (∀ b, b ∈ mboards (elapsed d w) →
     (board_set mboard_node MBOARD_PROP_TIME_PPS (VTime time_spec) b).1
     = Ok tt) →
  Forall2
    (λ b t,
       board_get
         (board_sleep
            (board_set mboard_node MBOARD_PROP_TIME_PPS (VTime time_spec) b).2)
         mboard_node MBOARD_PROP_TIME_NOW
       = Ok (VTime t))
    (mboards (elapsed d w)) times →
  ∀ fuel, (d < fuel)%nat →
    ∃ w',
      set_time_unknown_pps fuel time_spec w = (Ok tt, w')
      ∧ mboards w'
        = (λ b, board_sleep
                  (board_set mboard_node MBOARD_PROP_TIME_PPS
                     (VTime time_spec) b).2)
            <$> mboards (elapsed d w)
      ∧ writes w'
        = writes w
          ++ ((λ i, (mk_obj i mboard_node, MBOARD_PROP_TIME_PPS,
                     VTime time_spec))
                <$> seq 0 (length (mboards w)))
      ∧ msgs w'
        = msgs w
          ++ [status "    1) catch time transition at pps edge";
              status "    2) set times next pps (synchronously)"]
          ++ deviation_warnings (default 0%Q (head times)) 1 (tail times).
Proof.
  intros Hnow Hpps Hwait Hedge Hacc Htimes fuel Hfuel.
  unfold set_time_unknown_pps.
  unfold bindM at 1, UHD_MSG at 1.
  set (w1 := mk_world (dev_name w) (mboards w)
               (msgs w ++ [status "    1) catch time transition at pps edge"])
               (writes w)).
  assert (mboards w1 = mboards w) as E1 by reflexivity.
  pose proof (λ k, mboards_elapsed_ext k w1 w E1) as Eel.
  unfold bindM at 1, liftR at 1. rewrite (get_time_now_ext w1 w 0 E1), Hnow.
  unfold bindM at 1, liftR at 1. rewrite (get_time_last_pps_ext w1 w 0 E1), Hpps.
  unfold bindM at 1.
  rewrite (wait_for_pps_edge t0 p0 d w1); [| | |exact Hfuel].
  2:{ intros k Hk. destruct (Hwait k Hk) as (p & t & Hp & Ep & Ht & Hle).
      exists p, t.
      rewrite (get_time_last_pps_ext _ _ 0 (Eel k)),
        (get_time_now_ext _ _ 0 (Eel k)). by repeat split. }
  2:{ destruct Hedge as (p & Hp & Hne). exists p.
      by rewrite (get_time_last_pps_ext _ _ 0 (Eel d)). }
  unfold bindM at 1, UHD_MSG at 1.
  set (w3 := mk_world (dev_name (elapsed d w1)) (mboards (elapsed d w1))
               (msgs (elapsed d w1)
                ++ [status "    2) set times next pps (synchronously)"])
               (writes (elapsed d w1))).
  assert (mboards w3 = mboards (elapsed d w)) as E3 by apply Eel.
  destruct (set_time_next_pps_accept time_spec w3)
    as (w4 & Hrun & Hb4 & Hw4 & Hm4 & Hd4).
  { rewrite E3. exact Hacc. }
  unfold bindM at 1. rewrite Hrun.
  unfold bindM at 1, sleep_1s at 1.
  set (w5 := mk_world (dev_name w4) (board_sleep <$> mboards w4) (msgs w4)
               (writes w4)).
  assert (mboards w5
          = (λ b, board_sleep
                    (board_set mboard_node MBOARD_PROP_TIME_PPS
                       (VTime time_spec) b).2)
              <$> mboards (elapsed d w)) as E5.
  { cbn [w5 mboards]. rewrite Hb4, E3, <- list_fmap_compose. reflexivity. }
  assert (now_times w5 times) as Hn5.
  { unfold now_times. rewrite E5. by apply Forall2_fmap_l. }
  destruct times as [|t0' rest].
  { apply Forall2_length in Htimes. rewrite length_mboards_elapsed in Htimes.
    unfold get_time_now in Hnow. rewrite mboard_get_None in Hnow;
      [discriminate|].
    apply lookup_ge_None. cbn in Htimes. change (N.to_nat 0) with 0%nat. lia. }
  rewrite (verify_loop w5 t0' rest Hn5). eexists. split; [reflexivity|].
  cbn [w5 mboards writes msgs head tail default]. split; [exact E5|]. split.
  - rewrite Hw4. cbn [w3 writes mboards].
    rewrite writes_elapsed, !length_mboards_elapsed. reflexivity.
  - rewrite Hm4. cbn [w3 msgs]. rewrite msgs_elapsed. cbn [w1 msgs].
    rewrite <- !app_assoc. reflexivity.
Qed.

(** X15. [get_time_synchronized] answers [true] exactly when the
    verification loop of [set_time_unknown_pps], run on the same device,
    sends no warning; neither of them writes to the device. *)
Theorem get_time_synchronized_iff_no_warning w times :
  now_times w times →
  ∃ (ok : bool) w',
    get_time_synchronized w = Ok ok
    ∧ for_loop 1 num_mboards verify_time w = (Ok tt, w')
    ∧ (ok = true ↔ msgs w' = msgs w)
    ∧ mboards w' = mboards w ∧ writes w' = writes w.
Proof.
  intros Hn. pose proof (Forall2_length _ _ _ Hn) as Hlen.
  destruct times as [|t0 rest].
  - exists true, w. destruct w as [name boards ms ws]. cbn [mboards] in Hlen.
    destruct boards; [|discriminate]. by repeat split.
  - unfold get_time_synchronized.
    rewrite (get_time_synchronized_from_spec w t0 rest Hn _ 1%nat);
      [|lia|rewrite Hlen; lia].
    rewrite (verify_loop w t0 rest Hn). eexists _, _.
    split; [reflexivity|]. split; [reflexivity|].
    cbn [msgs mboards writes drop]. split; [|by split].
    rewrite <- deviation_warnings_nil. split.
    + intros ->. by rewrite app_nil_r.
    + intros E. apply (app_inv_head (msgs w)). by rewrite app_nil_r.
Qed.
End unknown_pps.

Section pp_string.
Context {B : Type} `{!Board B}.
Implicit Types (w : world B) (b : B) (d : dir).

Lemma pp_bound_lookup (ss : list nat) :
  ∀ (m i s : nat), ss !! i = Some s → ((m + i + 1) * s ≤ pp_bound m ss)%nat.
Proof.
  induction ss as [|s0 ss IH]; intros m [|i] s Hs; try discriminate;
    cbn [pp_bound].
  - injection Hs as ->. replace (m + 0 + 1)%nat with (m + 1)%nat by lia. lia.
  - specialize (IH (S m) i s Hs).
    replace (m + S i + 1)%nat with (S m + i + 1)%nat by lia. lia.
Qed.

Lemma sum_sizes_of_nat (ss : list nat) :
  sum_sizes (N.of_nat <$> ss) = N.of_nat (sum_list ss).
Proof.
  induction ss as [|s ss IH]; [reflexivity|]. rewrite fmap_cons.
  change (sum_sizes (N.of_nat s :: (N.of_nat <$> ss)))
    with (N.of_nat s + sum_sizes (N.of_nat <$> ss))%N.
  rewrite IH. change (sum_list (s :: ss)) with (s + sum_list ss)%nat. lia.
Qed.

(** The loop over the channels of board [m], entered with any [chan]. *)
Lemma pp_chan_loop_gen d w (m s : nat) spec :
  get_xx_subdev_spec d (N.of_nat m) w = Ok spec → size spec = N.of_nat s →
  (N.of_nat ((m + 1) * s) < 2 ^ 64)%N →
  ∀ (chan : nat) budget buff,
    ((m + 1) * s - chan ≤ budget)%nat →
    (∀ c : nat, (chan ≤ c < (m + 1) * s)%nat →
                ∃ item, pp_channel_item d (N.of_nat c) w = Ok item) →
    ∃ buff',
      pp_chan_loop budget d (N.of_nat m) (N.of_nat chan) buff w
      = Ok (N.of_nat (Nat.max chan ((m + 1) * s)), buff')
      ∧ pp_channels buff'
        = pp_channels buff ++ channels d chan ((m + 1) * s - chan).
Proof.
  intros Hspec Hsize Hfit chan budget buff Hb Hitems.
  destruct (le_lt_dec chan ((m + 1) * s)) as [Hle|Hgt].
  - destruct (pp_chan_loop_spec d w m s spec Hspec Hsize Hfit
                ((m + 1) * s - chan) chan budget buff)
      as (buff' & Hrun & Hch); [lia | lia | exact Hitems|].
    exists buff'. replace (Nat.max chan ((m + 1) * s)) with ((m + 1) * s)%nat
      by lia.
    by split.
  - exists buff. replace (Nat.max chan ((m + 1) * s)) with chan by lia.
    replace ((m + 1) * s - chan)%nat with 0%nat by lia.
    split; [|by rewrite app_nil_r].
    assert (wrap ((N.of_nat m + 1) * N.of_nat s) = N.of_nat ((m + 1) * s))
      as Hbound by (rewrite wrap_small; lia).
    destruct budget; cbn [pp_chan_loop]; rewrite Hspec;
      cbn [mbind outcome_bind]; rewrite Hsize, Hbound;
      (destruct (N.ltb_spec (N.of_nat chan) (N.of_nat ((m + 1) * s)));
       [lia | reflexivity]).
Qed.

(** The loop over the channels of board [m] runs into a channel that
    cannot be read. *)
Lemma pp_chan_loop_raises d w (m s : nat) spec (top : nat) e :
  get_xx_subdev_spec d (N.of_nat m) w = Ok spec → size spec = N.of_nat s →
  (N.of_nat ((m + 1) * s) < 2 ^ 64)%N →
  (top < (m + 1) * s)%nat →
  pp_channel_item d (N.of_nat top) w = Throw e →
  ∀ (k chan : nat) budget buff,
    (chan + k = top)%nat → (k < budget)%nat →
    (∀ c : nat, (chan ≤ c < top)%nat →
                ∃ item, pp_channel_item d (N.of_nat c) w = Ok item) →
    pp_chan_loop budget d (N.of_nat m) (N.of_nat chan) buff w = Throw e.
Proof.
  intros Hspec Hsize Hfit Htop He.
  assert (wrap ((N.of_nat m + 1) * N.of_nat s) = N.of_nat ((m + 1) * s))
    as Hbound by (rewrite wrap_small; lia).
  induction k as [|k IH]; intros chan budget buff Hk Hb Hitems;
    (destruct budget as [|budget]; [lia|]);
    cbn [pp_chan_loop]; rewrite Hspec; cbn [mbind outcome_bind];
    rewrite Hsize, Hbound;
    (destruct (N.ltb_spec (N.of_nat chan) (N.of_nat ((m + 1) * s))); [|lia]).
  - replace chan with top by lia. by rewrite He.
  - destruct (Hitems chan ltac:(lia)) as [item Hitem]. rewrite Hitem.
    cbn [mbind outcome_bind].
    replace (N.of_nat chan + 1)%N with (N.of_nat (S chan)) by lia.
    apply IH; [lia | lia|]. intros c Hc. apply Hitems. lia.
Qed.

Lemma channels_app d (from k k' : nat) :
  channels d from k ++ channels d (from + k) k' = channels d from (k + k').
Proof. unfold channels. by rewrite <- fmap_app, <- seq_app. Qed.

(** The loop over the boards, of any sizes: from board [m] on, entered with
    [chan], it lists the channels from [chan] up to the largest bound of the
    boards that are left. *)
Lemma pp_xx_loop_gen d w (ss : list nat) :
  spec_sizes d w (N.of_nat <$> ss) →
  (N.of_nat (pp_bound 0 ss) < 2 ^ 64)%N →
  ∀ (j m chan : nat) budget buff,
    (m + j = length ss)%nat → (j ≤ budget)%nat →
    (∀ c : nat, (chan ≤ c < pp_bound m (drop m ss))%nat →
                ∃ item, pp_channel_item d (N.of_nat c) w = Ok item) →
    ∃ buff',
      pp_xx_loop budget d (N.of_nat m) (N.of_nat chan) buff w = Ok buff'
      ∧ pp_channels buff'
        = pp_channels buff
          ++ channels d chan (pp_bound m (drop m ss) - chan).
Proof.
  intros Hs Hfit.
  pose proof (spec_sizes_length _ _ _ Hs) as Hlen.
  rewrite length_fmap in Hlen.
  assert (get_num_mboards w = N.of_nat (length ss)) as Hn
    by (unfold get_num_mboards, size; congruence).
  induction j as [|j IH]; intros m chan budget buff Hj Hb Hitems.
  - exists buff. rewrite drop_ge by lia. cbn [pp_bound].
    split; [|by rewrite app_nil_r].
    destruct budget; cbn [pp_xx_loop]; rewrite Hn;
      (destruct (N.ltb_spec (N.of_nat m) (N.of_nat (length ss)));
       [lia | reflexivity]).
  - destruct budget as [|budget]; [lia|].
    cbn [pp_xx_loop]. rewrite Hn.
    destruct (N.ltb_spec (N.of_nat m) (N.of_nat (length ss))); [|lia].
    assert (∃ b, mboards w !! m = Some b) as [b Hbm]
      by (apply lookup_lt_is_Some; lia).
    destruct (spec_sizes_lookup _ _ _ _ _ Hs Hbm) as (spec & Hspec & Hsz).
    rewrite list_lookup_fmap in Hsz.
    destruct (ss !! m) as [s|] eqn:Hsm; [|discriminate].
    injection Hsz as Hsz. symmetry in Hsz.
    pose proof (pp_bound_lookup ss 0 m s Hsm) as Hle. cbn [Nat.add] in Hle.
    assert (N.of_nat ((m + 1) * s) < 2 ^ 64)%N as Hfit_m by lia.
    rewrite (drop_S _ _ _ Hsm) in Hitems |- *. cbn [pp_bound] in Hitems |- *.
    set (rest := pp_bound (S m) (drop (S m) ss)) in *.
    destruct (pp_chan_loop_gen d w m s spec Hspec Hsz Hfit_m chan
                (pp_budget d (N.of_nat m) w) buff)
      as (buff1 & Hrun1 & Hch1).
    + unfold pp_budget. rewrite Hspec, Hsz, wrap_small; lia.
    + intros c Hc. apply Hitems. lia.
    + rewrite Hrun1. cbn [mbind outcome_bind].
      replace (N.of_nat m + 1)%N with (N.of_nat (S m)) by lia.
      destruct (IH (S m) (Nat.max chan ((m + 1) * s)) budget buff1)
        as (buff' & Hrun & Hch); [lia | lia | |].
      { intros c Hc. apply Hitems. fold rest in Hc. lia. }
      exists buff'. split; [exact Hrun|].
      rewrite Hch, Hch1, <- app_assoc. f_equal. fold rest.
      destruct (le_lt_dec chan ((m + 1) * s)) as [Hc|Hc].
      * replace (Nat.max chan ((m + 1) * s)) with (chan + ((m + 1) * s - chan))%nat
          by lia.
        rewrite channels_app. f_equal. lia.
      * replace ((m + 1) * s - chan)%nat with 0%nat by lia.
        replace (Nat.max chan ((m + 1) * s)) with chan by lia.
        cbn [channels seq fmap list_fmap app]. f_equal. lia.
Qed.

(** The loop over the boards runs into the channel past the last one. *)
Lemma pp_xx_loop_raises d w (ss : list nat) e :
  spec_sizes d w (N.of_nat <$> ss) →
  (N.of_nat (pp_bound 0 ss) < 2 ^ 64)%N →
  (∀ c : nat, (c < sum_list ss)%nat →
              ∃ item, pp_channel_item d (N.of_nat c) w = Ok item) →
  pp_channel_item d (N.of_nat (sum_list ss)) w = Throw e →
  ∀ (j m chan : nat) budget buff,
    (m + j = length ss)%nat → (j ≤ budget)%nat →
    (chan ≤ sum_list ss)%nat →
    (sum_list ss < pp_bound m (drop m ss))%nat →
    pp_xx_loop budget d (N.of_nat m) (N.of_nat chan) buff w = Throw e.
Proof.
  intros Hs Hfit Hitems He.
  pose proof (spec_sizes_length _ _ _ Hs) as Hlen.
  rewrite length_fmap in Hlen.
  assert (get_num_mboards w = N.of_nat (length ss)) as Hn
    by (unfold get_num_mboards, size; congruence).
  induction j as [|j IH]; intros m chan budget buff Hj Hb Hchan Hover.
  - rewrite drop_ge in Hover by lia. cbn [pp_bound] in Hover. lia.
  - destruct budget as [|budget]; [lia|].
    cbn [pp_xx_loop]. rewrite Hn.
    destruct (N.ltb_spec (N.of_nat m) (N.of_nat (length ss))); [|lia].
    assert (∃ b, mboards w !! m = Some b) as [b Hbm]
      by (apply lookup_lt_is_Some; lia).
    destruct (spec_sizes_lookup _ _ _ _ _ Hs Hbm) as (spec & Hspec & Hsz).
    rewrite list_lookup_fmap in Hsz.
    destruct (ss !! m) as [s|] eqn:Hsm; [|discriminate].
    injection Hsz as Hsz. symmetry in Hsz.
    pose proof (pp_bound_lookup ss 0 m s Hsm) as Hle. cbn [Nat.add] in Hle.
    assert (N.of_nat ((m + 1) * s) < 2 ^ 64)%N as Hfit_m by lia.
    rewrite (drop_S _ _ _ Hsm) in Hover. cbn [pp_bound] in Hover.
    destruct (le_lt_dec ((m + 1) * s) (sum_list ss)) as [Hin|Hout].
    + destruct (pp_chan_loop_gen d w m s spec Hspec Hsz Hfit_m chan
                  (pp_budget d (N.of_nat m) w) buff)
        as (buff1 & Hrun1 & Hch1).
      * unfold pp_budget. rewrite Hspec, Hsz, wrap_small; lia.
      * intros c Hc. apply Hitems. lia.
      * rewrite Hrun1. cbn [mbind outcome_bind].
        replace (N.of_nat m + 1)%N with (N.of_nat (S m)) by lia.
        apply IH; lia.
    + rewrite (pp_chan_loop_raises d w m s spec (sum_list ss) e Hspec Hsz
                 Hfit_m Hout He (sum_list ss - chan) chan); [reflexivity|lia| |].
      * unfold pp_budget. rewrite Hspec, Hsz, wrap_small; lia.
      * intros c Hc. apply Hitems. lia.
Qed.

Lemma pp_channel_item_past d w (ss : list nat) :
  spec_sizes d w (N.of_nat <$> ss) →
  pp_channel_item d (N.of_nat (sum_list ss)) w = Throw out_of_range.
Proof.
  intros Hs.
  destruct (proj2 (xx_chan_to_mcp_spec d w _ (N.of_nat (sum_list ss)) Hs))
    as (_ & Hdsp & _); [rewrite sum_sizes_of_nat; lia|].
  unfold pp_channel_item. by rewrite Hdsp.
Qed.

(** X16. On a device whose names can all be read, whose boards report
    RX specifications of sizes [rs] and TX specifications of sizes [ts], and
    where the largest bound [(m + 1) * size of board m] of a direction does
    not exceed the channel count of that direction, [get_pp_string] returns
    a buffer that lists the RX channels below the largest RX bound and then
    the TX channels below the largest TX bound, each once and in order: the
    channels from that bound up to the channel count are not listed. *)
Theorem get_pp_string_lists_below_bound w (rs ts : list nat) :
  spec_sizes RX w (N.of_nat <$> rs) →
  spec_sizes TX w (N.of_nat <$> ts) →
  (N.of_nat (sum_list rs) < 2 ^ 64)%N →
  (N.of_nat (sum_list ts) < 2 ^ 64)%N →
  (∀ m : nat, (m < length (mboards w))%nat →
              ∃ name, get_mboard_name (N.of_nat m) w = Ok name) →
  (∀ c : nat, (c < sum_list rs)%nat →
              ∃ item, pp_channel_item RX (N.of_nat c) w = Ok item) →
  (∀ c : nat, (c < sum_list ts)%nat →
              ∃ item, pp_channel_item TX (N.of_nat c) w = Ok item) →
  (pp_bound 0 rs ≤ sum_list rs)%nat →
  (pp_bound 0 ts ≤ sum_list ts)%nat →
  ∃ buff,
    get_pp_string w = Ok buff
    ∧ pp_channels buff
      = channels RX 0 (pp_bound 0 rs) ++ channels TX 0 (pp_bound 0 ts).
Proof.
  intros Hrx Htx Hfrx Hftx Hnames Hirx Hitx Hbrx Hbtx.
  pose proof (spec_sizes_length _ _ _ Hrx) as Hlr.
  pose proof (spec_sizes_length _ _ _ Htx) as Hlt.
  rewrite length_fmap in Hlr, Hlt.
  unfold get_pp_string.
  destruct (pp_mboard_loop_spec w _ eq_refl Hnames (length (mboards w)) 0%nat
              [pp_header (1 <? get_num_mboards w)%N (dev_name w)])
    as (buff0 & Hrun0 & Hch0); [lia|].
  change (N.of_nat 0) with 0%N in Hrun0. rewrite Hrun0.
  cbn [mbind outcome_bind].
  destruct (pp_xx_loop_gen RX w rs Hrx ltac:(lia) (length rs) 0%nat 0%nat
              (length (mboards w)) buff0)
    as (buff1 & Hrun1 & Hch1); [lia | lia | |].
  { intros c Hc. rewrite drop_0 in Hc. apply Hirx. lia. }
  change (N.of_nat 0) with 0%N in Hrun1. rewrite Hrun1.
  cbn [mbind outcome_bind].
  destruct (pp_xx_loop_gen TX w ts Htx ltac:(lia) (length ts) 0%nat 0%nat
              (length (mboards w)) buff1)
    as (buff2 & Hrun2 & Hch2); [lia | lia | |].
  { intros c Hc. rewrite drop_0 in Hc. apply Hitx. lia. }
  change (N.of_nat 0) with 0%N in Hrun2.
  exists buff2. split; [exact Hrun2|].
  rewrite Hch2, Hch1, Hch0, !drop_0, !Nat.sub_0_r. reflexivity.
Qed.

(** X17. On such a device, when the largest bound
    [(m + 1) * size of board m] of a direction exceeds the channel count of
    that direction, [get_pp_string] raises [std::out_of_range]: the inner
    loop of that board runs on to the channel past the last one. *)
Theorem get_pp_string_raises_past_bound w (rs ts : list nat) :
  spec_sizes RX w (N.of_nat <$> rs) →
  spec_sizes TX w (N.of_nat <$> ts) →
  (N.of_nat (pp_bound 0 rs) < 2 ^ 64)%N →
  (N.of_nat (pp_bound 0 ts) < 2 ^ 64)%N →
  (∀ m : nat, (m < length (mboards w))%nat →
              ∃ name, get_mboard_name (N.of_nat m) w = Ok name) →
  (∀ c : nat, (c < sum_list rs)%nat →
              ∃ item, pp_channel_item RX (N.of_nat c) w = Ok item) →
  (∀ c : nat, (c < sum_list ts)%nat →
              ∃ item, pp_channel_item TX (N.of_nat c) w = Ok item) →
  (sum_list rs < pp_bound 0 rs)%nat ∨ (sum_list ts < pp_bound 0 ts)%nat →
  get_pp_string w = Throw out_of_range.
Proof.
  intros Hrx Htx Hfrx Hftx Hnames Hirx Hitx Hover.
  pose proof (spec_sizes_length _ _ _ Hrx) as Hlr.
  pose proof (spec_sizes_length _ _ _ Htx) as Hlt.
  rewrite length_fmap in Hlr, Hlt.
  unfold get_pp_string.
  destruct (pp_mboard_loop_spec w _ eq_refl Hnames (length (mboards w)) 0%nat
              [pp_header (1 <? get_num_mboards w)%N (dev_name w)])
    as (buff0 & Hrun0 & Hch0); [lia|].
  change (N.of_nat 0) with 0%N in Hrun0. rewrite Hrun0.
  cbn [mbind outcome_bind].
  destruct (le_lt_dec (pp_bound 0 rs) (sum_list rs)) as [Hin|Hout].
  - destruct Hover as [Hover|Hover]; [lia|].
    destruct (pp_xx_loop_gen RX w rs Hrx Hfrx (length rs) 0%nat 0%nat
                (length (mboards w)) buff0)
      as (buff1 & Hrun1 & Hch1); [lia | lia | |].
    { intros c Hc. rewrite drop_0 in Hc. apply Hirx. lia. }
    change (N.of_nat 0) with 0%N in Hrun1. rewrite Hrun1.
    cbn [mbind outcome_bind].
    change 0%N with (N.of_nat 0).
    apply (pp_xx_loop_raises TX w ts out_of_range Htx Hftx Hitx
             (pp_channel_item_past TX w ts Htx) (length ts) 0%nat 0%nat);
      [lia | lia | lia | by rewrite drop_0].
  - pose proof (pp_xx_loop_raises RX w rs out_of_range Hrx Hfrx Hirx
                  (pp_channel_item_past RX w rs Hrx) (length rs) 0%nat 0%nat
                  (length (mboards w)) buff0) as Hrun1.
    change (N.of_nat 0) with 0%N in Hrun1.
    rewrite Hrun1; [reflexivity | lia | lia | lia | by rewrite drop_0].
Qed.
End pp_string.

Section synchronized.
Context {B : Type} `{!Board B}.
Implicit Types (w : world B) (b : B).

(** The loop of [get_time_synchronized] passes the boards whose clocks do
    not deviate and comes to board [m]. *)
Lemma get_time_synchronized_from_skip w (t0 : time_spec_t) (m : nat) :
  get_time_now 0 w = Ok t0 → (m < length (mboards w))%nat →
  ∀ (k j : nat) budget,
    (j + k = m)%nat →
    (∀ i : nat, (j ≤ i < m)%nat →
       ∃ t, get_time_now (N.of_nat i) w = Ok t ∧ deviates t0 t = false) →
    get_time_synchronized_from (S k + budget) (N.of_nat j) w
    = (t ← get_time_now (N.of_nat m) w;
       if deviates t0 t then Ok false
       else get_time_synchronized_from budget (N.of_nat (S m)) w).
Proof.
  intros H0 Hm. unfold get_time_now in H0.
  assert (get_num_mboards w = N.of_nat (length (mboards w))) as Hn
    by reflexivity.
  induction k as [|k IH]; intros j budget Hj Hfine.
  - assert (j = m) as -> by lia.
    cbn [Nat.add get_time_synchronized_from]. rewrite Hn.
    destruct (N.ltb_spec (N.of_nat m) (N.of_nat (length (mboards w)))); [|lia].
    rewrite H0. cbn [mbind outcome_bind]. unfold get_time_now.
    replace (N.of_nat m + 1)%N with (N.of_nat (S m)) by lia. reflexivity.
  - change (S (S k) + budget)%nat with (S (S k + budget)).
    cbn [get_time_synchronized_from]. rewrite Hn.
    destruct (N.ltb_spec (N.of_nat j) (N.of_nat (length (mboards w)))); [|lia].
    rewrite H0. cbn [mbind outcome_bind].
    destruct (Hfine j ltac:(lia)) as (t & Ht & Hd). unfold get_time_now in Ht.
    rewrite Ht. cbn [mbind outcome_bind]. rewrite Hd.
    replace (N.of_nat j + 1)%N with (N.of_nat (S j)) by lia.
    apply IH; [lia|]. intros i Hi. apply Hfine. lia.
Qed.

(** X18. [get_time_synchronized] reads no clock on a device of fewer
    than two boards, and answers [true].  On a larger device it goes through
    the boards from board 1 on and stops at the first one whose clock
    deviates from that of board 0, answering [false] whatever the later
    boards hold; a clock that cannot be read, of board 0 or of a board it
    comes to, makes the call raise what the read raised. *)
Theorem get_time_synchronized_stops_early w :
  ((length (mboards w) ≤ 1)%nat → get_time_synchronized w = Ok true)
  ∧ ((2 ≤ length (mboards w))%nat →
     ∀ e, get_time_now 0 w = Throw e → get_time_synchronized w = Throw e)
  ∧ ∀ (m : nat) t0,
      (1 ≤ m < length (mboards w))%nat →
      get_time_now 0 w = Ok t0 →
      (∀ i : nat, (1 ≤ i < m)%nat →
         ∃ t, get_time_now (N.of_nat i) w = Ok t ∧ deviates t0 t = false) →
      (∀ t, get_time_now (N.of_nat m) w = Ok t → deviates t0 t = true →
            get_time_synchronized w = Ok false)
      ∧ (∀ e, get_time_now (N.of_nat m) w = Throw e →
              get_time_synchronized w = Throw e).
Proof.
  unfold get_time_synchronized. split; [|split].
  - intros Hle. destruct (mboards w) as [|b [|b' l]] eqn:E;
      cbn [length] in *; try lia.
    + cbn [get_time_synchronized_from]. unfold get_num_mboards, size.
      rewrite E. reflexivity.
    + cbn [get_time_synchronized_from]. unfold get_num_mboards, size.
      rewrite E. reflexivity.
  - intros Hge e He. unfold get_time_now in He.
    destruct (length (mboards w)) as [|n] eqn:E; [lia|].
    cbn [get_time_synchronized_from]. unfold get_num_mboards, size. rewrite E.
    destruct (N.ltb_spec 1 (N.of_nat (S n))); [|lia]. by rewrite He.
  - intros m t0 Hm H0 Hfine.
    pose proof (get_time_synchronized_from_skip w t0 m H0 ltac:(lia)
                  (m - 1) 1%nat (length (mboards w) - m) ltac:(lia) Hfine)
      as Hrun.
    replace (S (m - 1) + (length (mboards w) - m))%nat
      with (length (mboards w)) in Hrun by lia.
    change (N.of_nat 1) with 1%N in Hrun. rewrite Hrun. split.
    + intros t Ht Hd. rewrite Ht. cbn [mbind outcome_bind]. by rewrite Hd.
    + intros e He. by rewrite He.
Qed.
End synchronized.

Section specs.
Context {B : Type} `{!Board B}.
Implicit Types (w : world B) (b : B) (d : dir).

(** X19. On boards that accept a new subdevice specification and
    report it from then on, [set_rx_subdev_spec] and [set_tx_subdev_spec]
    with the sentinel return, every board then reports the new
    specification, and the channel count of the direction is the number of
    boards times the size of the specification (when that fits a
    [size_t]). *)
Theorem set_subdev_spec_round_trip d spec w :
  (N.of_nat (length (mboards w)) ≤ ALL_MBOARDS)%N →
  (∀ b, b ∈ mboards w →
     (board_set mboard_node (subdev_spec_key d) (VSubdevSpec spec) b).1 = Ok tt
     ∧ board_get
         (board_set mboard_node (subdev_spec_key d) (VSubdevSpec spec) b).2
         mboard_node (subdev_spec_key d)
       = Ok (VSubdevSpec spec)) →
  ∃ w',
    set_xx_subdev_spec d spec ALL_MBOARDS w = (Ok tt, w')
    ∧ length (mboards w') = length (mboards w)
    ∧ (∀ m : nat, (m < length (mboards w))%nat →
         get_xx_subdev_spec d (N.of_nat m) w' = Ok spec)
    ∧ ((N.of_nat (length (mboards w)) * size spec < 2 ^ 64)%N →
       get_xx_num_channels d w'
       = Ok (N.of_nat (length (mboards w)) * size spec)%N).
Proof.
  intros Hall Hacc. unfold set_xx_subdev_spec.
  destruct (fan_out_fans_out ALL_MBOARDS num_mboards
              (mboard_set (subdev_spec_key d) (VSubdevSpec spec)) w
              (λ i w0, num_mboards_mboard_set _ _ i w0)
              (get_num_mboards w) eq_refl Hall) as [Hrun _].
  rewrite Hrun. unfold get_num_mboards, size. rewrite Nat2N.id.
  rewrite (sequentially_ext _
             (mboard_set (subdev_spec_key d) (VSubdevSpec spec))).
  2:{ intros i Hi. apply fan_out_one. lia. }
  destruct (sequentially_mboard_set_accept (subdev_spec_key d)
              (VSubdevSpec spec) (length (mboards w)) 0 w)
    as (w' & Hseq & _ & _ & _ & Hmid); [lia| |].
  { intros i b _ Hb. apply Hacc. by apply list_elem_of_lookup_2 in Hb. }
  change (N.of_nat 0) with 0%N in Hseq. exists w'. split; [exact Hseq|].
  destruct (sequentially_mboard_set (subdev_spec_key d) (VSubdevSpec spec)
              (mboard_set (subdev_spec_key d) (VSubdevSpec spec))
              (length (mboards w)) 0%nat w w' (λ _ _, eq_refl) (le_n _) Hseq)
    as (_ & Hlen & _).
  split; [exact Hlen|].
  assert (spec_lists d w' (replicate (length (mboards w)) spec)) as Hspecs.
  { apply Forall2_same_length_lookup_2.
    - by rewrite length_replicate.
    - intros i b' spec' Hb' Hs'. apply lookup_replicate in Hs' as [-> Hi].
      assert (∃ b, mboards w !! i = Some b) as [b Hb]
        by (apply lookup_lt_is_Some; lia).
      rewrite (Hmid i b ltac:(lia) Hb) in Hb'. injection Hb' as <-.
      apply Hacc. by apply list_elem_of_lookup_2 in Hb. }
  split.
  - intros m Hm.
    assert (∃ b', mboards w' !! m = Some b') as [b' Hb']
      by (apply lookup_lt_is_Some; lia).
    destruct (Forall2_lookup_l _ _ _ _ _ Hspecs Hb') as (spec' & Hs' & Hget).
    apply lookup_replicate in Hs' as [-> _].
    unfold get_xx_subdev_spec.
    rewrite (mboard_get_Some w' _ b') by (by rewrite Nat2N.id).
    by rewrite Hget.
  - intros Hfit.
    rewrite (get_xx_num_channels_spec d w'
               (replicate (length (mboards w)) (size spec))).
    + by rewrite sum_sizes_replicate.
    + rewrite <- fmap_replicate. by apply spec_lists_sizes.
    + by rewrite sum_sizes_replicate.
Qed.
End specs.

Section one_channel.
Context {B : Type} `{!Board B}.
Implicit Types (w : world B) (b : B) (d : dir).

(** X20. [set_rx_rate] and [set_tx_rate] for one channel make one
    write, of the rate to the DSP of the channel: no other board changes.
    When the device rejects the write, or when the rate cannot be read back
    afterwards, the call raises what the device raised and sends no
    warning; in the second case the write has taken effect. *)
Theorem set_xx_rate_one_channel d rate (chan : N) w dsp b r b' :
  chan ≠ ALL_CHANS →
  _xx_dsp d chan w = Ok dsp →
  mboards w !! on_mboard dsp = Some b →
  board_set (at_node dsp) DSP_PROP_HOST_RATE (VDouble rate) b = (r, b') →
  let w1 :=
    mk_world (dev_name w) (<[on_mboard dsp := b']> (mboards w)) (msgs w)
      (writes w ++ [(dsp, DSP_PROP_HOST_RATE, VDouble rate)]) in
  mboards (set_xx_rate d rate chan w).2 = mboards w1
  ∧ writes (set_xx_rate d rate chan w).2 = writes w1
  ∧ (∀ j : nat, j ≠ on_mboard dsp →
       mboards (set_xx_rate d rate chan w).2 !! j = mboards w !! j)
  ∧ (∀ e, r = Throw e → set_xx_rate d rate chan w = (Throw e, w1))
  ∧ (∀ e, r = Ok tt → get_xx_rate d chan w1 = Throw e →
          set_xx_rate d rate chan w = (Throw e, w1)).
Proof.
  intros Hne Hdsp Hb Hset w1.
  assert (prop_set dsp DSP_PROP_HOST_RATE (VDouble rate) w = (r, w1)) as Hps.
  { unfold prop_set. by rewrite Hb, Hset. }
  assert (set_xx_rate d rate chan w
          = match r with
            | Ok _ =>
                match get_xx_rate d chan w1 with
                | Ok actual =>
                    do_samp_rate_warning_message rate actual (xx d) w1
                | Throw e => (Throw e, w1)
                | OutOfFuel => (OutOfFuel, w1)
                end
            | Throw e => (Throw e, w1)
            | OutOfFuel => (OutOfFuel, w1)
            end) as Hrun.
  { unfold set_xx_rate. rewrite fan_out_one by exact Hne.
    unfold set_xx_rate_chan. unfold bindM at 1, liftR at 1. rewrite Hdsp.
    unfold bindM at 1. rewrite Hps. by destruct r as [[]| |]. }
  assert (mboards (set_xx_rate d rate chan w).2 = mboards w1
          ∧ writes (set_xx_rate d rate chan w).2 = writes w1) as [Hm Hw].
  { rewrite Hrun. destruct r as [[]| |]; try by split.
    destruct (get_xx_rate d chan w1) as [actual| |]; try by split.
    rewrite do_samp_rate_warning_message_spec. by split. }
  split; [exact Hm|]. split; [exact Hw|]. split; [|split].
  - intros j Hj. rewrite Hm. cbn [w1 mboards].
    by apply list_lookup_insert_ne.
  - intros e ->. exact Hrun.
  - intros e -> He. rewrite Hrun, He. reflexivity.
Qed.
End one_channel.

Section header.
Context {B : Type} `{!Board B}.
Implicit Types (w : world B) (b : B) (d : dir).

Lemma pp_mboard_loop_inv w :
  ∀ budget (m : nat) buff buff',
    pp_mboard_loop budget (N.of_nat m) buff w = Ok buff' →
    ∃ names,
      buff' = buff ++ pp_mboards m names
      ∧ length names = (length (mboards w) - m)%nat
      ∧ ∀ (i : nat) name, names !! i = Some name →
          get_mboard_name (N.of_nat (m + i)) w = Ok name.
Proof.
  assert (get_num_mboards w = N.of_nat (length (mboards w))) as Hn
    by reflexivity.
  induction budget as [|budget IH]; intros m buff buff';
    cbn [pp_mboard_loop]; rewrite Hn;
    destruct (N.ltb_spec (N.of_nat m) (N.of_nat (length (mboards w))))
      as [Hlt|Hge]; try discriminate.
  - intros [= <-]. exists []. rewrite app_nil_r.
    split; [reflexivity|]. split; [cbn; lia|]. intros i name. discriminate.
  - destruct (mboard_get (N.of_nat m) MBOARD_PROP_NAME w ≫= as_string)
      as [name| |] eqn:Hname; cbn [mbind outcome_bind]; try discriminate.
    replace (N.of_nat m + 1)%N with (N.of_nat (S m)) by lia.
    intros Hrun. destruct (IH _ _ _ Hrun) as (names & -> & Hlen & Hall).
    exists (name :: names). rewrite <- app_assoc. split; [reflexivity|].
    split; [cbn [length]; lia|].
    intros [|i] name' Hi.
    + injection Hi as <-. by rewrite Nat.add_0_r.
    + replace (m + S i)%nat with (S m + i)%nat by lia. by apply Hall.
  - intros [= <-]. exists []. rewrite app_nil_r.
    split; [reflexivity|]. split; [cbn; lia|]. intros i name. discriminate.
Qed.

Lemma pp_channel_item_is_channel d chan w item :
  pp_channel_item d chan w = Ok item → is_pp_channel item = true.
Proof.
  unfold pp_channel_item.
  repeat match goal with
         | |- context [@mbind _ _ _ _ _ ?c] =>
             destruct c; cbn [mbind outcome_bind]; try discriminate
         end.
  by intros [= <-].
Qed.

Lemma pp_chan_loop_inv d w (m : N) :
  ∀ budget (chan : N) buff chan' buff',
    pp_chan_loop budget d m chan buff w = Ok (chan', buff') →
    ∃ items, buff' = buff ++ items ∧ forallb is_pp_channel items = true.
Proof.
  induction budget as [|budget IH]; intros chan buff chan' buff';
    cbn [pp_chan_loop];
    (destruct (get_xx_subdev_spec d m w) as [spec| |];
     cbn [mbind outcome_bind]; try discriminate);
    (destruct (chan <? wrap ((m + 1) * size spec))%N; try discriminate).
  - intros [= <- <-]. exists []. by rewrite app_nil_r.
  - destruct (pp_channel_item d chan w) as [item| |] eqn:Hitem;
      cbn [mbind outcome_bind]; try discriminate.
    intros Hrun. destruct (IH _ _ _ _ Hrun) as (items & -> & Hall).
    exists (item :: items). rewrite <- app_assoc. split; [reflexivity|].
    cbn [forallb]. by rewrite (pp_channel_item_is_channel _ _ _ _ Hitem).
  - intros [= <- <-]. exists []. by rewrite app_nil_r.
Qed.

Lemma pp_xx_loop_inv d w :
  ∀ budget (m chan : N) buff buff',
    pp_xx_loop budget d m chan buff w = Ok buff' →
    ∃ items, buff' = buff ++ items ∧ forallb is_pp_channel items = true.
Proof.
  induction budget as [|budget IH]; intros m chan buff buff';
    cbn [pp_xx_loop];
    (destruct (m <? get_num_mboards w)%N; try discriminate).
  - intros [= <-]. exists []. by rewrite app_nil_r.
  - destruct (pp_chan_loop (pp_budget d m w) d m chan buff w)
      as [[chan1 buff1]| |] eqn:Hin; cbn [mbind outcome_bind];
      try discriminate.
    intros Hrun.
    destruct (pp_chan_loop_inv _ _ _ _ _ _ _ _ Hin) as (items1 & -> & Hall1).
    destruct (IH _ _ _ _ Hrun) as (items & -> & Hall).
    exists (items1 ++ items). rewrite <- app_assoc. split; [reflexivity|].
    by rewrite forallb_app, Hall1, Hall.
  - intros [= <-]. exists []. by rewrite app_nil_r.
Qed.

(** X21. Whenever [get_pp_string] returns, its buffer begins with the
    header, which says "Multi" exactly when the device has more than one
    board and names the device; then comes one line for every board, in the
    order of the boards and with the name read from the board; and all that
    follows are channel blocks. *)
Theorem get_pp_string_header w buff :
  get_pp_string w = Ok buff →
  ∃ names rest,
    buff
    = pp_header (1 <? get_num_mboards w)%N (dev_name w)
      :: pp_mboards 0 names ++ rest
    ∧ length names = length (mboards w)
    ∧ (∀ (m : nat) name, names !! m = Some name →
         get_mboard_name (N.of_nat m) w = Ok name)
    ∧ forallb is_pp_channel rest = true.
Proof.
  unfold get_pp_string.
  destruct (pp_mboard_loop _ 0 _ w) as [buff0| |] eqn:H0;
    cbn [mbind outcome_bind]; try discriminate.
  destruct (pp_xx_loop _ RX 0 0 buff0 w) as [buff1| |] eqn:H1;
    cbn [mbind outcome_bind]; try discriminate.
  intros H2.
  change 0%N with (N.of_nat 0) in H0 at 1.
  destruct (pp_mboard_loop_inv _ _ _ _ _ H0) as (names & -> & Hlen & Hall).
  destruct (pp_xx_loop_inv _ _ _ _ _ _ _ H1) as (items1 & -> & Hall1).
  destruct (pp_xx_loop_inv _ _ _ _ _ _ _ H2) as (items2 & -> & Hall2).
  exists names, (items1 ++ items2). rewrite <- !app_assoc.
  split; [reflexivity|]. split; [lia|]. split; [exact Hall|].
  by rewrite forallb_app, Hall1, Hall2.
Qed.
End header.

Section clock_rate.
Context {B : Type} `{!Board B}.
Implicit Types (w : world B) (b : B).

(** X22. On a board that accepts a new clock rate and reports it from
    then on, [set_master_clock_rate] for that board followed by
    [get_master_clock_rate] gives the rate back; the call makes one write,
    to that board, and the rates read from the other boards are as before. *)
Theorem set_get_master_clock_rate w (m : nat) b rate :
  N.of_nat m ≠ ALL_MBOARDS →
  mboards w !! m = Some b →
  (board_set mboard_node MBOARD_PROP_CLOCK_RATE (VDouble rate) b).1 = Ok tt →
  board_get (board_set mboard_node MBOARD_PROP_CLOCK_RATE (VDouble rate) b).2
    mboard_node MBOARD_PROP_CLOCK_RATE
  = Ok (VDouble rate) →
  ∃ w',
    set_master_clock_rate rate (N.of_nat m) w = (Ok tt, w')
    ∧ get_master_clock_rate (N.of_nat m) w' = Ok rate
    ∧ writes w'
      = writes w ++ [(mk_obj m mboard_node, MBOARD_PROP_CLOCK_RATE, VDouble rate)]
    ∧ ∀ j : nat, j ≠ m →
        mboards w' !! j = mboards w !! j
        ∧ get_master_clock_rate (N.of_nat j) w'
          = get_master_clock_rate (N.of_nat j) w.
Proof.
  intros Hne Hb Hok Hget. unfold set_master_clock_rate.
  rewrite fan_out_one by exact Hne.
  rewrite (mboard_set_effect _ _ m w b Hb), Hok.
  eexists. split; [reflexivity|]. cbn [writes mboards].
  pose proof (lookup_lt_Some _ _ _ Hb) as Hlt. split; [|split].
  - unfold get_master_clock_rate.
    rewrite (mboard_get_Some _ _
               (board_set mboard_node MBOARD_PROP_CLOCK_RATE (VDouble rate) b).2).
    + by rewrite Hget.
    + cbn [mboards]. rewrite Nat2N.id. by apply list_lookup_insert_eq.
  - reflexivity.
  - intros j Hj.
    assert (<[m:=(board_set mboard_node MBOARD_PROP_CLOCK_RATE
                    (VDouble rate) b).2]> (mboards w) !! j
            = mboards w !! j) as Hsame
      by (apply list_lookup_insert_ne; congruence).
    split; [exact Hsame|]. unfold get_master_clock_rate.
    destruct (mboards w !! j) as [bj|] eqn:Hbj.
    + rewrite (mboard_get_Some _ (N.of_nat j) bj)
        by (cbn [mboards]; by rewrite Nat2N.id).
      by rewrite (mboard_get_Some w (N.of_nat j) bj) by (by rewrite Nat2N.id).
    + rewrite (mboard_get_None _ (N.of_nat j))
        by (cbn [mboards]; by rewrite Nat2N.id).
      by rewrite (mboard_get_None w (N.of_nat j)) by (by rewrite Nat2N.id).
Qed.
End clock_rate.

(** *** Instances of the statements *)

Section instances.
Import sim.

Lemma get_pp_string_header_witness :
  ∃ names rest,
    [ pp_header true "sim"; pp_mboard 0 "mb0"; pp_mboard 1 "mb1";
      pp_channel RX 0 "dsp0" "A" "0"; pp_channel RX 1 "dsp1" "B" "0";
      pp_channel RX 2 "dsp0" "A" "0"; pp_channel RX 3 "dsp1" "B" "0";
      pp_channel TX 0 "dsp0" "A" "0"; pp_channel TX 1 "dsp0" "A" "0" ]
    = pp_header (1 <? get_num_mboards boards_2_2)%N (dev_name boards_2_2)
      :: pp_mboards 0 names ++ rest
    ∧ length names = length (mboards boards_2_2).
Proof.
  assert (get_pp_string boards_2_2
          = Ok [ pp_header true "sim"; pp_mboard 0 "mb0"; pp_mboard 1 "mb1";
                 pp_channel RX 0 "dsp0" "A" "0"; pp_channel RX 1 "dsp1" "B" "0";
                 pp_channel RX 2 "dsp0" "A" "0"; pp_channel RX 3 "dsp1" "B" "0";
                 pp_channel TX 0 "dsp0" "A" "0"; pp_channel TX 1 "dsp0" "A" "0" ])
    as Hrun by (vm_compute; reflexivity).
  destruct (get_pp_string_header boards_2_2 _ Hrun)
    as (names & rest & Hbuff & Hlen & _).
  exists names, rest. split; [exact Hbuff | exact Hlen].
Defined.

Lemma set_get_master_clock_rate_witness :
  ∃ w',
    set_master_clock_rate 64e6 1 boards_2_2 = (Ok tt, w')
    ∧ get_master_clock_rate 1 w' = Ok 64e6%float.
Proof.
  assert (N.of_nat 1 ≠ ALL_MBOARDS) as Hne by (vm_compute; discriminate).
  assert (∃ b, mboards boards_2_2 !! 1%nat = Some b) as [b Hb]
    by (eexists; reflexivity).
  assert ((board_set mboard_node MBOARD_PROP_CLOCK_RATE (VDouble 64e6)
             (plain_board "mb1" [sd "A" "0"; sd "B" "0"] [sd "A" "0"]
                ["dsp0"; "dsp1"] ["dsp0"] 0 (1 # 2))).1 = Ok tt) as Hok
    by reflexivity.
  assert (board_get
            (board_set mboard_node MBOARD_PROP_CLOCK_RATE (VDouble 64e6)
               (plain_board "mb1" [sd "A" "0"; sd "B" "0"] [sd "A" "0"]
                  ["dsp0"; "dsp1"] ["dsp0"] 0 (1 # 2))).2
            mboard_node MBOARD_PROP_CLOCK_RATE
          = Ok (VDouble 64e6)) as Hget
    by (vm_compute; reflexivity).
  destruct (set_get_master_clock_rate boards_2_2 1 _ 64e6%float Hne eq_refl
              Hok Hget) as (w' & Hrun & Hrate & _).
  exists w'. split; [exact Hrun | exact Hrate].
Defined.

Lemma spec_lists_boards_2_3_1 :
  spec_lists RX boards_2_3_1
    [ [sd "A" "0"; sd "B" "0"]; [sd "A" "0"; sd "A" "1"; sd "B" "0"];
      [sd "A" "0"] ].
Proof. repeat constructor. Qed.

Lemma channel_numbering_witness :
  ∃ (m k : nat) spec b,
    mboards boards_2_3_1 !! m = Some b
    ∧ [ [sd "A" "0"; sd "B" "0"]; [sd "A" "0"; sd "A" "1"; sd "B" "0"];
        [sd "A" "0"] ] !! m = Some spec
    ∧ spec !! k = Some (sd "A" "1")
    ∧ 3%nat = (length (concat (take m
                 [ [sd "A" "0"; sd "B" "0"];
                   [sd "A" "0"; sd "A" "1"; sd "B" "0"]; [sd "A" "0"] ])) + k)%nat
    ∧ xx_chan_to_mcp RX 3%N boards_2_3_1 = Ok (mk_mcp (N.of_nat m) (N.of_nat k))
    ∧ _xx_dboard RX 3%N boards_2_3_1 = Ok (mk_obj m (dboard_node RX (sd "A" "1")))
    ∧ _xx_subdev RX 3%N boards_2_3_1 = Ok (mk_obj m (subdev_node RX (sd "A" "1")))
    ∧ get_xx_subdev_name RX 3%N boards_2_3_1
      = board_get b (subdev_node RX (sd "A" "1")) SUBDEV_PROP_NAME ≫= as_string.
Proof.
  exact (channel_numbering RX boards_2_3_1 _ 3%nat (sd "A" "1")
           spec_lists_boards_2_3_1 eq_refl).
Defined.

Lemma num_channels_counts_entries_witness :
  get_xx_num_channels RX boards_2_3_1 = Ok 6%N.
Proof.
  assert (size (concat
            [ [sd "A" "0"; sd "B" "0"]; [sd "A" "0"; sd "A" "1"; sd "B" "0"];
              [sd "A" "0"] ]) < 2 ^ 64)%N as Hfit
    by (vm_compute; reflexivity).
  exact (proj1 (num_channels_counts_entries RX boards_2_3_1 _
                  spec_lists_boards_2_3_1 Hfit)).
Defined.

Lemma dsp_of_channel_witness :
  ∃ (m k : nat) spec names,
    [ [sd "A" "0"; sd "B" "0"]; [sd "A" "0"; sd "A" "1"; sd "B" "0"];
      [sd "A" "0"] ] !! m = Some spec
    ∧ spec !! k = Some (sd "A" "1")
    ∧ 3%nat = (length (concat (take m
                 [ [sd "A" "0"; sd "B" "0"];
                   [sd "A" "0"; sd "A" "1"; sd "B" "0"]; [sd "A" "0"] ])) + k)%nat
    ∧ [ ["dsp0"; "dsp1"]; ["dsp0"; "dsp1"; "dsp2"]; ["dsp0"] ] !! m = Some names
    ∧ _xx_dsp RX 3%N boards_2_3_1
      = match names !! k with
        | Some dsp => Ok (mk_obj m (dsp_node RX dsp))
        | None => Throw out_of_range
        end.
Proof.
  assert (dsp_lists RX boards_2_3_1
            [ ["dsp0"; "dsp1"]; ["dsp0"; "dsp1"; "dsp2"]; ["dsp0"] ]) as Hd
    by repeat constructor.
  exact (dsp_of_channel RX boards_2_3_1 _ _ 3%nat (sd "A" "1")
           spec_lists_boards_2_3_1 Hd eq_refl).
Defined.

Lemma board_index_out_of_range_witness :
  get_time_now 2%N boards_2_2 = Throw out_of_range
  ∧ set_time_now 5%Q 2%N boards_2_2 = (Throw out_of_range, boards_2_2).
Proof.
  assert (get_num_mboards boards_2_2 ≤ 2)%N as Hge
    by (vm_compute; discriminate).
  assert (2%N ≠ ALL_MBOARDS) as Hne by (vm_compute; discriminate).
  destruct (board_index_out_of_range boards_2_2 2%N Hge)
    as (_ & _ & Hnow & _ & _ & _ & Hset).
  split; [exact Hnow | exact (proj1 (proj2 (Hset Hne)) 5%Q)].
Defined.

Lemma channel_out_of_range_witness :
  get_xx_rate RX 6%N boards_2_3_1 = Throw out_of_range
  ∧ set_xx_rate RX 1e6%float 6%N boards_2_3_1 = (Throw out_of_range, boards_2_3_1).
Proof.
  assert (spec_sizes RX boards_2_3_1 [2; 3; 1]%N) as Hs
    by (repeat constructor; eexists; (split; [reflexivity|reflexivity])).
  assert (sum_sizes [2; 3; 1] ≤ 6)%N as Hge by (vm_compute; discriminate).
  assert (6%N ≠ ALL_CHANS) as Hne by (vm_compute; discriminate).
  destruct (channel_out_of_range RX boards_2_3_1 _ 6%N Hs Hge)
    as (Hget & _ & Hset).
  split; [exact Hget | exact (proj1 (Hset Hne) 1e6%float)].
Defined.

Lemma set_time_next_pps_arms_every_board_witness :
  ∃ w',
    set_time_next_pps 7%Q boards_2_2 = (Ok tt, w')
    ∧ writes w'
      = [ (mk_obj 0%nat mboard_node, MBOARD_PROP_TIME_PPS, VTime 7%Q);
          (mk_obj 1%nat mboard_node, MBOARD_PROP_TIME_PPS, VTime 7%Q) ]
    ∧ msgs w' = [].
Proof.
  assert (∀ b, b ∈ mboards boards_2_2 →
            (board_set mboard_node MBOARD_PROP_TIME_PPS (VTime 7%Q) b).1 = Ok tt)
    as Hacc by (apply Forall_forall; repeat constructor).
  destruct (set_time_next_pps_arms_every_board 7%Q boards_2_2 Hacc)
    as (w' & Hrun & _ & Hw & Hm).
  exists w'. split; [exact Hrun|]. split; [exact Hw | exact Hm].
Defined.

Lemma set_time_next_pps_stops_at_rejection_witness :
  ∃ w',
    set_time_next_pps 7%Q boards_pps_locked = (Throw (device_error 9), w')
    ∧ writes w'
      = [ (mk_obj 0%nat mboard_node, MBOARD_PROP_TIME_PPS, VTime 7%Q);
          (mk_obj 1%nat mboard_node, MBOARD_PROP_TIME_PPS, VTime 7%Q) ]
    ∧ mboards w' !! 2%nat = mboards boards_pps_locked !! 2%nat.
Proof.
  assert (∀ (i : nat) b, (i < 1)%nat →
            mboards boards_pps_locked !! i = Some b →
            (board_set mboard_node MBOARD_PROP_TIME_PPS (VTime 7%Q) b).1 = Ok tt)
    as Hacc.
  { intros [|i] b Hi Hb; [|lia]. injection Hb as <-. reflexivity. }
  assert ((board_set mboard_node MBOARD_PROP_TIME_PPS (VTime 7%Q)
             (pps_locked_board "mb1")).1 = Throw (device_error 9)) as Hrej
    by (vm_compute; reflexivity).
  destruct (set_time_next_pps_stops_at_rejection 7%Q boards_pps_locked 1%nat
              (pps_locked_board "mb1") (device_error 9) eq_refl Hrej Hacc)
    as (w' & Hrun & Hw & _ & Hrest).
  exists w'. split; [exact Hrun|]. split; [exact Hw|].
  apply Hrest. lia.
Defined.

Lemma set_time_unknown_pps_arms_at_edge_witness :
  ∃ w',
    set_time_unknown_pps 10 7%Q boards_pps = (Ok tt, w')
    ∧ writes w'
      = [ (mk_obj 0%nat mboard_node, MBOARD_PROP_TIME_PPS, VTime 7%Q);
          (mk_obj 1%nat mboard_node, MBOARD_PROP_TIME_PPS, VTime 7%Q) ]
    ∧ msgs w'
      = [ status "    1) catch time transition at pps edge";
          status "    2) set times next pps (synchronously)";
          time_deviation_warning 1%N 0%Q 5%Q ].
Proof.
  assert (get_time_now 0%N boards_pps = Ok 0%Q) as Hnow by reflexivity.
  assert (get_time_last_pps 0%N boards_pps = Ok 0%Q) as Hpps by reflexivity.
  assert (∀ k, (k < 3)%nat →
            ∃ p t, get_time_last_pps 0%N (elapsed k boards_pps) = Ok p
                   ∧ (p == 0)%Q
                   ∧ get_time_now 0%N (elapsed k boards_pps) = Ok t
                   ∧ (t - 0 <= 11 # 10)%Q) as Hwait.
  { intros [|[|[|k]]] Hk; try lia; exists 0%Q, 0%Q;
      (split; [reflexivity|]); (split; [reflexivity|]);
      (split; [reflexivity|]); vm_compute; discriminate. }
  assert (∃ p, get_time_last_pps 0%N (elapsed 3%nat boards_pps) = Ok p
               ∧ ¬ (p == 0)%Q) as Hedge.
  { exists 1%Q. split; [reflexivity|]. vm_compute. discriminate. }
  assert (∀ b, b ∈ mboards (elapsed 3%nat boards_pps) →
            (board_set mboard_node MBOARD_PROP_TIME_PPS (VTime 7%Q) b).1 = Ok tt)
    as Hacc by (apply Forall_forall; repeat constructor).
  assert (Forall2
            (λ b t,
               board_get
                 (board_sleep
                    (board_set mboard_node MBOARD_PROP_TIME_PPS (VTime 7%Q) b).2)
                 mboard_node MBOARD_PROP_TIME_NOW
               = Ok (VTime t))
            (mboards (elapsed 3%nat boards_pps)) [0%Q; 5%Q]) as Htimes
    by repeat constructor.
  destruct (set_time_unknown_pps_arms_at_edge boards_pps 7%Q 0%Q 0%Q 3%nat [0%Q; 5%Q]
              Hnow Hpps Hwait Hedge Hacc Htimes 10%nat ltac:(lia))
    as (w' & Hrun & _ & Hw & Hm).
  exists w'. split; [exact Hrun|]. split; [exact Hw | exact Hm].
Defined.

Lemma get_time_synchronized_iff_no_warning_witness :
  ∃ (ok : bool) w',
    get_time_synchronized (clocks [0; 5]%Q) = Ok ok
    ∧ for_loop 1%N num_mboards verify_time (clocks [0; 5]%Q) = (Ok tt, w')
    ∧ (ok = true ↔ msgs w' = msgs (clocks [0; 5]%Q))
    ∧ mboards w' = mboards (clocks [0; 5]%Q)
    ∧ writes w' = writes (clocks [0; 5]%Q).
Proof.
  assert (now_times (clocks [0; 5]%Q) [0 + 0 * 0; 5 + 0 * 0]%Q) as Hn
    by repeat constructor.
  exact (get_time_synchronized_iff_no_warning _ _ Hn).
Defined.

Lemma get_pp_string_lists_below_bound_witness :
  ∃ buff,
    get_pp_string boards_2_1 = Ok buff
    ∧ pp_channels buff = [(RX, 0); (RX, 1); (TX, 0); (TX, 1)]%N.
Proof.
  assert (spec_sizes RX boards_2_1 (N.of_nat <$> [2; 1]%nat)) as Hrx
    by (repeat constructor; eexists; (split; [reflexivity|reflexivity])).
  assert (spec_sizes TX boards_2_1 (N.of_nat <$> [1; 1]%nat)) as Htx
    by (repeat constructor; eexists; (split; [reflexivity|reflexivity])).
  assert (N.of_nat (sum_list [2; 1]%nat) < 2 ^ 64)%N as Hfr
    by (vm_compute; reflexivity).
  assert (N.of_nat (sum_list [1; 1]%nat) < 2 ^ 64)%N as Hft
    by (vm_compute; reflexivity).
  assert (∀ m : nat, (m < length (mboards boards_2_1))%nat →
            ∃ name, get_mboard_name (N.of_nat m) boards_2_1 = Ok name)
    as Hnames.
  { intros [|[|m]] Hm; [| |cbn in Hm; lia]; eexists; vm_compute; reflexivity. }
  assert (∀ c : nat, (c < sum_list [2; 1]%nat)%nat →
            ∃ item, pp_channel_item RX (N.of_nat c) boards_2_1 = Ok item)
    as Hirx.
  { intros [|[|[|c]]] Hc; [| | |cbn in Hc; lia]; eexists; vm_compute;
      reflexivity. }
  assert (∀ c : nat, (c < sum_list [1; 1]%nat)%nat →
            ∃ item, pp_channel_item TX (N.of_nat c) boards_2_1 = Ok item)
    as Hitx.
  { intros [|[|c]] Hc; [| |cbn in Hc; lia]; eexists; vm_compute; reflexivity. }
  assert (pp_bound 0 [2; 1] ≤ sum_list [2; 1])%nat as Hbr by (cbn; lia).
  assert (pp_bound 0 [1; 1] ≤ sum_list [1; 1])%nat as Hbt by (cbn; lia).
  exact (get_pp_string_lists_below_bound boards_2_1 [2; 1]%nat [1; 1]%nat
           Hrx Htx Hfr Hft Hnames Hirx Hitx Hbr Hbt).
Defined.

Lemma get_pp_string_raises_past_bound_witness :
  get_pp_string boards_1_2 = Throw out_of_range.
Proof.
  assert (spec_sizes RX boards_1_2 (N.of_nat <$> [1; 2]%nat)) as Hrx
    by (repeat constructor; eexists; (split; [reflexivity|reflexivity])).
  assert (spec_sizes TX boards_1_2 (N.of_nat <$> [1; 1]%nat)) as Htx
    by (repeat constructor; eexists; (split; [reflexivity|reflexivity])).
  assert (N.of_nat (pp_bound 0 [1; 2]%nat) < 2 ^ 64)%N as Hfr
    by (vm_compute; reflexivity).
  assert (N.of_nat (pp_bound 0 [1; 1]%nat) < 2 ^ 64)%N as Hft
    by (vm_compute; reflexivity).
  assert (∀ m : nat, (m < length (mboards boards_1_2))%nat →
            ∃ name, get_mboard_name (N.of_nat m) boards_1_2 = Ok name)
    as Hnames.
  { intros [|[|m]] Hm; [| |cbn in Hm; lia]; eexists; vm_compute; reflexivity. }
  assert (∀ c : nat, (c < sum_list [1; 2]%nat)%nat →
            ∃ item, pp_channel_item RX (N.of_nat c) boards_1_2 = Ok item)
    as Hirx.
  { intros [|[|[|c]]] Hc; [| | |cbn in Hc; lia]; eexists; vm_compute;
      reflexivity. }
  assert (∀ c : nat, (c < sum_list [1; 1]%nat)%nat →
            ∃ item, pp_channel_item TX (N.of_nat c) boards_1_2 = Ok item)
    as Hitx.
  { intros [|[|c]] Hc; [| |cbn in Hc; lia]; eexists; vm_compute; reflexivity. }
  assert ((sum_list [1; 2] < pp_bound 0 [1; 2])%nat
          ∨ (sum_list [1; 1] < pp_bound 0 [1; 1])%nat) as Hover
    by (left; cbn; lia).
  exact (get_pp_string_raises_past_bound boards_1_2 [1; 2]%nat [1; 1]%nat
           Hrx Htx Hfr Hft Hnames Hirx Hitx Hover).
Defined.

Lemma set_subdev_spec_round_trip_witness :
  ∃ w',
    set_xx_subdev_spec RX [sd "C" "0"] ALL_MBOARDS boards_2_2 = (Ok tt, w')
    ∧ get_xx_num_channels RX w' = Ok 2%N.
Proof.
  assert (N.of_nat (length (mboards boards_2_2)) ≤ ALL_MBOARDS)%N as Hall
    by (vm_compute; discriminate).
  assert (∀ b, b ∈ mboards boards_2_2 →
            (board_set mboard_node (subdev_spec_key RX)
               (VSubdevSpec [sd "C" "0"]) b).1 = Ok tt
            ∧ board_get
                (board_set mboard_node (subdev_spec_key RX)
                   (VSubdevSpec [sd "C" "0"]) b).2
                mboard_node (subdev_spec_key RX)
              = Ok (VSubdevSpec [sd "C" "0"])) as Hacc
    by (apply Forall_forall; repeat constructor).
  assert (N.of_nat (length (mboards boards_2_2)) * size [sd "C" "0"] < 2 ^ 64)%N
    as Hfit by (vm_compute; reflexivity).
  destruct (set_subdev_spec_round_trip RX [sd "C" "0"] boards_2_2 Hall Hacc)
    as (w' & Hrun & _ & _ & Hcount).
  exists w'. split; [exact Hrun | exact (Hcount Hfit)].
Defined.

Lemma set_xx_rate_one_channel_witness :
  set_xx_rate RX 1e6%float 0%N (device [rate_locked_board "mb0"])
  = (Throw (device_error 3),
     mk_world "sim" [rate_locked_board "mb0"] []
       [(mk_obj 0%nat (dsp_node RX "dsp0"), DSP_PROP_HOST_RATE, VDouble 1e6%float)]).
Proof.
  assert (0%N ≠ ALL_CHANS) as Hne by (vm_compute; discriminate).
  exact (proj1 (proj2 (proj2 (proj2
           (set_xx_rate_one_channel RX 1e6%float 0%N (device [rate_locked_board "mb0"])
              (mk_obj 0%nat (dsp_node RX "dsp0")) (rate_locked_board "mb0")
              (Throw (device_error 3)) (rate_locked_board "mb0")
              Hne eq_refl eq_refl eq_refl))))
           (device_error 3) eq_refl).
Defined.
End instances.
End multi_usrp_more_facts.
